(** * DirectDriveBot: the ride marketplace state engine

    A shallow embedding of the tools of the taxi bot that touch the
    relational store (orders, driver offers, price negotiations, driver
    documents and ratings), and the properties the specification states
    about them.

    Modelling conventions.
    - A table is the list of its rows in insertion order; [select ... where]
      is [filter], [update ... set ... where] rewrites the matching rows in
      place, [insert] appends a row whose [id] is drawn from the table's
      serial sequence.
    - [text] columns are [string], [integer]/[serial] columns are [Z],
      nullable columns without a default are [option], [decimal] columns
      hold the text the code writes into them.  Columns with a default that
      the code never sets to null ([status], [rating], [isVerified], ...) are
      modelled without the null case.
    - JavaScript numbers received by the tools (ids, prices) are integers [Z];
      the only place where the code computes with fractions, the average
      rating, is modelled on IEEE binary64 with the Standard Library's
      [SpecFloat].
    - Every tool body runs inside [try { ... } catch]: a store operation that
      raises aborts the body and the tool returns its generic failure
      object.  An insert raises when a parameter of the call does not fit
      its column (an integer outside [int4], a price that overflows
      [decimal(8, 2)]), before a serial id is drawn, and when the row has a
      null in a [notNull()] column, after the id was drawn.
    - Rows are looked up and updated by integer ids that the caller passes.
      The model compares them as integers, so an id outside [int4] names no
      row; the real store raises on such a parameter instead.  What the
      store holds is of its column's type, so an id that names a row is
      within [int4]; a statement about an id that names no row says [int4]
      of it.
    - A tool is an input schema and an [execute]; the model of a tool is its
      [execute].  Enumerations of the schema are inductive types; the bound
      the schema of [rateRide] puts on the score is the predicate
      [rating_in_schema], which the statements about a call assume.
    - [now] is the timestamp the store and [new Date()] hand out during the
      call. *)

From Stdlib Require Import ZArith Lia.
From Stdlib Require Import Floats.SpecFloat.
From Stdlib Require Import Sorting.Sorted.
From stdpp Require Import base list strings pretty relations.

Open Scope Z_scope.

(** ** Schema (shared/schema) *)

Module passengers.
Record row := mk {
  id : Z;
  telegramId : string;
  firstName : string;
  phoneNumber : string;
  rating : string;
  totalRides : Z;
  createdAt : Z;
  updatedAt : Z;
}.
End passengers.

Module drivers.
Record row := mk {
  id : Z;
  telegramId : string;
  firstName : string;
  phoneNumber : string;
  rating : string;
  totalRides : Z;
  isOnline : bool;
  isVerified : bool;
  carModel : option string;
  carColor : option string;
  carNumber : option string;
  licenseStatus : string;
  vehicleStatus : string;
  createdAt : Z;
  updatedAt : Z;
}.
End drivers.

(** The [jsonb] payload of a document, as the upload tool's input schema
    shapes it. *)
Record DocumentData := mkDocumentData {
  number : string;
  issuedBy : string;
  issueDate : string;
  expiryDate : option string;
  additionalInfo : option string;
}.

Module driverDocuments.
Record row := mk {
  id : Z;
  driverId : Z;
  documentType : string;
  documentData : option DocumentData;
  status : string;
  rejectionReason : option string;
  createdAt : Z;
  updatedAt : Z;
}.
End driverDocuments.

Module orders.
Record row := mk {
  id : Z;
  passengerId : Z;
  fromAddress : string;
  toAddress : string;
  suggestedPrice : string;
  finalPrice : option string;
  status : string;
  acceptedDriverId : option Z;
  createdAt : Z;
  updatedAt : Z;
}.
End orders.

Module driverOffers.
Record row := mk {
  id : Z;
  orderId : Z;
  driverId : Z;
  offeredPrice : string;
  status : string;
  message : option string;
  createdAt : Z;
  updatedAt : Z;
}.
End driverOffers.

Module priceNegotiations.
Record row := mk {
  id : Z;
  orderId : Z;
  fromUserId : Z;
  fromUserType : string;
  toUserId : Z;
  toUserType : string;
  proposedPrice : string;
  status : string;
  createdAt : Z;
}.
End priceNegotiations.

Module ratings.
Record row := mk {
  id : Z;
  orderId : Z;
  fromUserId : Z;
  fromUserType : string;
  toUserId : Z;
  toUserType : string;
  rating : Z;
  comment : option string;
  createdAt : Z;
}.
End ratings.

(** ** The store *)

(** The next value of each table's [serial] sequence. *)
Record Sequences := mkSequences {
  seq_passengers : Z;
  seq_drivers : Z;
  seq_driverDocuments : Z;
  seq_orders : Z;
  seq_driverOffers : Z;
  seq_priceNegotiations : Z;
  seq_ratings : Z;
}.

Record DB := mkDB {
  tbl_passengers : list passengers.row;
  tbl_drivers : list drivers.row;
  tbl_driverDocuments : list driverDocuments.row;
  tbl_orders : list orders.row;
  tbl_driverOffers : list driverOffers.row;
  tbl_priceNegotiations : list priceNegotiations.row;
  tbl_ratings : list ratings.row;
  sequences : Sequences;
}.

(** ** Column types *)

(** [integer] and [serial] columns hold 32-bit integers. *)
Definition int4 (z : Z) : Prop := - 2 ^ 31 <= z < 2 ^ 31.

(** [decimal(8, 2)] holds eight digits, two of them after the point: an
    integer fits when it is below 10^6 in absolute value. *)
Definition decimal_8_2 (z : Z) : Prop := - 10 ^ 6 < z < 10 ^ 6.

#[global] Instance int4_dec (z : Z) : Decision (int4 z) :=
  decide (- 2 ^ 31 <= z < 2 ^ 31).

#[global] Instance decimal_8_2_dec (z : Z) : Decision (decimal_8_2 z) :=
  decide (- 10 ^ 6 < z < 10 ^ 6).

(** The parameters of an insert that come from the arguments of the call
    fit their columns: [integers] go to [integer] columns, [price] to a
    [decimal(8, 2)] column.  What a tool has read from the store and writes
    back is of its column's type already. *)
Definition parameters_fit (integers : list Z) (price : Z) : Prop :=
  Forall int4 integers /\ decimal_8_2 price.

(** ** Store operations: state passing with exceptions *)

Inductive outcome (A : Type) : Type :=
| Returned (a : A)
| Thrown.
Arguments Returned {A} a.
Arguments Thrown {A}.

Definition Store (A : Type) : Type := DB -> outcome A * DB.

Definition ret {A} (a : A) : Store A := fun db => (Returned a, db).

Definition bind {A B} (m : Store A) (k : A -> Store B) : Store B :=
  fun db =>
    match m db with
    | (Returned a, db') => k a db'
    | (Thrown, db') => (Thrown, db')
    end.

Definition throw {A} : Store A := fun db => (Thrown, db).

(** [try { body } catch (error) { return onError }]: what the body wrote
    before it raised stays written (the tools open no transaction). *)
Definition try_catch {A} (body : Store A) (onError : A) : Store A :=
  fun db =>
    match body db with
    | (Returned a, db') => (Returned a, db')
    | (Thrown, db') => (Returned onError, db')
    end.

Definition get {A} (f : DB -> A) : Store A := fun db => (Returned (f db), db).

Definition modify (f : DB -> DB) : Store unit := fun db => (Returned tt, f db).

Declare Scope store_scope.
Delimit Scope store_scope with store.
Notation "x <- m ;; k" := (bind m (fun x => k))
  (at level 100, m at next level, right associativity) : store_scope.
Notation "m ;;; k" := (bind m (fun _ => k))
  (at level 100, right associativity) : store_scope.
Open Scope store_scope.

(** [update t set f where p]. *)
Definition update_where {R} (p : R -> Prop) `{forall r, Decision (p r)}
    (f : R -> R) (rows : list R) : list R :=
  map (fun r => if decide (p r) then f r else r) rows.

(** [a left join b on ...]: every row of [a] with each row of [b] that
    matches it, or with null when none does. *)
Definition left_join {R S} (a : list R) (matching : R -> list S)
  : list (R * option S) :=
  a ≫= (fun r =>
    match matching r with
    | [] => [(r, None)]
    | ms => (fun s => (r, Some s)) <$> ms
    end).

Definition set_tbl_drivers (f : list drivers.row -> list drivers.row) (db : DB) : DB :=
  mkDB (tbl_passengers db) (f (tbl_drivers db)) (tbl_driverDocuments db)
       (tbl_orders db) (tbl_driverOffers db) (tbl_priceNegotiations db)
       (tbl_ratings db) (sequences db).

Definition set_tbl_passengers (f : list passengers.row -> list passengers.row) (db : DB) : DB :=
  mkDB (f (tbl_passengers db)) (tbl_drivers db) (tbl_driverDocuments db)
       (tbl_orders db) (tbl_driverOffers db) (tbl_priceNegotiations db)
       (tbl_ratings db) (sequences db).

Definition set_tbl_driverDocuments
    (f : list driverDocuments.row -> list driverDocuments.row) (db : DB) : DB :=
  mkDB (tbl_passengers db) (tbl_drivers db) (f (tbl_driverDocuments db))
       (tbl_orders db) (tbl_driverOffers db) (tbl_priceNegotiations db)
       (tbl_ratings db) (sequences db).

Definition set_tbl_orders (f : list orders.row -> list orders.row) (db : DB) : DB :=
  mkDB (tbl_passengers db) (tbl_drivers db) (tbl_driverDocuments db)
       (f (tbl_orders db)) (tbl_driverOffers db) (tbl_priceNegotiations db)
       (tbl_ratings db) (sequences db).

Definition set_tbl_driverOffers
    (f : list driverOffers.row -> list driverOffers.row) (db : DB) : DB :=
  mkDB (tbl_passengers db) (tbl_drivers db) (tbl_driverDocuments db)
       (tbl_orders db) (f (tbl_driverOffers db)) (tbl_priceNegotiations db)
       (tbl_ratings db) (sequences db).

Definition set_tbl_priceNegotiations
    (f : list priceNegotiations.row -> list priceNegotiations.row) (db : DB) : DB :=
  mkDB (tbl_passengers db) (tbl_drivers db) (tbl_driverDocuments db)
       (tbl_orders db) (tbl_driverOffers db) (f (tbl_priceNegotiations db))
       (tbl_ratings db) (sequences db).

Definition set_tbl_ratings (f : list ratings.row -> list ratings.row) (db : DB) : DB :=
  mkDB (tbl_passengers db) (tbl_drivers db) (tbl_driverDocuments db)
       (tbl_orders db) (tbl_driverOffers db) (tbl_priceNegotiations db)
       (f (tbl_ratings db)) (sequences db).

Definition set_sequences (f : Sequences -> Sequences) (db : DB) : DB :=
  mkDB (tbl_passengers db) (tbl_drivers db) (tbl_driverDocuments db)
       (tbl_orders db) (tbl_driverOffers db) (tbl_priceNegotiations db)
       (tbl_ratings db) (f (sequences db)).

(** Advancing one sequence. *)
Definition next_driverDocuments (s : Sequences) : Sequences :=
  mkSequences (seq_passengers s) (seq_drivers s) (seq_driverDocuments s + 1)
              (seq_orders s) (seq_driverOffers s) (seq_priceNegotiations s)
              (seq_ratings s).

Definition next_driverOffers (s : Sequences) : Sequences :=
  mkSequences (seq_passengers s) (seq_drivers s) (seq_driverDocuments s)
              (seq_orders s) (seq_driverOffers s + 1) (seq_priceNegotiations s)
              (seq_ratings s).

Definition next_priceNegotiations (s : Sequences) : Sequences :=
  mkSequences (seq_passengers s) (seq_drivers s) (seq_driverDocuments s)
              (seq_orders s) (seq_driverOffers s) (seq_priceNegotiations s + 1)
              (seq_ratings s).

Definition next_ratings (s : Sequences) : Sequences :=
  mkSequences (seq_passengers s) (seq_drivers s) (seq_driverDocuments s)
              (seq_orders s) (seq_driverOffers s) (seq_priceNegotiations s)
              (seq_ratings s + 1).

(** [insert into t values (...) returning *]: the row is built from the
    serial id the sequence hands out.  The store refuses a parameter that
    does not fit its column when the statement is bound, before the
    sequence is touched. *)
Definition insert_driverDocuments (mkrow : Z -> driverDocuments.row)
  : Store (list driverDocuments.row) :=
  fun db =>
    let r := mkrow (seq_driverDocuments (sequences db)) in
    (Returned [r],
     set_sequences next_driverDocuments
       (set_tbl_driverDocuments (fun rows => rows ++ [r]) db)).

Definition insert_driverOffers (orderId offeredPrice : Z)
    (mkrow : Z -> driverOffers.row) : Store (list driverOffers.row) :=
  if decide (parameters_fit [orderId] offeredPrice) then
    fun db =>
      let r := mkrow (seq_driverOffers (sequences db)) in
      (Returned [r],
       set_sequences next_driverOffers
         (set_tbl_driverOffers (fun rows => rows ++ [r]) db))
  else throw.

Definition insert_priceNegotiations (integers : list Z) (proposedPrice : Z)
    (mkrow : Z -> priceNegotiations.row) : Store (list priceNegotiations.row) :=
  if decide (parameters_fit integers proposedPrice) then
    fun db =>
      let r := mkrow (seq_priceNegotiations (sequences db)) in
      (Returned [r],
       set_sequences next_priceNegotiations
         (set_tbl_priceNegotiations (fun rows => rows ++ [r]) db))
  else throw.

(** [ratings.toUserId] is [notNull()]: the store refuses a null there and
    the insert raises.  The constraint is checked on the row that was built,
    so the serial id it was given is spent. *)
Definition insert_ratings (toUserId : option Z) (mkrow : Z -> Z -> ratings.row)
  : Store (list ratings.row) :=
  match toUserId with
  | None => fun db => (Thrown, set_sequences next_ratings db)
  | Some to =>
      fun db =>
        let r := mkrow (seq_ratings (sequences db)) to in
        (Returned [r],
         set_sequences next_ratings (set_tbl_ratings (fun rows => rows ++ [r]) db))
  end.

(** ** JavaScript helpers *)

(** [s || d] on a possibly missing string: null, undefined and the empty
    string are falsy. *)
Definition or_default (s : option string) (d : string) : string :=
  match s with
  | None | Some EmptyString => d
  | Some v => v
  end.

(** [s || null]. *)
Definition or_null (s : option string) : option string :=
  match s with
  | None | Some EmptyString => None
  | Some v => Some v
  end.

(** Truthiness of an optional number: undefined and 0 are falsy. *)
Definition truthy_number (n : option Z) : option Z :=
  match n with
  | None | Some 0 => None
  | Some v => Some v
  end.

(** [Number.prototype.toString] on an integer. *)
Definition toString (n : Z) : string := pretty n.

(** ** Tool results *)

Record Result := mkResult {
  success : bool;
  message : string;
}.

(** A tool's [execute]: the body inside [try], the generic failure object
    of its [catch]. *)
Definition execute {A} (body : Store A) (onError : A) (db : DB) : A * DB :=
  match body db with
  | (Returned a, db') => (a, db')
  | (Thrown, db') => (onError, db')
  end.

Definition fail (msg : string) : Store Result := ret (mkResult false msg).
Definition succeed (msg : string) : Store Result := ret (mkResult true msg).

(** ** passengerTools: acceptOffer, makeCounterOffer *)

Module acceptOffer.
Record DriverInfo := mkDriverInfo {
  name : string;
  phone : string;
  rating : string;
  car : string;
}.
Record output := mk {
  success : bool;
  message : string;
  driverInfo : option DriverInfo;
}.
End acceptOffer.

Definition msg_offer_not_found : string := "Предложение не найдено.".
Definition msg_offer_accepted : string :=
  "Предложение принято! Водитель получил уведомление и скоро с вами свяжется.".
Definition msg_accept_error : string := "Произошла ошибка при принятии предложения.".

(** The order row after [set({status, acceptedDriverId, finalPrice})]. *)
Definition order_accept (offerData : driverOffers.row) (r : orders.row) : orders.row :=
  orders.mk (orders.id r) (orders.passengerId r) (orders.fromAddress r)
    (orders.toAddress r) (orders.suggestedPrice r)
    (Some (driverOffers.offeredPrice offerData))
    "accepted"
    (Some (driverOffers.driverId offerData))
    (orders.createdAt r) (orders.updatedAt r).

(** The offer row after [set({ status })]. *)
Definition offer_set_status (st : string) (r : driverOffers.row) : driverOffers.row :=
  driverOffers.mk (driverOffers.id r) (driverOffers.orderId r)
    (driverOffers.driverId r) (driverOffers.offeredPrice r) st
    (driverOffers.message r) (driverOffers.createdAt r) (driverOffers.updatedAt r).

Definition carInfo (driverData : option drivers.row) : string :=
  match or_null (driverData ≫= drivers.carModel) with
  | Some model =>
      model +:+ " (" +:+
      or_default (driverData ≫= drivers.carColor) "неизвестный цвет" +:+ ")"
  | None => "Информация об автомобиле недоступна"
  end.

Definition acceptOfferTool (offerId orderId : Z)
  : DB -> acceptOffer.output * DB :=
  execute
    (offer <- get (fun db =>
        filter (fun jr => driverOffers.id jr.1 = offerId)
          (left_join (tbl_driverOffers db) (fun o =>
             filter (fun d => driverOffers.driverId o = drivers.id d)
                    (tbl_drivers db))));;
     match offer with
     | [] => ret (acceptOffer.mk false msg_offer_not_found None)
     | (offerData, driverData) :: _ =>
         modify (set_tbl_orders
           (update_where (fun r => orders.id r = orderId) (order_accept offerData)));;;
         modify (set_tbl_driverOffers
           (update_where (fun r => driverOffers.id r = offerId)
              (offer_set_status "accepted")));;;
         ret (acceptOffer.mk true msg_offer_accepted
                (Some (acceptOffer.mkDriverInfo
                   (or_default (drivers.firstName <$> driverData) "Неизвестный")
                   (or_default (drivers.phoneNumber <$> driverData) "Не указан")
                   (or_default (drivers.rating <$> driverData) "5.00")
                   (carInfo driverData))))
     end)
    (acceptOffer.mk false msg_accept_error None).

Definition msg_passenger_not_found : string := "Пассажир не найден.".
Definition msg_counter_offer_error : string :=
  "Произошла ошибка при создании встречного предложения.".

Definition makeCounterOfferTool (now : Z) (orderId : Z) (telegramId : string)
    (driverId counterPrice : Z) : DB -> Result * DB :=
  execute
    (passenger <- get (fun db =>
        filter (fun p => passengers.telegramId p = telegramId) (tbl_passengers db));;
     match passenger with
     | [] => fail msg_passenger_not_found
     | p :: _ =>
         insert_priceNegotiations [orderId; driverId] counterPrice (fun id =>
           priceNegotiations.mk id orderId (passengers.id p) "passenger"
             driverId "driver" (toString counterPrice) "pending" now);;;
         succeed ("Встречное предложение " +:+ toString counterPrice +:+
                  " руб. отправлено водителю. Ожидайте ответ.")
     end)
    (mkResult false msg_counter_offer_error).

(** ** driverTools: makeOffer, respondToCounterOffer *)

Definition msg_driver_not_found : string := "Водитель не найден.".
Definition msg_not_verified : string :=
  "Для создания предложений необходимо пройти верификацию.".
Definition msg_duplicate_offer : string :=
  "Вы уже сделали предложение по этому заказу.".
Definition msg_make_offer_error : string :=
  "Произошла ошибка при создании предложения.".

Definition makeOfferTool (now : Z) (telegramId : string) (orderId offeredPrice : Z)
    (message : option string) : DB -> Result * DB :=
  execute
    (driver <- get (fun db =>
        filter (fun d => drivers.telegramId d = telegramId) (tbl_drivers db));;
     match driver with
     | [] => fail msg_driver_not_found
     | d :: _ =>
         if negb (drivers.isVerified d) then fail msg_not_verified
         else
           existingOffer <- get (fun db =>
             filter (fun o => driverOffers.orderId o = orderId
                              /\ driverOffers.driverId o = drivers.id d)
                    (tbl_driverOffers db));;
           match existingOffer with
           | _ :: _ => fail msg_duplicate_offer
           | [] =>
               insert_driverOffers orderId offeredPrice (fun id =>
                 driverOffers.mk id orderId (drivers.id d) (toString offeredPrice)
                   "pending" (or_null message) now now);;;
               succeed ("Предложение отправлено! Цена: " +:+ toString offeredPrice +:+
                        " руб. Ожидайте ответ от пассажира.")
           end
     end)
    (mkResult false msg_make_offer_error).

Definition msg_negotiation_not_found : string := "Переговоры не найдены.".
Definition msg_counter_accepted : string :=
  "Встречное предложение принято! Заказ подтвержден.".
Definition msg_counter_rejected : string := "Встречное предложение отклонено.".
Definition msg_respond_error : string := "Произошла ошибка при обработке ответа.".

(** The negotiation row after [set({ status })]. *)
Definition negotiation_set_status (st : string) (r : priceNegotiations.row)
  : priceNegotiations.row :=
  priceNegotiations.mk (priceNegotiations.id r) (priceNegotiations.orderId r)
    (priceNegotiations.fromUserId r) (priceNegotiations.fromUserType r)
    (priceNegotiations.toUserId r) (priceNegotiations.toUserType r)
    (priceNegotiations.proposedPrice r) st (priceNegotiations.createdAt r).

Definition respondToCounterOfferTool (now : Z) (telegramId : string)
    (negotiationId : Z) (accept : bool) (counterPrice : option Z)
  : DB -> Result * DB :=
  execute
    (driver <- get (fun db =>
        filter (fun d => drivers.telegramId d = telegramId) (tbl_drivers db));;
     match driver with
     | [] => fail msg_driver_not_found
     | d :: _ =>
         if accept then
           modify (set_tbl_priceNegotiations
             (update_where (fun n => priceNegotiations.id n = negotiationId)
                (negotiation_set_status "accepted")));;;
           succeed msg_counter_accepted
         else
           match truthy_number counterPrice with
           | Some price =>
               negotiation <- get (fun db =>
                 filter (fun n => priceNegotiations.id n = negotiationId)
                        (tbl_priceNegotiations db));;
               match negotiation with
               | [] => fail msg_negotiation_not_found
               | n :: _ =>
                   insert_priceNegotiations [] price (fun id =>
                     priceNegotiations.mk id (priceNegotiations.orderId n)
                       (drivers.id d) "driver"
                       (priceNegotiations.fromUserId n) "passenger"
                       (toString price) "pending" now);;;
                   succeed ("Новое встречное предложение " +:+ toString price +:+
                            " руб. отправлено пассажиру.")
               end
           | None =>
               modify (set_tbl_priceNegotiations
                 (update_where (fun n => priceNegotiations.id n = negotiationId)
                    (negotiation_set_status "rejected")));;;
               succeed msg_counter_rejected
           end
     end)
    (mkResult false msg_respond_error).

(** ** verificationTools: uploadDocument, processDocumentVerification *)

(** [z.enum(["license", "vehicle_registration", "insurance"])]. *)
Inductive DocumentType := license | vehicle_registration | insurance.

Definition documentType_text (t : DocumentType) : string :=
  match t with
  | license => "license"
  | vehicle_registration => "vehicle_registration"
  | insurance => "insurance"
  end.

Definition getDocumentTypeMessage (type : string) : string :=
  if decide (type = "license") then "Водительское удостоверение"
  else if decide (type = "vehicle_registration") then "Документ на автомобиль"
  else if decide (type = "insurance") then "Страховка"
  else "Документ".

Definition msg_driver_not_registered : string :=
  "Водитель не найден. Сначала пройдите регистрацию.".
Definition msg_upload_error : string := "Произошла ошибка при загрузке документа.".

Module uploadDocument.
Record output := mk {
  success : bool;
  message : string;
  documentId : option Z;
}.
End uploadDocument.

(** The document row after the re-submission [set({documentData, status:
    "pending", rejectionReason: null, updatedAt})]. *)
Definition document_resubmit (now : Z) (documentData : DocumentData)
    (r : driverDocuments.row) : driverDocuments.row :=
  driverDocuments.mk (driverDocuments.id r) (driverDocuments.driverId r)
    (driverDocuments.documentType r) (Some documentData) "pending" None
    (driverDocuments.createdAt r) now.

Definition uploadDocumentTool (now : Z) (telegramId : string)
    (documentType : DocumentType) (documentData : DocumentData)
  : DB -> uploadDocument.output * DB :=
  execute
    (driver <- get (fun db =>
        filter (fun d => drivers.telegramId d = telegramId) (tbl_drivers db));;
     match driver with
     | [] => ret (uploadDocument.mk false msg_driver_not_registered None)
     | d :: _ =>
         existingDoc <- get (fun db =>
           filter (fun doc => driverDocuments.driverId doc = drivers.id d
                              /\ driverDocuments.documentType doc
                                 = documentType_text documentType)
                  (tbl_driverDocuments db));;
         match existingDoc with
         | doc :: _ =>
             modify (set_tbl_driverDocuments
               (update_where
                  (fun r => driverDocuments.id r = driverDocuments.id doc)
                  (document_resubmit now documentData)));;;
             ret (uploadDocument.mk true
                    (getDocumentTypeMessage (documentType_text documentType) +:+
                     " обновлен и отправлен на проверку.")
                    (Some (driverDocuments.id doc)))
         | [] =>
             newDoc <- insert_driverDocuments (fun id =>
               driverDocuments.mk id (drivers.id d)
                 (documentType_text documentType) (Some documentData)
                 "pending" None now now);;
             ret (uploadDocument.mk true
                    (getDocumentTypeMessage (documentType_text documentType) +:+
                     " загружен и отправлен на проверку. Результат будет известен в течение 24 часов.")
                    (driverDocuments.id <$> head newDoc))
         end
     end)
    (uploadDocument.mk false msg_upload_error None).

Definition requiredDocs : list string := ["license"; "vehicle_registration"].

(** [requiredDocs.every(type => approvedDocs.some(doc => doc.documentType
    === type))] over the documents with status approved. *)
Definition hasAllRequiredApproved (documents : list driverDocuments.row) : bool :=
  let approvedDocs :=
    filter (fun doc => driverDocuments.status doc = "approved") documents in
  forallb (fun type =>
      existsb (fun doc => bool_decide (driverDocuments.documentType doc = type))
              approvedDocs)
    requiredDocs.

(** The driver row after [set({isVerified, licenseStatus, vehicleStatus})]. *)
Definition driver_set_verification (ok : bool) (r : drivers.row) : drivers.row :=
  drivers.mk (drivers.id r) (drivers.telegramId r) (drivers.firstName r)
    (drivers.phoneNumber r) (drivers.rating r) (drivers.totalRides r)
    (drivers.isOnline r) ok (drivers.carModel r) (drivers.carColor r)
    (drivers.carNumber r)
    (if ok then "approved" else "pending") (if ok then "approved" else "pending")
    (drivers.createdAt r) (drivers.updatedAt r).

Definition checkAndUpdateDriverVerification (driverId : Z) : Store unit :=
  try_catch
    (documents <- get (fun db =>
        filter (fun doc => driverDocuments.driverId doc = driverId)
               (tbl_driverDocuments db));;
     modify (set_tbl_drivers
       (update_where (fun d => drivers.id d = driverId)
          (driver_set_verification (hasAllRequiredApproved documents)))))
    tt.

(** The document row after the adjudication [set({status, rejectionReason,
    updatedAt})]. *)
Definition document_adjudicate (now : Z) (approve : bool)
    (rejectionReason : option string) (r : driverDocuments.row)
  : driverDocuments.row :=
  driverDocuments.mk (driverDocuments.id r) (driverDocuments.driverId r)
    (driverDocuments.documentType r) (driverDocuments.documentData r)
    (if approve then "approved" else "rejected")
    (if approve then None else or_null rejectionReason)
    (driverDocuments.createdAt r) now.

Definition msg_verification_error : string :=
  "Произошла ошибка при обработке верификации.".

Definition processDocumentVerificationTool (now : Z) (documentId : Z)
    (approve : bool) (rejectionReason : option string) : DB -> Result * DB :=
  execute
    (modify (set_tbl_driverDocuments
       (update_where (fun r => driverDocuments.id r = documentId)
          (document_adjudicate now approve rejectionReason)));;;
     document <- get (fun db =>
       filter (fun r => driverDocuments.id r = documentId)
              (tbl_driverDocuments db));;
     match document with
     | doc :: _ => checkAndUpdateDriverVerification (driverDocuments.driverId doc)
     | [] => ret tt
     end;;;
     succeed ("Документ " +:+ (if approve then "одобрен" else "отклонен") +:+ "."))
    (mkResult false msg_verification_error).

(** ** JavaScript numbers for the average rating *)

(** IEEE binary64, as the Standard Library specifies it on integers. *)
Definition number_of_int (z : Z) : spec_float := binary_normalize 53 1024 z 0 false.
Definition number_add : spec_float -> spec_float -> spec_float := SFadd 53 1024.
Definition number_div : spec_float -> spec_float -> spec_float := SFdiv 53 1024.

(** The integer nearest to [m * 2^e * 100], the larger one on a tie
    (step "let n be an integer for which n / 10^f - x is as close to zero
    as possible; if there are two such n, pick the larger n"). *)
Definition nearest_hundredths (m : positive) (e : Z) : Z :=
  if 0 <=? e then Z.pos m * 2 ^ e * 100
  else (200 * Z.pos m + 2 ^ (- e)) / 2 ^ (- e + 1).

Definition two_digits (n : Z) : string :=
  if n <? 10 then "0" +:+ pretty n else pretty n.

(** The digits of [n] with a point before the last two. *)
Definition fixed2 (n : Z) : string :=
  pretty (n / 100) +:+ "." +:+ two_digits (n mod 100).

(** [Number.prototype.toFixed(2)].  From 10^21 on JavaScript switches to
    exponent notation, which is not modelled: an average of [integer]
    ratings never gets there. *)
Definition toFixed2 (x : spec_float) : string :=
  match x with
  | S754_nan => "NaN"
  | S754_infinity false => "Infinity"
  | S754_infinity true => "-Infinity"
  | S754_zero _ => "0.00"
  | S754_finite s m e =>
      (if s then "-" else EmptyString) +:+ fixed2 (nearest_hundredths m e)
  end.

(** [userRatings.reduce((sum, r) => sum + r.rating, 0) / userRatings.length]. *)
Definition avgRating (scores : list Z) : spec_float :=
  number_div
    (fold_left (fun sum r => number_add sum (number_of_int r)) scores
               (number_of_int 0))
    (number_of_int (Z.of_nat (length scores))).

(** The binary64 number of a positive integer below 2^53: its digits,
    shifted to 53 bits. *)
Definition canonical (v : Z) : spec_float :=
  S754_finite false (Z.to_pos (v * 2 ^ (53 - Zdigits2 v))) (Zdigits2 v - 53).

(** ** ratingTools: rateRide, getUserRating, updateUserRating *)

(** [z.enum(["passenger", "driver"])]. *)
Inductive UserType := passenger | driver.

(** [rating: z.number().min(1).max(5)] in the input schema of [rateRide]:
    a call with another score is refused before [execute] runs. *)
Definition rating_in_schema (rating : Z) : Prop := 1 <= rating <= 5.

Definition userType_text (t : UserType) : string :=
  match t with
  | passenger => "passenger"
  | driver => "driver"
  end.

Definition counterpart (t : UserType) : UserType :=
  match t with
  | passenger => driver
  | driver => passenger
  end.

(** The profile rows after [set({ rating, totalRides })]. *)
Definition driver_set_rating (rating : string) (totalRides : Z) (r : drivers.row)
  : drivers.row :=
  drivers.mk (drivers.id r) (drivers.telegramId r) (drivers.firstName r)
    (drivers.phoneNumber r) rating totalRides
    (drivers.isOnline r) (drivers.isVerified r) (drivers.carModel r)
    (drivers.carColor r) (drivers.carNumber r)
    (drivers.licenseStatus r) (drivers.vehicleStatus r)
    (drivers.createdAt r) (drivers.updatedAt r).

Definition passenger_set_rating (rating : string) (totalRides : Z)
    (r : passengers.row) : passengers.row :=
  passengers.mk (passengers.id r) (passengers.telegramId r)
    (passengers.firstName r) (passengers.phoneNumber r) rating totalRides
    (passengers.createdAt r) (passengers.updatedAt r).

Definition updateUserRating (userId : Z) (userType : string) : Store unit :=
  try_catch
    (userRatings <- get (fun db =>
        ratings.rating <$>
          filter (fun r => ratings.toUserId r = userId
                           /\ ratings.toUserType r = userType)
                 (tbl_ratings db));;
     match userRatings with
     | [] => ret tt
     | _ :: _ =>
         let avg := avgRating userRatings in
         let totalRides := Z.of_nat (length userRatings) in
         if decide (userType = "driver") then
           modify (set_tbl_drivers
             (update_where (fun d => drivers.id d = userId)
                (driver_set_rating (toFixed2 avg) totalRides)))
         else
           modify (set_tbl_passengers
             (update_where (fun p => passengers.id p = userId)
                (passenger_set_rating (toFixed2 avg) totalRides)))
     end)
    tt.

Definition msg_order_not_found : string := "Заказ не найден.".
Definition msg_not_order_passenger : string :=
  "Вы не являетесь пассажиром этого заказа.".
Definition msg_not_order_driver : string :=
  "Вы не являетесь водителем этого заказа.".
Definition msg_already_rated : string := "Вы уже оценили эту поездку.".
Definition msg_rate_error : string := "Произошла ошибка при создании оценки.".

(** The first half of [rateRide]: who rates whom, or the early return.
    [toUserId] is null when a passenger rates an order that has no accepted
    driver ([orderData.acceptedDriverId!] only silences the type checker). *)
Definition rateRide_parties (telegramId : string) (userType : UserType)
    (orderData : orders.row) : Store (Result + Z * option Z) :=
  match userType with
  | passenger =>
      found <- get (fun db =>
        filter (fun p => passengers.telegramId p = telegramId)
               (tbl_passengers db));;
      match found with
      | [] => ret (inl (mkResult false msg_not_order_passenger))
      | p :: _ =>
          if decide (passengers.id p <> orders.passengerId orderData)
          then ret (inl (mkResult false msg_not_order_passenger))
          else ret (inr (passengers.id p, orders.acceptedDriverId orderData))
      end
  | driver =>
      found <- get (fun db =>
        filter (fun d => drivers.telegramId d = telegramId) (tbl_drivers db));;
      match found with
      | [] => ret (inl (mkResult false msg_not_order_driver))
      | d :: _ =>
          if decide (Some (drivers.id d) <> orders.acceptedDriverId orderData)
          then ret (inl (mkResult false msg_not_order_driver))
          else ret (inr (drivers.id d, Some (orders.passengerId orderData)))
      end
  end.

Definition rateRideTool (now : Z) (telegramId : string) (orderId : Z)
    (userType : UserType) (rating : Z) (comment : option string)
  : DB -> Result * DB :=
  execute
    (order <- get (fun db =>
        filter (fun o => orders.id o = orderId) (tbl_orders db));;
     match order with
     | [] => fail msg_order_not_found
     | orderData :: _ =>
         parties <- rateRide_parties telegramId userType orderData;;
         match parties with
         | inl early => ret early
         | inr (fromUserId, toUserId) =>
             existingRating <- get (fun db =>
               filter (fun r => ratings.orderId r = orderId
                                /\ ratings.fromUserId r = fromUserId)
                      (tbl_ratings db));;
             match existingRating with
             | _ :: _ => fail msg_already_rated
             | [] =>
                 inserted <- insert_ratings toUserId (fun id to =>
                   ratings.mk id orderId fromUserId (userType_text userType)
                     to (userType_text (counterpart userType))
                     rating (or_null comment) now);;
                 match inserted with
                 | r :: _ =>
                     updateUserRating (ratings.toUserId r)
                       (userType_text (counterpart userType))
                 | [] => ret tt
                 end;;;
                 succeed ("Спасибо за оценку! Вы поставили " +:+ toString rating +:+
                          " звезд.")
             end
         end
     end)
    (mkResult false msg_rate_error).

Module getUserRating.
Record output := mk {
  success : bool;
  rating : option string;
  totalRatings : option Z;
  recentComments : option (list string);
  message : string;
}.
End getUserRating.

Definition msg_no_ratings : string := "Пока нет оценок.".
Definition msg_get_rating_error : string := "Произошла ошибка при получении рейтинга.".

(** [orderBy(ratings.createdAt)]: ascending, rows with equal timestamps in
    table order. *)
Fixpoint insert_by_createdAt (r : ratings.row) (l : list ratings.row)
  : list ratings.row :=
  match l with
  | [] => [r]
  | x :: l' =>
      if ratings.createdAt r <? ratings.createdAt x then r :: x :: l'
      else x :: insert_by_createdAt r l'
  end.

Definition orderBy_createdAt (l : list ratings.row) : list ratings.row :=
  fold_left (fun acc r => insert_by_createdAt r acc) l [].

(** [.filter(r => r.comment).slice(-5).map(r => r.comment!).reverse()]. *)
Definition recentComments (userRatings : list ratings.row) : list string :=
  let commented := omap (fun r => or_null (ratings.comment r)) userRatings in
  reverse (drop (length commented - 5)%nat commented).

Definition getUserRatingTool (userId : Z) (userType : UserType)
  : DB -> getUserRating.output * DB :=
  execute
    (userRatings <- get (fun db =>
        orderBy_createdAt
          (filter (fun r => ratings.toUserId r = userId
                            /\ ratings.toUserType r = userType_text userType)
                  (tbl_ratings db)));;
     match userRatings with
     | [] =>
         ret (getUserRating.mk true (Some "5.00") (Some 0) (Some []) msg_no_ratings)
     | _ :: _ =>
         let avg := avgRating (ratings.rating <$> userRatings) in
         let count := Z.of_nat (length userRatings) in
         ret (getUserRating.mk true (Some (toFixed2 avg)) (Some count)
                (Some (recentComments userRatings))
                ("Рейтинг: " +:+ toFixed2 avg +:+ " (" +:+ toString count +:+
                 " оценок)"))
     end)
    (getUserRating.mk false None None None msg_get_rating_error).

(** ** The remaining store operations *)

Definition next_passengers (s : Sequences) : Sequences :=
  mkSequences (seq_passengers s + 1) (seq_drivers s) (seq_driverDocuments s)
              (seq_orders s) (seq_driverOffers s) (seq_priceNegotiations s)
              (seq_ratings s).

Definition next_drivers (s : Sequences) : Sequences :=
  mkSequences (seq_passengers s) (seq_drivers s + 1) (seq_driverDocuments s)
              (seq_orders s) (seq_driverOffers s) (seq_priceNegotiations s)
              (seq_ratings s).

Definition next_orders (s : Sequences) : Sequences :=
  mkSequences (seq_passengers s) (seq_drivers s) (seq_driverDocuments s)
              (seq_orders s + 1) (seq_driverOffers s) (seq_priceNegotiations s)
              (seq_ratings s).

(** [telegramId] is [unique()] in both profile tables; the two tools that
    insert there do so only after finding no row with the handle, so the
    constraint never fires and is not modelled. *)
Definition insert_passengers (mkrow : Z -> passengers.row)
  : Store (list passengers.row) :=
  fun db =>
    let r := mkrow (seq_passengers (sequences db)) in
    (Returned [r],
     set_sequences next_passengers (set_tbl_passengers (fun rows => rows ++ [r]) db)).

Definition insert_drivers (mkrow : Z -> drivers.row) : Store (list drivers.row) :=
  fun db =>
    let r := mkrow (seq_drivers (sequences db)) in
    (Returned [r],
     set_sequences next_drivers (set_tbl_drivers (fun rows => rows ++ [r]) db)).

Definition insert_orders (suggestedPrice : Z) (mkrow : Z -> orders.row)
  : Store (list orders.row) :=
  if decide (parameters_fit [] suggestedPrice) then
    fun db =>
      let r := mkrow (seq_orders (sequences db)) in
      (Returned [r],
       set_sequences next_orders (set_tbl_orders (fun rows => rows ++ [r]) db))
  else throw.

(** [orderBy(desc(key))]: descending, rows with equal keys in table order. *)
Fixpoint insert_desc {R} (key : R -> Z) (r : R) (l : list R) : list R :=
  match l with
  | [] => [r]
  | x :: l' =>
      if key x <? key r then r :: x :: l'
      else x :: insert_desc key r l'
  end.

Definition orderBy_desc {R} (key : R -> Z) (l : list R) : list R :=
  fold_left (fun acc r => insert_desc key r acc) l [].

(** ** passengerTools: registerPassenger, createOrder, getOrderOffers *)

Module registerPassenger.
Record output := mk {
  success : bool;
  passengerId : option Z;
  message : string;
}.
End registerPassenger.

Definition msg_register_error : string :=
  "Произошла ошибка при регистрации. Пожалуйста, попробуйте еще раз.".

Definition registerPassengerTool (now : Z) (telegramId firstName phoneNumber : string)
  : DB -> registerPassenger.output * DB :=
  execute
    (existingPassenger <- get (fun db =>
        filter (fun p => passengers.telegramId p = telegramId) (tbl_passengers db));;
     match existingPassenger with
     | p :: _ =>
         ret (registerPassenger.mk true (Some (passengers.id p))
                ("Добро пожаловать обратно, " +:+ firstName +:+
                 "! Вы уже зарегистрированы в системе."))
     | [] =>
         newPassenger <- insert_passengers (fun id =>
           passengers.mk id telegramId firstName phoneNumber "5.00" 0 now now);;
         ret (registerPassenger.mk true (passengers.id <$> head newPassenger)
                ("Добро пожаловать в нашу систему такси, " +:+ firstName +:+
                 "! Вы можете начать заказывать поездки."))
     end)
    (registerPassenger.mk false None msg_register_error).

Module createOrder.
Record output := mk {
  success : bool;
  orderId : option Z;
  message : string;
}.
End createOrder.

Definition msg_passenger_not_registered : string :=
  "Пассажир не найден. Сначала пройдите регистрацию.".
Definition msg_create_order_error : string :=
  "Произошла ошибка при создании заказа. Пожалуйста, попробуйте еще раз.".

Definition createOrderTool (now : Z) (telegramId fromAddress toAddress : string)
    (suggestedPrice : Z) : DB -> createOrder.output * DB :=
  execute
    (passenger <- get (fun db =>
        filter (fun p => passengers.telegramId p = telegramId) (tbl_passengers db));;
     match passenger with
     | [] => ret (createOrder.mk false None msg_passenger_not_registered)
     | p :: _ =>
         newOrder <- insert_orders suggestedPrice (fun id =>
           orders.mk id (passengers.id p) fromAddress toAddress
             (toString suggestedPrice) None "pending" None now now);;
         ret (createOrder.mk true (orders.id <$> head newOrder)
                ("Заказ создан! Маршрут: " +:+ fromAddress +:+ " → " +:+ toAddress +:+
                 ". Предлагаемая цена: " +:+ toString suggestedPrice +:+
                 " руб. Ожидаем предложения от водителей."))
     end)
    (createOrder.mk false None msg_create_order_error).

Module getOrderOffers.
Record offer := mkOffer {
  offerId : Z;
  driverName : string;
  rating : string;
  price : string;
  note : option string;
}.
Record output := mk {
  success : bool;
  offers : list offer;
  message : string;
}.
End getOrderOffers.

Definition msg_no_offers : string := "Пока нет предложений от водителей. Ожидайте...".
Definition msg_get_offers_error : string :=
  "Произошла ошибка при получении предложений.".

(** One formatted offer ([note] is the field the tool calls [message]). *)
Definition format_offer (jr : driverOffers.row * option drivers.row)
  : getOrderOffers.offer :=
  getOrderOffers.mkOffer (driverOffers.id jr.1)
    (or_default (drivers.firstName <$> jr.2) "Неизвестный водитель")
    (or_default (drivers.rating <$> jr.2) "5.00")
    (or_default (Some (driverOffers.offeredPrice jr.1)) "0")
    (or_null (driverOffers.message jr.1)).

Definition getOrderOffersTool (orderId : Z) : DB -> getOrderOffers.output * DB :=
  execute
    (offers <- get (fun db =>
        filter (fun jr => driverOffers.orderId jr.1 = orderId)
          (left_join (tbl_driverOffers db) (fun o =>
             filter (fun d => driverOffers.driverId o = drivers.id d)
                    (tbl_drivers db))));;
     ret (getOrderOffers.mk true (format_offer <$> offers)
            (match offers with
             | _ :: _ =>
                 "Получено " +:+ toString (Z.of_nat (length offers)) +:+
                 " предложений от водителей"
             | [] => msg_no_offers
             end)))
    (getOrderOffers.mk false [] msg_get_offers_error).

(** ** driverTools: registerDriver, getAvailableOrders, setDriverStatus *)

Module registerDriver.
Record output := mk {
  success : bool;
  driverId : option Z;
  message : string;
}.
End registerDriver.

Definition registerDriverTool (now : Z)
    (telegramId firstName phoneNumber carModel carColor carNumber : string)
  : DB -> registerDriver.output * DB :=
  execute
    (existingDriver <- get (fun db =>
        filter (fun d => drivers.telegramId d = telegramId) (tbl_drivers db));;
     match existingDriver with
     | d :: _ =>
         ret (registerDriver.mk true (Some (drivers.id d))
                ("Добро пожаловать обратно, " +:+ firstName +:+
                 "! Вы уже зарегистрированы как водитель."))
     | [] =>
         newDriver <- insert_drivers (fun id =>
           drivers.mk id telegramId firstName phoneNumber "5.00" 0 false false
             (Some carModel) (Some carColor) (Some carNumber)
             "pending" "pending" now now);;
         ret (registerDriver.mk true (drivers.id <$> head newDriver)
                ("Добро пожаловать в нашу систему, " +:+ firstName +:+
                 "! Для начала работы необходимо пройти верификацию документов. Пожалуйста, загрузите водительское удостоверение и документы на автомобиль."))
     end)
    (registerDriver.mk false None msg_register_error).

Module getAvailableOrders.
Record order := mkOrder {
  orderId : Z;
  fromAddress : string;
  toAddress : string;
  suggestedPrice : string;
  passengerName : string;
  passengerRating : string;
  createdAt : string;
}.
Record output := mk {
  success : bool;
  orders : list order;
  message : string;
}.
End getAvailableOrders.

Definition msg_need_verification : string :=
  "Для получения заказов необходимо пройти верификацию документов.".
Definition msg_offline : string :=
  "Вы находитесь в статусе 'офлайн'. Включите режим 'онлайн' для получения заказов.".
Definition msg_no_orders : string := "Пока нет доступных заказов. Проверьте позже.".
Definition msg_get_orders_error : string := "Произошла ошибка при получении заказов.".

(** [toISOString] stands for [Date.prototype.toISOString] on the instants of
    the model. *)
Definition format_order (toISOString : Z -> string) (now : Z)
    (jr : orders.row * option passengers.row) : getAvailableOrders.order :=
  getAvailableOrders.mkOrder (orders.id jr.1) (orders.fromAddress jr.1)
    (orders.toAddress jr.1)
    (or_default (Some (orders.suggestedPrice jr.1)) "0")
    (or_default (passengers.firstName <$> jr.2) "Неизвестный")
    (or_default (passengers.rating <$> jr.2) "5.00")
    (or_default (Some (toISOString (orders.createdAt jr.1))) (toISOString now)).

Definition getAvailableOrdersTool (toISOString : Z -> string) (now : Z)
    (telegramId : string) : DB -> getAvailableOrders.output * DB :=
  execute
    (driver <- get (fun db =>
        filter (fun d => drivers.telegramId d = telegramId) (tbl_drivers db));;
     match driver with
     | [] => ret (getAvailableOrders.mk false [] msg_driver_not_registered)
     | d :: _ =>
         if negb (drivers.isVerified d) then
           ret (getAvailableOrders.mk false [] msg_need_verification)
         else if negb (drivers.isOnline d) then
           ret (getAvailableOrders.mk false [] msg_offline)
         else
           availableOrders <- get (fun db =>
             orderBy_desc (fun jr => orders.createdAt jr.1)
               (filter (fun jr => orders.status jr.1 = "pending")
                  (left_join (tbl_orders db) (fun o =>
                     filter (fun p => orders.passengerId o = passengers.id p)
                            (tbl_passengers db)))));;
           ret (getAvailableOrders.mk true
                  (format_order toISOString now <$> availableOrders)
                  (match availableOrders with
                   | _ :: _ =>
                       "Найдено " +:+
                       toString (Z.of_nat (length availableOrders)) +:+
                       " доступных заказов"
                   | [] => msg_no_orders
                   end))
     end)
    (getAvailableOrders.mk false [] msg_get_orders_error).

Module setDriverStatus.
Record output := mk {
  success : bool;
  message : string;
  currentStatus : option string;
}.
End setDriverStatus.

Definition msg_set_status_error : string := "Произошла ошибка при изменении статуса.".

(** The driver row after [set({ isOnline })]. *)
Definition driver_set_online (isOnline : bool) (r : drivers.row) : drivers.row :=
  drivers.mk (drivers.id r) (drivers.telegramId r) (drivers.firstName r)
    (drivers.phoneNumber r) (drivers.rating r) (drivers.totalRides r)
    isOnline (drivers.isVerified r) (drivers.carModel r) (drivers.carColor r)
    (drivers.carNumber r) (drivers.licenseStatus r) (drivers.vehicleStatus r)
    (drivers.createdAt r) (drivers.updatedAt r).

Definition setDriverStatusTool (telegramId : string) (isOnline : bool)
  : DB -> setDriverStatus.output * DB :=
  execute
    (driver <- get (fun db =>
        filter (fun d => drivers.telegramId d = telegramId) (tbl_drivers db));;
     match driver with
     | [] => ret (setDriverStatus.mk false msg_driver_not_registered None)
     | _ :: _ =>
         modify (set_tbl_drivers
           (update_where (fun d => drivers.telegramId d = telegramId)
              (driver_set_online isOnline)));;;
         let statusText := if isOnline then "онлайн" else "офлайн" in
         ret (setDriverStatus.mk true
                ("Статус изменен на " +:+ String.String (Ascii.ascii_of_nat 34)
                   (statusText +:+ String.String (Ascii.ascii_of_nat 34)
                      (". " +:+
                       (if isOnline then "Теперь вы можете получать заказы."
                        else "Вы не будете получать новые заказы."))))
                (Some statusText))
     end)
    (setDriverStatus.mk false msg_set_status_error None).

(** ** verificationTools: checkVerificationStatus *)

Definition getStatusMessage (status : string) : string :=
  if decide (status = "pending") then "На рассмотрении"
  else if decide (status = "approved") then "Одобрен"
  else if decide (status = "rejected") then "Отклонен"
  else "Неизвестно".

Module checkVerificationStatus.
Record document := mkDocument {
  type : string;
  status : string;
  rejectionReason : option string;
}.
Record output := mk {
  success : bool;
  isVerified : option bool;
  documents : option (list document);
  message : string;
}.
End checkVerificationStatus.

Definition msg_check_status_error : string := "Произошла ошибка при проверке статуса.".

Definition document_status (doc : driverDocuments.row)
  : checkVerificationStatus.document :=
  checkVerificationStatus.mkDocument
    (getDocumentTypeMessage (driverDocuments.documentType doc))
    (getStatusMessage (driverDocuments.status doc))
    (or_null (driverDocuments.rejectionReason doc)).

(** One line of the status list; the separator the tool joins with is the
    two characters backslash and n, as its template literal spells them. *)
Definition document_line (doc : checkVerificationStatus.document) : string :=
  "• " +:+ checkVerificationStatus.type doc +:+ ": " +:+
  checkVerificationStatus.status doc +:+
  match checkVerificationStatus.rejectionReason doc with
  | Some reason => " (" +:+ reason +:+ ")"
  | None => EmptyString
  end.

Fixpoint join (sep : string) (l : list string) : string :=
  match l with
  | [] => EmptyString
  | [x] => x
  | x :: l' => x +:+ sep +:+ join sep l'
  end.

Definition checkVerificationStatusTool (telegramId : string)
  : DB -> checkVerificationStatus.output * DB :=
  execute
    (driver <- get (fun db =>
        filter (fun d => drivers.telegramId d = telegramId) (tbl_drivers db));;
     match driver with
     | [] => ret (checkVerificationStatus.mk false None None msg_driver_not_found)
     | d :: _ =>
         documents <- get (fun db =>
           filter (fun doc => driverDocuments.driverId doc = drivers.id d)
                  (tbl_driverDocuments db));;
         let documentStatuses := document_status <$> documents in
         let isVerified :=
           hasAllRequiredApproved documents && drivers.isVerified d in
         ret (checkVerificationStatus.mk true (Some isVerified)
                (Some documentStatuses)
                ("Статус верификации: " +:+
                 (if isVerified then "Подтвержден" else "Не подтвержден") +:+
                 "\n\n" +:+
                 match documentStatuses with
                 | [] =>
                     "Документы не загружены. Загрузите водительское удостоверение и документы на автомобиль."
                 | _ :: _ =>
                     "Статус документов:\n" +:+
                     join "\n" (document_line <$> documentStatuses)
                 end))
     end)
    (checkVerificationStatus.mk false None None msg_check_status_error).

(** ** taxiWorkflow: which agent answers *)

(** [s.includes(needle)]: [needle] occurs in [s] as a contiguous run. *)
Fixpoint includes (needle s : string) : bool :=
  String.prefix needle s
  || match s with
     | EmptyString => false
     | String _ s' => includes needle s'
     end.

(** The user type [useAgentStep] settles on before it calls the agent;
    [toLowerCase] stands for [String.prototype.toLowerCase].  The call of
    the agent itself is outside the store and is not modelled. *)
Definition useAgentStep_userType (toLowerCase : string -> string)
    (message telegramId : string) (db : DB) : string :=
  let passenger :=
    filter (fun p => passengers.telegramId p = telegramId) (tbl_passengers db) in
  let driver :=
    filter (fun d => drivers.telegramId d = telegramId) (tbl_drivers db) in
  match passenger, driver with
  | _ :: _, _ :: _ =>
      let lowerMessage := toLowerCase message in
      if includes "заказ" lowerMessage || includes "такси" lowerMessage
         || includes "ехать" lowerMessage || includes "поездк" lowerMessage
      then "passenger"
      else if includes "водит" lowerMessage || includes "работ" lowerMessage
              || includes "статус" lowerMessage || includes "онлайн" lowerMessage
      then "driver"
      else "passenger"
  | [], _ :: _ => "driver"
  | _ :: _, [] => "passenger"
  | [], [] =>
      let lowerMessage := toLowerCase message in
      if includes "водит" lowerMessage || includes "работат" lowerMessage
         || includes "зарабат" lowerMessage || includes "машин" lowerMessage
      then "driver"
      else "passenger"
  end.

(** [kw] occurs in [s]. *)
Definition mentions (kw s : string) : Prop :=
  exists before after, s = before +:+ kw +:+ after.

(** ** Example stores *)

Definition example_passenger (id : Z) (telegramId : string) : passengers.row :=
  passengers.mk id telegramId "Anna" "+70000000001" "5.00" 0 0 0.

Definition example_driver (id : Z) (telegramId : string) (verified : bool)
  : drivers.row :=
  drivers.mk id telegramId "Boris" "+70000000002" "5.00" 0 true verified
    (Some "Lada") (Some "white") (Some "A001AA")
    (if verified then "approved" else "pending")
    (if verified then "approved" else "pending") 0 0.

Definition example_order (id passengerId : Z) : orders.row :=
  orders.mk id passengerId "Lenina 1" "Mira 2" "500" None "pending" None 0 0.

Definition example_offer (id orderId driverId : Z) (price : string)
  : driverOffers.row :=
  driverOffers.mk id orderId driverId price "pending" None 0 0.

Definition example_payload : DocumentData :=
  mkDocumentData "77 00 123456" "GIBDD" "2020-01-01" (Some "2030-01-01") None.

Definition example_document (id driverId : Z) (type : DocumentType)
    (status : string) (reason : option string) : driverDocuments.row :=
  driverDocuments.mk id driverId (documentType_text type) (Some example_payload)
    status reason 0 0.

(** Passengers 1 and 2; passenger 1 placed orders 1 and 2.  The verified
    drivers 1 and 2 (licence and vehicle registration approved) offered 600
    and 550 on order 1; driver 3 is registered, not verified, and had the
    licence rejected. *)
Definition scenario_db : DB :=
  mkDB [example_passenger 1 "p1"; example_passenger 2 "p2"]
       [example_driver 1 "d1" true; example_driver 2 "d2" true;
        example_driver 3 "d3" false]
       [example_document 1 1 license "approved" None;
        example_document 2 1 vehicle_registration "approved" None;
        example_document 3 2 license "approved" None;
        example_document 4 2 vehicle_registration "approved" None;
        example_document 5 3 license "rejected" (Some "unreadable")]
       [example_order 1 1; example_order 2 1]
       [example_offer 1 1 1 "600"; example_offer 2 1 2 "550"]
       [] []
       (mkSequences 3 4 6 3 3 1 1).

Definition example_rating (id orderId fromUserId toUserId score : Z)
    (comment : option string) : ratings.row :=
  ratings.mk id orderId fromUserId "passenger" toUserId "driver" score comment 0.

(** [scenario_db] after driver 2's offer on order 1 was accepted; driver 2
    has received a 5 and a 4 for earlier rides. *)
Definition rated_db : DB :=
  mkDB (tbl_passengers scenario_db) (tbl_drivers scenario_db)
       (tbl_driverDocuments scenario_db)
       [order_accept (example_offer 2 1 2 "550") (example_order 1 1);
        example_order 2 1]
       [example_offer 1 1 1 "600";
        offer_set_status "accepted" (example_offer 2 1 2 "550")]
       []
       [example_rating 1 10 7 2 5 (Some "fast"); example_rating 2 11 8 2 4 None]
       (mkSequences 3 4 6 3 3 1 3).

(** [scenario_db] with passenger 1 also registered as a driver. *)
Definition both_roles_db : DB :=
  set_tbl_drivers (fun rows => rows ++ [example_driver 4 "p1" true]) scenario_db.

(** [scenario_db] after passenger 1 countered driver 1's offer on order 1
    with 450. *)
Definition negotiating_db : DB :=
  (makeCounterOfferTool 0 1 "p1" 1 450 scenario_db).2.


(** ** Lookups the statements use *)

(** The offer [acceptOffer] works from: the first row with this id. *)
Definition offer_with_id (offerId : Z) (db : DB) : option driverOffers.row :=
  head (filter (fun o => driverOffers.id o = offerId) (tbl_driverOffers db)).

(** The profile a tool resolves a Telegram handle to: the first row. *)
Definition driver_with_handle (telegramId : string) (db : DB) : option drivers.row :=
  head (filter (fun d => drivers.telegramId d = telegramId) (tbl_drivers db)).

Definition passenger_with_handle (telegramId : string) (db : DB)
  : option passengers.row :=
  head (filter (fun p => passengers.telegramId p = telegramId) (tbl_passengers db)).

Definition order_with_id (orderId : Z) (db : DB) : option orders.row :=
  head (filter (fun o => orders.id o = orderId) (tbl_orders db)).

Definition negotiation_with_id (negotiationId : Z) (db : DB)
  : option priceNegotiations.row :=
  head (filter (fun n => priceNegotiations.id n = negotiationId)
               (tbl_priceNegotiations db)).

Definition document_with_id (documentId : Z) (db : DB)
  : option driverDocuments.row :=
  head (filter (fun r => driverDocuments.id r = documentId)
               (tbl_driverDocuments db)).

(** The document [uploadDocument] finds for a driver and a category. *)
Definition document_of (driverId : Z) (documentType : DocumentType) (db : DB)
  : option driverDocuments.row :=
  head (filter (fun doc => driverDocuments.driverId doc = driverId
                           /\ driverDocuments.documentType doc
                              = documentType_text documentType)
               (tbl_driverDocuments db)).

(** The driver has a document of this category with status approved. *)
Definition has_approved (driverId : Z) (type : string) (db : DB) : Prop :=
  exists x, x ∈ tbl_driverDocuments db
            /\ driverDocuments.driverId x = driverId
            /\ driverDocuments.documentType x = type
            /\ driverDocuments.status x = "approved".

(** Every stored [isVerified] agrees with the documents: the flag is true
    exactly for the drivers with an approved licence and an approved
    vehicle registration. *)
Definition verified_consistent (db : DB) : Prop :=
  forall d, d ∈ tbl_drivers db ->
    (drivers.isVerified d = true
     <-> has_approved (drivers.id d) "license" db
         /\ has_approved (drivers.id d) "vehicle_registration" db).

(** The driver has some offer on the order, whatever its status. *)
Definition has_offer_on (driverId orderId : Z) (db : DB) : Prop :=
  exists o, o ∈ tbl_driverOffers db
            /\ driverOffers.orderId o = orderId
            /\ driverOffers.driverId o = driverId.

(** The caller is the party of the order that [userType] names; [fromUserId]
    is the caller's id and [toUserId] the counterpart recorded on the order
    (null for a passenger when no driver has been accepted). *)
Definition rating_parties (db : DB) (telegramId : string) (orderId : Z)
    (userType : UserType) (fromUserId : Z) (toUserId : option Z) : Prop :=
  exists o, order_with_id orderId db = Some o /\
    match userType with
    | passenger =>
        exists p, passenger_with_handle telegramId db = Some p
                  /\ passengers.id p = orders.passengerId o
                  /\ fromUserId = passengers.id p
                  /\ toUserId = orders.acceptedDriverId o
    | driver =>
        exists d, driver_with_handle telegramId db = Some d
                  /\ orders.acceptedDriverId o = Some (drivers.id d)
                  /\ fromUserId = drivers.id d
                  /\ toUserId = Some (orders.passengerId o)
    end.

(** A rating of the (order, fromUser) pair is already stored. *)
Definition already_rated (db : DB) (orderId fromUserId : Z) : Prop :=
  exists r, r ∈ tbl_ratings db
            /\ ratings.orderId r = orderId
            /\ ratings.fromUserId r = fromUserId.

(** The scores a user has received in a role, in table order. *)
Definition ratings_received (userId : Z) (userType : string) (db : DB) : list Z :=
  ratings.rating <$>
    filter (fun r => ratings.toUserId r = userId /\ ratings.toUserType r = userType)
           (tbl_ratings db).

(** The store [updateUserRating] leaves, as a function of the store it
    finds. *)
Definition rating_written_back (userId : Z) (userType : string) (db : DB) : DB :=
  match ratings_received userId userType db with
  | [] => db
  | scores =>
      if decide (userType = "driver") then
        set_tbl_drivers
          (update_where (fun d => drivers.id d = userId)
             (driver_set_rating (toFixed2 (avgRating scores))
                (Z.of_nat (length scores)))) db
      else
        set_tbl_passengers
          (update_where (fun p => passengers.id p = userId)
             (passenger_set_rating (toFixed2 (avgRating scores))
                (Z.of_nat (length scores)))) db
  end.

(** What [rateRide_parties] returns, as a function of the store. *)
Definition parties_of (telegramId : string) (userType : UserType)
    (orderData : orders.row) (db : DB) : Result + Z * option Z :=
  match userType with
  | passenger =>
      match passenger_with_handle telegramId db with
      | None => inl (mkResult false msg_not_order_passenger)
      | Some p =>
          if decide (passengers.id p <> orders.passengerId orderData)
          then inl (mkResult false msg_not_order_passenger)
          else inr (passengers.id p, orders.acceptedDriverId orderData)
      end
  | driver =>
      match driver_with_handle telegramId db with
      | None => inl (mkResult false msg_not_order_driver)
      | Some d =>
          if decide (Some (drivers.id d) <> orders.acceptedDriverId orderData)
          then inl (mkResult false msg_not_order_driver)
          else inr (drivers.id d, Some (orders.passengerId orderData))
      end
  end.

(** The rating row [rateRide] inserts. *)
Definition new_rating (db : DB) (now orderId fromUserId : Z) (userType : UserType)
    (toUserId rating : Z) (comment : option string) : ratings.row :=
  ratings.mk (seq_ratings (sequences db)) orderId fromUserId
    (userType_text userType) toUserId (userType_text (counterpart userType))
    rating (or_null comment) now.

(** The "not a party of this order" message of each role. *)
Definition msg_unauthorized (userType : UserType) : string :=
  match userType with
  | passenger => msg_not_order_passenger
  | driver => msg_not_order_driver
  end.

(** The two stores hold the same rows in every table (the sequences may
    differ). *)
Definition same_rows (db db' : DB) : Prop :=
  tbl_passengers db' = tbl_passengers db
  /\ tbl_drivers db' = tbl_drivers db
  /\ tbl_driverDocuments db' = tbl_driverDocuments db
  /\ tbl_orders db' = tbl_orders db
  /\ tbl_driverOffers db' = tbl_driverOffers db
  /\ tbl_priceNegotiations db' = tbl_priceNegotiations db
  /\ tbl_ratings db' = tbl_ratings db.

(** ** The rating precondition, as the specification words it *)

(** "Inserts a rating row if and only if the order exists, the caller is the
    party recorded on it and no rating from that (order, fromUser) pair
    exists". *)
Definition rateRide_inserts_iff_party_and_unrated : Prop :=
  forall (db : DB) (now : Z) (telegramId : string) (orderId : Z)
         (userType : UserType) (rating : Z) (comment : option string),
    tbl_ratings (rateRideTool now telegramId orderId userType rating comment db).2
    <> tbl_ratings db
    <-> exists fromUserId toUserId,
          rating_parties db telegramId orderId userType fromUserId toUserId
          /\ ~ already_rated db orderId fromUserId.

(** ** The counter-price answer, as the specification words it *)

(** "With accept = false and a counterPrice supplied": one new row from the
    responding driver back to the original sender at the new price, the
    rows that were there left as they are. *)
Definition counter_price_appends : Prop :=
  forall (db : DB) (now : Z) (telegramId : string) (negotiationId counterPrice : Z)
         (d : drivers.row) (n : priceNegotiations.row),
    driver_with_handle telegramId db = Some d ->
    negotiation_with_id negotiationId db = Some n ->
    exists row,
      tbl_priceNegotiations
        (respondToCounterOfferTool now telegramId negotiationId false
           (Some counterPrice) db).2
      = tbl_priceNegotiations db ++ [row]
      /\ priceNegotiations.orderId row = priceNegotiations.orderId n
      /\ priceNegotiations.fromUserId row = drivers.id d
      /\ priceNegotiations.toUserId row = priceNegotiations.fromUserId n
      /\ priceNegotiations.proposedPrice row = toString counterPrice.

(** ** The acceptance guard, as the specification words it *)


(** The rows [getAvailableOrders] lists: the pending orders, each joined
    with its passenger, newest first. *)
Definition available_rows (db : DB) : list (orders.row * option passengers.row) :=
  orderBy_desc (fun jr => orders.createdAt jr.1)
    (filter (fun jr => orders.status jr.1 = "pending")
       (left_join (tbl_orders db) (fun o =>
          filter (fun p => orders.passengerId o = passengers.id p)
                 (tbl_passengers db)))).

(** Descending by [key], ties allowed. *)
Definition sorted_desc {R} (key : R -> Z) (l : list R) : Prop :=
  StronglySorted (fun a b => key b <= key a) l.

(** ** Histories of calls *)

(** The calls that write to the store, with their arguments. *)
Inductive call : Type :=
| RegisterPassenger (telegramId firstName phoneNumber : string)
| CreateOrder (telegramId fromAddress toAddress : string) (suggestedPrice : Z)
| AcceptOffer (offerId orderId : Z)
| MakeCounterOffer (orderId : Z) (telegramId : string) (driverId counterPrice : Z)
| RegisterDriver (telegramId firstName phoneNumber carModel carColor carNumber : string)
| MakeOffer (telegramId : string) (orderId offeredPrice : Z) (message : option string)
| SetDriverStatus (telegramId : string) (isOnline : bool)
| RespondToCounterOffer (telegramId : string) (negotiationId : Z) (accept : bool)
    (counterPrice : option Z)
| UploadDocument (telegramId : string) (documentType : DocumentType)
    (documentData : DocumentData)
| ProcessDocumentVerification (documentId : Z) (approve : bool)
    (rejectionReason : option string)
| RateRide (telegramId : string) (orderId : Z) (userType : UserType) (rating : Z)
    (comment : option string).

(** The store a call leaves when it runs at time [now]. *)
Definition perform (now : Z) (c : call) (db : DB) : DB :=
  match c with
  | RegisterPassenger t f p => (registerPassengerTool now t f p db).2
  | CreateOrder t a b price => (createOrderTool now t a b price db).2
  | AcceptOffer offerId orderId => (acceptOfferTool offerId orderId db).2
  | MakeCounterOffer o t d price => (makeCounterOfferTool now o t d price db).2
  | RegisterDriver t f p m c n => (registerDriverTool now t f p m c n db).2
  | MakeOffer t o price msg => (makeOfferTool now t o price msg db).2
  | SetDriverStatus t b => (setDriverStatusTool t b db).2
  | RespondToCounterOffer t n a price =>
      (respondToCounterOfferTool now t n a price db).2
  | UploadDocument t ty data => (uploadDocumentTool now t ty data db).2
  | ProcessDocumentVerification d a r =>
      (processDocumentVerificationTool now d a r db).2
  | RateRide t o u r c => (rateRideTool now t o u r c db).2
  end.

(** A history: the calls in the order they ran, each with its time. *)
Fixpoint run (history : list (Z * call)) (db : DB) : DB :=
  match history with
  | [] => db
  | (now, c) :: rest => run rest (perform now c db)
  end.

(** The store of a fresh installation: no rows, every sequence at 1. *)
Definition empty_db : DB :=
  mkDB [] [] [] [] [] [] [] (mkSequences 1 1 1 1 1 1 1).

(** Driver d1 registers, submits licence and vehicle registration, has
    both approved and then submits the licence again; driver d2 registers
    and submits a licence, which is document 3. *)
Definition resubmission_history : list (Z * call) :=
  [(1, RegisterDriver "d1" "Boris" "+70000000002" "Lada" "white" "A001AA");
   (2, UploadDocument "d1" license example_payload);
   (3, UploadDocument "d1" vehicle_registration example_payload);
   (4, ProcessDocumentVerification 1 true None);
   (5, ProcessDocumentVerification 2 true None);
   (6, UploadDocument "d1" license example_payload);
   (7, RegisterDriver "d2" "Gleb" "+70000000003" "Kia" "black" "B002BB");
   (8, UploadDocument "d2" license example_payload)].

(** One write of a tool to the store, with what the tool has checked
    before it. *)
Inductive write (db : DB) : DB -> Prop :=
| write_passenger (r : passengers.row) :
    passengers.id r = seq_passengers (sequences db) ->
    filter (fun p => passengers.telegramId p = passengers.telegramId r)
           (tbl_passengers db) = [] ->
    write db (set_sequences next_passengers
                (set_tbl_passengers (fun rows => rows ++ [r]) db))
| write_driver (r : drivers.row) :
    drivers.id r = seq_drivers (sequences db) ->
    filter (fun d => drivers.telegramId d = drivers.telegramId r)
           (tbl_drivers db) = [] ->
    drivers.isVerified r = false ->
    write db (set_sequences next_drivers
                (set_tbl_drivers (fun rows => rows ++ [r]) db))
| write_order (r : orders.row) (p : passengers.row) :
    orders.id r = seq_orders (sequences db) ->
    p ∈ tbl_passengers db ->
    orders.passengerId r = passengers.id p ->
    orders.status r = "pending" ->
    orders.finalPrice r = None ->
    orders.acceptedDriverId r = None ->
    write db (set_sequences next_orders
                (set_tbl_orders (fun rows => rows ++ [r]) db))
| write_offer (r : driverOffers.row) (d : drivers.row) :
    driverOffers.id r = seq_driverOffers (sequences db) ->
    d ∈ tbl_drivers db ->
    driverOffers.driverId r = drivers.id d ->
    driverOffers.status r = "pending" ->
    filter (fun o => driverOffers.orderId o = driverOffers.orderId r
                     /\ driverOffers.driverId o = driverOffers.driverId r)
           (tbl_driverOffers db) = [] ->
    write db (set_sequences next_driverOffers
                (set_tbl_driverOffers (fun rows => rows ++ [r]) db))
| write_negotiation (r : priceNegotiations.row) :
    priceNegotiations.id r = seq_priceNegotiations (sequences db) ->
    priceNegotiations.status r = "pending" ->
    write db (set_sequences next_priceNegotiations
                (set_tbl_priceNegotiations (fun rows => rows ++ [r]) db))
| write_document (r : driverDocuments.row) (d : drivers.row) (t : DocumentType) :
    driverDocuments.id r = seq_driverDocuments (sequences db) ->
    d ∈ tbl_drivers db ->
    driverDocuments.driverId r = drivers.id d ->
    driverDocuments.documentType r = documentType_text t ->
    driverDocuments.status r = "pending" ->
    filter (fun x => driverDocuments.driverId x = driverDocuments.driverId r
                     /\ driverDocuments.documentType x
                        = driverDocuments.documentType r)
           (tbl_driverDocuments db) = [] ->
    write db (set_sequences next_driverDocuments
                (set_tbl_driverDocuments (fun rows => rows ++ [r]) db))
| write_rating (r : ratings.row) (o : orders.row) :
    ratings.id r = seq_ratings (sequences db) ->
    filter (fun x => ratings.orderId x = ratings.orderId r
                     /\ ratings.fromUserId x = ratings.fromUserId r)
           (tbl_ratings db) = [] ->
    o ∈ tbl_orders db ->
    orders.id o = ratings.orderId r ->
    is_Some (orders.acceptedDriverId o) ->
    write db (set_sequences next_ratings
                (set_tbl_ratings (fun rows => rows ++ [r]) db))
| write_rating_refused :
    write db (set_sequences next_ratings db)
| write_accept (offer : driverOffers.row) (offerId orderId : Z) :
    offer ∈ tbl_driverOffers db ->
    driverOffers.id offer = offerId ->
    write db (set_tbl_driverOffers
                (update_where (fun r => driverOffers.id r = offerId)
                   (offer_set_status "accepted"))
                (set_tbl_orders
                   (update_where (fun r => orders.id r = orderId)
                      (order_accept offer)) db))
| write_negotiation_status (negotiationId : Z) (st : string) :
    st = "accepted" \/ st = "rejected" ->
    write db (set_tbl_priceNegotiations
                (update_where (fun n => priceNegotiations.id n = negotiationId)
                   (negotiation_set_status st)) db)
| write_resubmit (now documentId : Z) (documentData : DocumentData) :
    write db (set_tbl_driverDocuments
                (update_where (fun r => driverDocuments.id r = documentId)
                   (document_resubmit now documentData)) db)
| write_adjudicate (now documentId : Z) (approve : bool) (reason : option string) :
    write db (set_tbl_driverDocuments
                (update_where (fun r => driverDocuments.id r = documentId)
                   (document_adjudicate now approve reason)) db)
| write_verification (driverId : Z) (ok : bool) :
    ok = hasAllRequiredApproved
           (filter (fun x => driverDocuments.driverId x = driverId)
                   (tbl_driverDocuments db)) ->
    write db (set_tbl_drivers
                (update_where (fun d => drivers.id d = driverId)
                   (driver_set_verification ok)) db)
| write_online (telegramId : string) (isOnline : bool) :
    write db (set_tbl_drivers
                (update_where (fun d => drivers.telegramId d = telegramId)
                   (driver_set_online isOnline)) db)
| write_driver_rating (userId : Z) (rating : string) (totalRides : Z) :
    write db (set_tbl_drivers
                (update_where (fun d => drivers.id d = userId)
                   (driver_set_rating rating totalRides)) db)
| write_passenger_rating (userId : Z) (rating : string) (totalRides : Z) :
    write db (set_tbl_passengers
                (update_where (fun p => passengers.id p = userId)
                   (passenger_set_rating rating totalRides)) db).

(** ** What every history keeps *)

(** The ids are distinct and all below the next value of the sequence. *)
Definition keys_fresh (ids : list Z) (next : Z) : Prop :=
  NoDup ids /\ Forall (fun i => i < next) ids.

Definition primary_keys (db : DB) : Prop :=
  keys_fresh (passengers.id <$> tbl_passengers db) (seq_passengers (sequences db))
  /\ keys_fresh (drivers.id <$> tbl_drivers db) (seq_drivers (sequences db))
  /\ keys_fresh (driverDocuments.id <$> tbl_driverDocuments db)
       (seq_driverDocuments (sequences db))
  /\ keys_fresh (orders.id <$> tbl_orders db) (seq_orders (sequences db))
  /\ keys_fresh (driverOffers.id <$> tbl_driverOffers db)
       (seq_driverOffers (sequences db))
  /\ keys_fresh (priceNegotiations.id <$> tbl_priceNegotiations db)
       (seq_priceNegotiations (sequences db))
  /\ keys_fresh (ratings.id <$> tbl_ratings db) (seq_ratings (sequences db)).

(** No two profiles of one kind share a Telegram handle. *)
Definition handles_unique (db : DB) : Prop :=
  NoDup (passengers.telegramId <$> tbl_passengers db)
  /\ NoDup (drivers.telegramId <$> tbl_drivers db).

(** At most one document per driver and category, one offer per order and
    driver, one rating per order and rating user id. *)
Definition one_per_pair (db : DB) : Prop :=
  NoDup ((fun x => (driverDocuments.driverId x, driverDocuments.documentType x))
           <$> tbl_driverDocuments db)
  /\ NoDup ((fun o => (driverOffers.orderId o, driverOffers.driverId o))
              <$> tbl_driverOffers db)
  /\ NoDup ((fun r => (ratings.orderId r, ratings.fromUserId r))
              <$> tbl_ratings db).

(** An order is either pending, with no driver and no final price, or
    accepted, with both. *)
Definition order_settled (o : orders.row) : Prop :=
  (orders.status o = "pending"
   /\ orders.acceptedDriverId o = None /\ orders.finalPrice o = None)
  \/ (orders.status o = "accepted"
      /\ is_Some (orders.acceptedDriverId o) /\ is_Some (orders.finalPrice o)).

(** The statuses the tools ever write. *)
Definition statuses_written (db : DB) : Prop :=
  Forall order_settled (tbl_orders db)
  /\ Forall (fun f => driverOffers.status f = "pending"
                      \/ driverOffers.status f = "accepted")
            (tbl_driverOffers db)
  /\ Forall (fun n => priceNegotiations.status n = "pending"
                      \/ priceNegotiations.status n = "accepted"
                      \/ priceNegotiations.status n = "rejected")
            (tbl_priceNegotiations db)
  /\ Forall (fun x => (driverDocuments.status x = "pending"
                       \/ driverDocuments.status x = "approved"
                       \/ driverDocuments.status x = "rejected")
                      /\ exists t, driverDocuments.documentType x
                                   = documentType_text t)
            (tbl_driverDocuments db).

(** The rows that name a profile name one that exists. *)
Definition references_resolve (db : DB) : Prop :=
  Forall (fun o => orders.passengerId o ∈ passengers.id <$> tbl_passengers db)
         (tbl_orders db)
  /\ Forall (fun o => forall d, orders.acceptedDriverId o = Some d ->
                               d ∈ drivers.id <$> tbl_drivers db)
            (tbl_orders db)
  /\ Forall (fun f => driverOffers.driverId f ∈ drivers.id <$> tbl_drivers db)
            (tbl_driverOffers db)
  /\ Forall (fun x => driverDocuments.driverId x ∈ drivers.id <$> tbl_drivers db)
            (tbl_driverDocuments db).

(** An accepted order carries the driver and the price of some accepted
    offer. *)
Definition accepted_from_offer (db : DB) : Prop :=
  Forall (fun o => orders.status o = "accepted" ->
            exists f, f ∈ tbl_driverOffers db
                      /\ driverOffers.status f = "accepted"
                      /\ orders.acceptedDriverId o = Some (driverOffers.driverId f)
                      /\ orders.finalPrice o = Some (driverOffers.offeredPrice f))
         (tbl_orders db).

(** The driver has a stored document of the category, whatever its
    status. *)
Definition has_document (driverId : Z) (type : string) (db : DB) : Prop :=
  exists x, x ∈ tbl_driverDocuments db
            /\ driverDocuments.driverId x = driverId
            /\ driverDocuments.documentType x = type.

(** A driver whose flag is set has a licence and a vehicle registration on
    file. *)
Definition verified_have_documents (db : DB) : Prop :=
  Forall (fun d => drivers.isVerified d = true ->
            has_document (drivers.id d) "license" db
            /\ has_document (drivers.id d) "vehicle_registration" db)
         (tbl_drivers db).

(** A rating belongs to an order that has an accepted driver. *)
Definition ratings_of_accepted_orders (db : DB) : Prop :=
  Forall (fun r => exists o, o ∈ tbl_orders db
                             /\ orders.id o = ratings.orderId r
                             /\ is_Some (orders.acceptedDriverId o))
         (tbl_ratings db).

(** ** Rows rewritten in place *)

(** [rows_rewritten p q old new]: [new] is [old] row by row, where a row
    matching [p] is replaced by one related to it by [q] and every other row
    is kept as it is. *)
Definition rows_rewritten {R} (p : R -> Prop) (q : R -> R -> Prop)
    (old new : list R) : Prop :=
  Forall2 (fun r r' => (p r -> q r r') /\ (~ p r -> r' = r)) old new.

(** * Properties *)

(** ** Updates in place *)

Section UpdateWhere.
Context {R : Type} (p : R -> Prop) `{!forall r, Decision (p r)} (f : R -> R).

Lemma update_where_length rows :
  length (update_where p f rows) = length rows.
Proof. unfold update_where. apply length_map. Qed.

Lemma update_where_rewritten (q : R -> R -> Prop) rows :
  (forall r, p r -> q r (f r)) ->
  rows_rewritten p q rows (update_where p f rows).
Proof.
  intros Hq. unfold rows_rewritten, update_where.
  induction rows as [|r rows IH]; simpl; constructor; auto.
  destruct (decide (p r)); split; intros; auto; contradiction.
Qed.

Lemma update_where_none rows :
  Forall (fun r => ~ p r) rows -> update_where p f rows = rows.
Proof.
  unfold update_where. induction 1 as [|r rows Hr _ IH]; simpl; [done|].
  rewrite IH. destruct (decide (p r)); [contradiction|done].
Qed.

Lemma update_where_filter_nil rows :
  filter p rows = [] -> update_where p f rows = rows.
Proof.
  intros Hnil. apply update_where_none.
  apply Forall_forall. intros r Hin Hp.
  assert (Hmem : r ∈ filter p rows) by (apply list_elem_of_filter; split; auto).
  rewrite Hnil in Hmem. by apply not_elem_of_nil in Hmem.
Qed.

(** A column that [f] does not write selects the same rows, rewritten. *)
Lemma filter_update_where (k : R -> Prop) `{!forall r, Decision (k r)} rows :
  (forall r, k (f r) <-> k r) ->
  filter k (update_where p f rows) = update_where p f (filter k rows).
Proof.
  intros Hk. unfold update_where.
  induction rows as [|r rows IH]; simpl; [done|].
  assert (Hkr : k (if decide (p r) then f r else r) <-> k r).
  { destruct (decide (p r)); [apply Hk|done]. }
  destruct (decide (k r)) as [Hr|Hr].
  - rewrite (filter_cons_True k r) by done.
    rewrite filter_cons_True by (by apply Hkr).
    simpl. by rewrite IH.
  - rewrite (filter_cons_False k r) by done.
    rewrite filter_cons_False by (by rewrite Hkr).
    apply IH.
Qed.
End UpdateWhere.

Lemma rows_rewritten_lookup {R} (p : R -> Prop) q (old new : list R) i r :
  rows_rewritten p q old new -> old !! i = Some r ->
  exists r', new !! i = Some r' /\ (p r -> q r r') /\ (~ p r -> r' = r).
Proof.
  intros Hrw Hi. destruct (Forall2_lookup_l _ _ _ _ _ Hrw Hi) as (r' & ? & ?).
  eauto.
Qed.

(** ** The join of [acceptOffer] finds the offer the plain lookup finds *)

Lemma filter_join_rows_of {R S} (P : R -> Prop) `{!forall r, Decision (P r)}
    (r : R) (l : list (option S)) :
  filter (fun jr : R * option S => P jr.1) ((fun s => (r, s)) <$> l)
  = if decide (P r) then (fun s => (r, s)) <$> l else [].
Proof.
  induction l as [|s l IH].
  - by destruct (decide (P r)).
  - rewrite fmap_cons, filter_cons, IH. simpl. by destruct (decide (P r)).
Qed.

Lemma left_join_filter_head {R S} (P : R -> Prop) `{!forall r, Decision (P r)}
    (a : list R) (matching : R -> list S) :
  fst <$> head (filter (fun jr => P jr.1) (left_join a matching))
  = head (filter P a).
Proof.
  unfold left_join. induction a as [|r a IH]; [done|].
  rewrite bind_cons, filter_app, filter_cons.
  assert (Hrows : exists s l,
             match matching r with
             | [] => [(r, None)]
             | ms => (fun s => (r, Some s)) <$> ms
             end = (fun s => (r, s)) <$> (s :: l)).
  { destruct (matching r) as [|s ms].
    - by exists None, [].
    - exists (Some s), (Some <$> ms). simpl. f_equal.
      rewrite <- list_fmap_compose. done. }
  destruct Hrows as (s & l & ->).
  rewrite filter_join_rows_of.
  destruct (decide (P r)); [done|apply IH].
Qed.

(** ** acceptOffer *)

Lemma acceptOfferTool_found db offerId orderId offerData :
  offer_with_id offerId db = Some offerData ->
  acceptOffer.success (acceptOfferTool offerId orderId db).1 = true
  /\ acceptOffer.message (acceptOfferTool offerId orderId db).1 = msg_offer_accepted
  /\ (acceptOfferTool offerId orderId db).2
     = set_tbl_driverOffers
         (update_where (fun r => driverOffers.id r = offerId)
            (offer_set_status "accepted"))
         (set_tbl_orders
            (update_where (fun r => orders.id r = orderId)
               (order_accept offerData)) db).
Proof.
  unfold offer_with_id. intros Hfound.
  pose proof (left_join_filter_head
                (fun o => driverOffers.id o = offerId) (tbl_driverOffers db)
                (fun o => filter (fun d => driverOffers.driverId o = drivers.id d)
                            (tbl_drivers db))) as Hjoin.
  rewrite Hfound in Hjoin.
  unfold acceptOfferTool, execute, bind, get, modify, ret. simpl in *.
  destruct (filter _ (left_join _ _)) as [|[o d] rest]; [done|].
  simpl in Hjoin. injection Hjoin as ->. done.
Qed.

Lemma acceptOfferTool_missing db offerId orderId :
  offer_with_id offerId db = None ->
  acceptOfferTool offerId orderId db
  = (acceptOffer.mk false msg_offer_not_found None, db).
Proof.
  unfold offer_with_id. intros Hnone.
  pose proof (left_join_filter_head
                (fun o => driverOffers.id o = offerId) (tbl_driverOffers db)
                (fun o => filter (fun d => driverOffers.driverId o = drivers.id d)
                            (tbl_drivers db))) as Hjoin.
  rewrite Hnone in Hjoin.
  unfold acceptOfferTool, execute, bind, get, modify, ret. simpl in *.
  destruct (filter _ (left_join _ _)) as [|[o d] rest]; [done|].
  discriminate Hjoin.
Qed.







(** ** The missing acceptance guard *)




(** ** makeOffer *)

Lemma filter_nil_not_elem {R} (p : R -> Prop) `{!forall r, Decision (p r)}
    (rows : list R) :
  filter p rows = [] <-> (forall r, r ∈ rows -> ~ p r).
Proof.
  split.
  - intros Hnil r Hin Hp.
    assert (Hmem : r ∈ filter p rows) by (apply list_elem_of_filter; auto).
    rewrite Hnil in Hmem. by apply not_elem_of_nil in Hmem.
  - intros Hnone. destruct (filter p rows) as [|r rest] eqn:Hf; [done|].
    assert (Hmem : r ∈ filter p rows) by (rewrite Hf; left).
    apply list_elem_of_filter in Hmem as [Hp Hin]. by destruct (Hnone r Hin).
Qed.

Lemma parameters_fit_nil (price : Z) :
  parameters_fit [] price <-> decimal_8_2 price.
Proof. unfold parameters_fit. split; [by intros [_ ?]|by split]. Qed.

Lemma parameters_fit_one (z price : Z) :
  parameters_fit [z] price <-> int4 z /\ decimal_8_2 price.
Proof.
  unfold parameters_fit. split.
  - intros [Hint ?]. split; [|done]. by apply Forall_cons in Hint as [? _].
  - intros [? ?]. split; [|done]. by apply Forall_cons.
Qed.

Lemma parameters_fit_two (z1 z2 price : Z) :
  parameters_fit [z1; z2] price <-> int4 z1 /\ int4 z2 /\ decimal_8_2 price.
Proof.
  unfold parameters_fit. split.
  - intros [Hint ?]. apply Forall_cons in Hint as [? Hint].
    apply Forall_cons in Hint as [? _]. done.
  - intros (? & ? & ?). split; [|done]. apply Forall_cons. split; [done|].
    by apply Forall_cons.
Qed.

Lemma makeOfferTool_eq now t o price msg db :
  makeOfferTool now t o price msg db
  = match driver_with_handle t db with
    | None => (mkResult false msg_driver_not_found, db)
    | Some d =>
        if negb (drivers.isVerified d) then (mkResult false msg_not_verified, db)
        else
          match filter (fun x => driverOffers.orderId x = o
                                 /\ driverOffers.driverId x = drivers.id d)
                       (tbl_driverOffers db) with
          | _ :: _ => (mkResult false msg_duplicate_offer, db)
          | [] =>
              if decide (parameters_fit [o] price) then
                (mkResult true
                   ("Предложение отправлено! Цена: " +:+ toString price +:+
                    " руб. Ожидайте ответ от пассажира."),
                 set_sequences next_driverOffers
                   (set_tbl_driverOffers
                      (fun rows => rows ++
                         [driverOffers.mk (seq_driverOffers (sequences db)) o
                            (drivers.id d) (toString price) "pending"
                            (or_null msg) now now]) db))
              else (mkResult false msg_make_offer_error, db)
          end
    end.
Proof.
  unfold makeOfferTool, driver_with_handle, execute, bind, get, fail, succeed,
    ret, insert_driverOffers, throw.
  simpl.
  destruct (filter _ (tbl_drivers db)) as [|d l]; [done|]. simpl.
  destruct (drivers.isVerified d); [|done]. simpl.
  destruct (filter _ (tbl_driverOffers db)); [|done].
  by destruct (decide (parameters_fit [o] price)).
Qed.

Lemma has_offer_on_filter (driverId orderId : Z) (db : DB) :
  has_offer_on driverId orderId db
  <-> filter (fun o => driverOffers.orderId o = orderId
                       /\ driverOffers.driverId o = driverId)
             (tbl_driverOffers db) <> [].
Proof.
  rewrite filter_nil_not_elem. unfold has_offer_on. split.
  - intros (o & Hin & Ho & Hd) Hnone. by apply (Hnone o Hin).
  - intros Hsome.
    destruct (filter (fun o => driverOffers.orderId o = orderId
                               /\ driverOffers.driverId o = driverId)
                (tbl_driverOffers db)) as [|o l] eqn:Hf.
    + exfalso. apply Hsome. intros r Hr Hp.
      assert (Hmem : r ∈ filter (fun o => driverOffers.orderId o = orderId
                       /\ driverOffers.driverId o = driverId)
                       (tbl_driverOffers db))
        by (apply list_elem_of_filter; auto).
      rewrite Hf in Hmem. by apply not_elem_of_nil in Hmem.
    + assert (Hmem : o ∈ filter (fun o => driverOffers.orderId o = orderId
                       /\ driverOffers.driverId o = driverId)
                       (tbl_driverOffers db)) by (rewrite Hf; left).
      apply list_elem_of_filter in Hmem as [[? ?] ?]. by exists o.
Qed.

(** C4: [makeOffer] checks, in this order, that the driver is registered,
    that the driver is verified and that the driver has no offer of any
    status on the order.  Each failed check has its own message and leaves
    the store as it was.  When all three pass and the order id and the
    price fit their columns, exactly one pending offer is appended; when
    they do not fit, the insert raises, the tool answers its generic
    failure and no offer is stored.  So an offer is stored only for a
    registered, verified driver without an earlier offer on the order. *)
Theorem makeOffer_gate (db : DB) (now : Z) (telegramId : string)
    (orderId offeredPrice : Z) (message : option string) :
  let out := (makeOfferTool now telegramId orderId offeredPrice message db).1 in
  let db' := (makeOfferTool now telegramId orderId offeredPrice message db).2 in
  (driver_with_handle telegramId db = None ->
     out = mkResult false msg_driver_not_found /\ db' = db)
  /\ (forall d, driver_with_handle telegramId db = Some d ->
        drivers.isVerified d = false ->
        out = mkResult false msg_not_verified /\ db' = db)
  /\ (forall d, driver_with_handle telegramId db = Some d ->
        drivers.isVerified d = true ->
        has_offer_on (drivers.id d) orderId db ->
        out = mkResult false msg_duplicate_offer /\ db' = db)
  /\ (forall d, driver_with_handle telegramId db = Some d ->
        drivers.isVerified d = true ->
        ~ has_offer_on (drivers.id d) orderId db ->
        (int4 orderId -> decimal_8_2 offeredPrice ->
           success out = true
           /\ tbl_driverOffers db'
              = tbl_driverOffers db
                ++ [driverOffers.mk (seq_driverOffers (sequences db)) orderId
                      (drivers.id d) (toString offeredPrice) "pending"
                      (or_null message) now now])
        /\ (~ (int4 orderId /\ decimal_8_2 offeredPrice) ->
            out = mkResult false msg_make_offer_error
            /\ tbl_driverOffers db' = tbl_driverOffers db))
  /\ (tbl_driverOffers db' <> tbl_driverOffers db ->
      exists d, driver_with_handle telegramId db = Some d
                /\ drivers.isVerified d = true
                /\ ~ has_offer_on (drivers.id d) orderId db)
  /\ msg_not_verified <> msg_driver_not_found
  /\ msg_not_verified <> msg_duplicate_offer
  /\ msg_not_verified <> msg_make_offer_error
  /\ msg_duplicate_offer <> msg_driver_not_found
  /\ msg_duplicate_offer <> msg_make_offer_error.
Proof.
  cbv zeta. rewrite makeOfferTool_eq.
  destruct (driver_with_handle telegramId db) as [d0|] eqn:Hdriver.
  2:{ split; [done|]. do 3 (split; [done|]). split; [done|].
      repeat split; discriminate. }
  split; [done|].
  destruct (drivers.isVerified d0) eqn:Hv; cbn [negb].
  2:{ split; [by intros d [= <-] _|]. split; [intros d [= <-]; congruence|].
      split; [intros d [= <-]; congruence|]. split; [done|].
      repeat split; discriminate. }
  split; [intros d [= <-]; congruence|].
  pose proof (has_offer_on_filter (drivers.id d0) orderId db) as Hdup.
  destruct (filter _ (tbl_driverOffers db)) as [|o l] eqn:Hf.
  - split; [intros d [= <-] _ Hhas; by apply Hdup in Hhas|].
    split.
    + intros d [= <-] _ _.
      destruct (decide (parameters_fit [orderId] offeredPrice)) as [Hfit|Hfit].
      * split; [done|]. intros Hno. exfalso. apply Hno.
        by apply parameters_fit_one.
      * split; [|done]. intros Hint Hprice. exfalso. apply Hfit.
        by apply parameters_fit_one.
    + split; [|repeat split; discriminate].
      intros _. exists d0. split; [done|]. split; [done|].
      intros Hhas. by apply Hdup in Hhas.
  - split; [by intros d [= <-] _ _|].
    split; [|split; [done|repeat split; discriminate]].
    intros d [= <-] _ Hno. exfalso. apply Hno, Hdup. done.
Qed.

Lemma makeOffer_gate_witness :
  (makeOfferTool 7 "d3" 2 700 None scenario_db).1 = mkResult false msg_not_verified
  /\ (makeOfferTool 7 "d3" 2 700 None scenario_db).2 = scenario_db
  /\ (makeOfferTool 7 "d1" 1 700 None scenario_db).1
     = mkResult false msg_duplicate_offer
  /\ tbl_driverOffers (makeOfferTool 7 "d1" 2 700 None scenario_db).2
     = tbl_driverOffers scenario_db
       ++ [driverOffers.mk 3 2 1 "700" "pending" None 7 7]
  /\ (makeOfferTool 7 "d1" 2 1000000 None scenario_db).1
     = mkResult false msg_make_offer_error.
Proof.
  pose proof (makeOffer_gate scenario_db 7 "d3" 2 700 None) as (_ & H3 & _).
  pose proof (makeOffer_gate scenario_db 7 "d1" 1 700 None) as (_ & _ & H1 & _).
  pose proof (makeOffer_gate scenario_db 7 "d1" 2 700 None) as (_ & _ & _ & H2 & _).
  pose proof (makeOffer_gate scenario_db 7 "d1" 2 1000000 None)
    as (_ & _ & _ & H4 & _).
  assert (Hnone : ~ has_offer_on (drivers.id (example_driver 1 "d1" true)) 2
                      scenario_db).
  { intros (o & Hin & Ho & Hd). apply list_elem_of_In in Hin. simpl in Hin.
    destruct Hin as [<-|[<-|[]]]; discriminate. }
  split; [exact (proj1 (H3 (example_driver 3 "d3" false) eq_refl eq_refl))|].
  split; [exact (proj2 (H3 (example_driver 3 "d3" false) eq_refl eq_refl))|].
  split.
  { apply (H1 (example_driver 1 "d1" true) eq_refl eq_refl).
    exists (example_offer 1 1 1 "600"). split; [left|done]. }
  split.
  - apply (proj1 (H2 (example_driver 1 "d1" true) eq_refl eq_refl Hnone));
      unfold int4, decimal_8_2; lia.
  - apply (proj2 (H4 (example_driver 1 "d1" true) eq_refl eq_refl Hnone)).
    unfold int4, decimal_8_2. lia.
Defined.

(** ** uploadDocument *)

(** C8: [uploadDocument] fails when the handle is not registered; when the
    driver already has a document of the category it rewrites that row in
    place (new payload, status pending, no rejection reason), so the number
    of rows of the driver and category stays what it was; only when there is
    none does it append a pending document. *)
Theorem uploadDocument_supersedes (db : DB) (now : Z) (telegramId : string)
    (documentType : DocumentType) (documentData : DocumentData) :
  let out := (uploadDocumentTool now telegramId documentType documentData db).1 in
  let db' := (uploadDocumentTool now telegramId documentType documentData db).2 in
  (driver_with_handle telegramId db = None ->
     out = uploadDocument.mk false msg_driver_not_registered None /\ db' = db)
  /\ (forall d doc,
        driver_with_handle telegramId db = Some d ->
        document_of (drivers.id d) documentType db = Some doc ->
        uploadDocument.success out = true
        /\ uploadDocument.documentId out = Some (driverDocuments.id doc)
        /\ rows_rewritten
             (fun r => driverDocuments.id r = driverDocuments.id doc)
             (fun r r' =>
                driverDocuments.documentData r' = Some documentData
                /\ driverDocuments.status r' = "pending"
                /\ driverDocuments.rejectionReason r' = None
                /\ driverDocuments.id r' = driverDocuments.id r
                /\ driverDocuments.driverId r' = driverDocuments.driverId r
                /\ driverDocuments.documentType r' = driverDocuments.documentType r)
             (tbl_driverDocuments db) (tbl_driverDocuments db')
        /\ length (filter (fun r => driverDocuments.driverId r = drivers.id d
                                    /\ driverDocuments.documentType r
                                       = documentType_text documentType)
                          (tbl_driverDocuments db'))
           = length (filter (fun r => driverDocuments.driverId r = drivers.id d
                                      /\ driverDocuments.documentType r
                                         = documentType_text documentType)
                            (tbl_driverDocuments db)))
  /\ (forall d,
        driver_with_handle telegramId db = Some d ->
        document_of (drivers.id d) documentType db = None ->
        uploadDocument.success out = true
        /\ uploadDocument.documentId out
           = Some (seq_driverDocuments (sequences db))
        /\ tbl_driverDocuments db'
           = tbl_driverDocuments db
             ++ [driverDocuments.mk (seq_driverDocuments (sequences db))
                   (drivers.id d) (documentType_text documentType)
                   (Some documentData) "pending" None now now]).
Proof.
  simpl.
  unfold driver_with_handle, document_of, uploadDocumentTool, execute, bind,
    get, modify, ret, insert_driverDocuments.
  simpl.
  destruct (filter (fun d => drivers.telegramId d = telegramId) (tbl_drivers db))
    as [|d0 rest]; simpl.
  { split; [done|]. split; [intros ? ? [=]|intros ? [=]]. }
  split; [discriminate|]. split.
  - intros d doc [= <-] Hdoc.
    destruct (filter _ (tbl_driverDocuments db)) as [|doc0 docs] eqn:Hf;
      [discriminate|].
    injection Hdoc as ->. simpl. repeat split.
    + apply update_where_rewritten. intros r _. by repeat split.
    + rewrite (filter_update_where _ _
                 (fun r => driverDocuments.driverId r = drivers.id d0
                           /\ driverDocuments.documentType r
                              = documentType_text documentType)) by done.
      by rewrite update_where_length, Hf.
  - intros d [= <-] Hdoc.
    destruct (filter _ (tbl_driverDocuments db)) as [|doc0 docs] eqn:Hf;
      [|discriminate].
    done.
Qed.

Lemma uploadDocument_supersedes_witness :
  (uploadDocumentTool 9 "nobody" license example_payload scenario_db).1
  = uploadDocument.mk false msg_driver_not_registered None
  /\ length (filter (fun r => driverDocuments.driverId r = 3
                              /\ driverDocuments.documentType r = "license")
        (tbl_driverDocuments
           (uploadDocumentTool 9 "d3" license example_payload scenario_db).2))
     = 1%nat
  /\ tbl_driverDocuments
       (uploadDocumentTool 9 "d3" insurance example_payload scenario_db).2
     = tbl_driverDocuments scenario_db
       ++ [driverDocuments.mk 6 3 "insurance" (Some example_payload)
             "pending" None 9 9].
Proof.
  pose proof (uploadDocument_supersedes scenario_db 9 "nobody" license
                example_payload) as (H0 & _).
  pose proof (uploadDocument_supersedes scenario_db 9 "d3" license
                example_payload) as (_ & H1 & _).
  pose proof (uploadDocument_supersedes scenario_db 9 "d3" insurance
                example_payload) as (_ & _ & H2).
  split; [exact (proj1 (H0 eq_refl))|].
  split.
  - exact (proj2 (proj2 (proj2
      (H1 (example_driver 3 "d3" false)
          (example_document 5 3 license "rejected" (Some "unreadable"))
          eq_refl eq_refl)))).
  - exact (proj2 (proj2 (H2 (example_driver 3 "d3" false) eq_refl eq_refl))).
Defined.

(** ** processDocumentVerification *)

Lemma elem_of_update_where {R} (p : R -> Prop) `{!forall r, Decision (p r)}
    (f : R -> R) (rows : list R) (r' : R) :
  r' ∈ update_where p f rows ->
  exists r, r ∈ rows /\ ((p r /\ r' = f r) \/ (~ p r /\ r' = r)).
Proof.
  unfold update_where. intros Hin.
  apply list_elem_of_In, in_map_iff in Hin as (r & Heq & Hr).
  exists r. split; [by apply list_elem_of_In|].
  destruct (decide (p r)); [left|right]; by split.
Qed.

Lemma existsb_documentType (type : string) (docs : list driverDocuments.row) :
  existsb (fun doc => bool_decide (driverDocuments.documentType doc = type)) docs
  = true
  <-> exists doc, doc ∈ docs /\ driverDocuments.documentType doc = type.
Proof.
  rewrite existsb_exists. split.
  - intros (doc & Hin & Ht). exists doc. split; [by apply list_elem_of_In|].
    by apply bool_decide_eq_true in Ht.
  - intros (doc & Hin & Ht). exists doc. split; [by apply list_elem_of_In|].
    by apply bool_decide_eq_true.
Qed.

(** What the aggregate of [checkAndUpdateDriverVerification] decides. *)
Lemma hasAllRequiredApproved_iff (documents : list driverDocuments.row) :
  hasAllRequiredApproved documents = true
  <-> (exists x, x ∈ documents
                 /\ driverDocuments.documentType x = "license"
                 /\ driverDocuments.status x = "approved")
      /\ (exists x, x ∈ documents
                    /\ driverDocuments.documentType x = "vehicle_registration"
                    /\ driverDocuments.status x = "approved").
Proof.
  unfold hasAllRequiredApproved, requiredDocs. simpl.
  rewrite andb_true_r, andb_true_iff, !existsb_documentType.
  split.
  - intros [(x & Hx & Htx) (y & Hy & Hty)].
    apply list_elem_of_filter in Hx as [? ?].
    apply list_elem_of_filter in Hy as [? ?].
    split; [exists x|exists y]; auto.
  - intros [(x & Hx & Htx & Hsx) (y & Hy & Hty & Hsy)].
    split; [exists x|exists y]; (split; [apply list_elem_of_filter|]); auto.
Qed.

Lemma hasAllRequiredApproved_of_driver (driverId : Z) (db : DB) :
  hasAllRequiredApproved
    (filter (fun doc => driverDocuments.driverId doc = driverId)
            (tbl_driverDocuments db)) = true
  <-> has_approved driverId "license" db
      /\ has_approved driverId "vehicle_registration" db.
Proof.
  rewrite hasAllRequiredApproved_iff. unfold has_approved. split.
  - intros [(x & Hx & Htx & Hsx) (y & Hy & Hty & Hsy)].
    apply list_elem_of_filter in Hx as [? ?].
    apply list_elem_of_filter in Hy as [? ?].
    split; [exists x|exists y]; auto.
  - intros [(x & Hx & Hdx & Htx & Hsx) (y & Hy & Hdy & Hty & Hsy)].
    split; [exists x|exists y]; (split; [apply list_elem_of_filter|]); auto.
Qed.

Lemma processDocumentVerificationTool_found db now documentId approve reason doc :
  document_with_id documentId db = Some doc ->
  let docs' :=
    update_where (fun r => driverDocuments.id r = documentId)
      (document_adjudicate now approve reason) (tbl_driverDocuments db) in
  tbl_driverDocuments
    (processDocumentVerificationTool now documentId approve reason db).2 = docs'
  /\ tbl_drivers
       (processDocumentVerificationTool now documentId approve reason db).2
     = update_where (fun d => drivers.id d = driverDocuments.driverId doc)
         (driver_set_verification
            (hasAllRequiredApproved
               (filter (fun x => driverDocuments.driverId x
                                 = driverDocuments.driverId doc) docs')))
         (tbl_drivers db).
Proof.
  unfold document_with_id. intros Hdoc. simpl.
  unfold processDocumentVerificationTool, checkAndUpdateDriverVerification,
    execute, bind, get, modify, try_catch, succeed, ret.
  simpl.
  rewrite (filter_update_where _ _ (fun r => driverDocuments.id r = documentId))
    by done.
  destruct (filter (fun r => driverDocuments.id r = documentId)
              (tbl_driverDocuments db)) as [|doc0 rest] eqn:Hf; [discriminate|].
  injection Hdoc as ->.
  assert (Hid : driverDocuments.id doc = documentId).
  { assert (Hmem : doc ∈ filter (fun r => driverDocuments.id r = documentId)
                          (tbl_driverDocuments db)) by (rewrite Hf; left).
    by apply list_elem_of_filter in Hmem as [? _]. }
  simpl. destruct (decide (driverDocuments.id doc = documentId)); [|done].
  simpl. done.
Qed.

Lemma processDocumentVerificationTool_missing db now documentId approve reason :
  document_with_id documentId db = None ->
  tbl_driverDocuments
    (processDocumentVerificationTool now documentId approve reason db).2
  = tbl_driverDocuments db
  /\ tbl_drivers
       (processDocumentVerificationTool now documentId approve reason db).2
     = tbl_drivers db.
Proof.
  unfold document_with_id. intros Hnone.
  assert (Hnil : filter (fun r => driverDocuments.id r = documentId)
                   (tbl_driverDocuments db) = []).
  { by destruct (filter _ (tbl_driverDocuments db)). }
  unfold processDocumentVerificationTool, checkAndUpdateDriverVerification,
    execute, bind, get, modify, try_catch, succeed, ret.
  simpl.
  rewrite (filter_update_where _ _ (fun r => driverDocuments.id r = documentId))
    by done.
  rewrite Hnil. simpl. split; [|done].
  by apply update_where_filter_nil.
Qed.

Lemma elem_of_update_where_2 {R} (p : R -> Prop) `{!forall r, Decision (p r)}
    (f : R -> R) (rows : list R) (r : R) :
  r ∈ rows -> (if decide (p r) then f r else r) ∈ update_where p f rows.
Proof.
  unfold update_where. intros Hin.
  apply list_elem_of_In, in_map_iff. exists r. split; [done|].
  by apply list_elem_of_In.
Qed.

Lemma document_id_unique (docs : list driverDocuments.row) x y :
  NoDup (driverDocuments.id <$> docs) ->
  x ∈ docs -> y ∈ docs -> driverDocuments.id x = driverDocuments.id y -> x = y.
Proof.
  induction docs as [|z docs IH]; intros Hnd Hx Hy Hid.
  - by apply not_elem_of_nil in Hx.
  - rewrite fmap_cons in Hnd. apply NoDup_cons in Hnd as [Hz Hnd].
    apply elem_of_cons in Hx as [->|Hx], Hy as [->|Hy]; auto.
    + exfalso. apply Hz. rewrite Hid. by apply list_elem_of_fmap_2.
    + exfalso. apply Hz. rewrite <- Hid. by apply list_elem_of_fmap_2.
Qed.

(** Adjudicating a document of one driver leaves the approved documents of
    every other driver as they were, when document ids are unique. *)
Lemma has_approved_other_driver db now documentId approve reason doc driverId type :
  NoDup (driverDocuments.id <$> tbl_driverDocuments db) ->
  document_with_id documentId db = Some doc ->
  driverId <> driverDocuments.driverId doc ->
  has_approved driverId type
    (processDocumentVerificationTool now documentId approve reason db).2
  <-> has_approved driverId type db.
Proof.
  intros Hnd Hdoc Hother.
  destruct (processDocumentVerificationTool_found db now documentId approve
              reason doc Hdoc) as [Hdocs _].
  simpl in Hdocs. unfold has_approved. rewrite Hdocs.
  assert (Hin : doc ∈ tbl_driverDocuments db
                /\ driverDocuments.id doc = documentId).
  { unfold document_with_id in Hdoc.
    destruct (filter (fun r => driverDocuments.id r = documentId)
                (tbl_driverDocuments db)) as [|x l] eqn:Hf; [discriminate|].
    injection Hdoc as ->.
    assert (Hmem : doc ∈ filter (fun r => driverDocuments.id r = documentId)
                            (tbl_driverDocuments db)) by (rewrite Hf; left).
    apply list_elem_of_filter in Hmem. tauto. }
  destruct Hin as [Hin Hid].
  split.
  - intros (x' & Hx' & Hd & Ht & Hs).
    apply elem_of_update_where in Hx' as (x & Hx & [[Hp ->]|[Hp ->]]).
    + exfalso. apply Hother. rewrite <- Hd. simpl.
      f_equal. apply (document_id_unique (tbl_driverDocuments db)); auto.
      by rewrite Hid.
    + by exists x.
  - intros (x & Hx & Hd & Ht & Hs). exists x. split; [|done].
    pose proof (elem_of_update_where_2
                  (fun r => driverDocuments.id r = documentId)
                  (document_adjudicate now approve reason)
                  (tbl_driverDocuments db) x Hx) as Hmem.
    destruct (decide (driverDocuments.id x = documentId)) as [Hx_id|]; [|done].
    exfalso. apply Hother. rewrite <- Hd. f_equal.
    apply (document_id_unique (tbl_driverDocuments db)); auto.
    by rewrite Hid.
Qed.

Lemma filter_cons_elem {R} (p : R -> Prop) `{!forall r, Decision (p r)}
    (rows : list R) (x : R) (rest : list R) :
  filter p rows = x :: rest -> x ∈ rows /\ p x.
Proof.
  intros Hf.
  assert (Hmem : x ∈ filter p rows) by (rewrite Hf; left).
  apply list_elem_of_filter in Hmem. tauto.
Qed.

Lemma head_filter_elem {R} (p : R -> Prop) `{!forall r, Decision (p r)}
    (rows : list R) (x : R) :
  head (filter p rows) = Some x -> x ∈ rows /\ p x.
Proof.
  destruct (filter p rows) as [|y rest] eqn:Hf; [done|].
  intros [= ->]. by apply (filter_cons_elem p rows x rest).
Qed.

Lemma key_unique {R K} (k : R -> K) (rows : list R) (x y : R) :
  NoDup (k <$> rows) -> x ∈ rows -> y ∈ rows -> k x = k y -> x = y.
Proof.
  induction rows as [|z rows IH]; intros Hnd Hx Hy Hk.
  - by apply not_elem_of_nil in Hx.
  - rewrite fmap_cons in Hnd. apply NoDup_cons in Hnd as [Hz Hnd].
    apply elem_of_cons in Hx as [->|Hx], Hy as [->|Hy]; auto.
    + exfalso. apply Hz. rewrite Hk. by apply list_elem_of_fmap_2.
    + exfalso. apply Hz. rewrite <- Hk. by apply list_elem_of_fmap_2.
Qed.

(** After an adjudication, the flag of the document's driver says whether
    that driver has both required documents approved. *)
Lemma adjudication_owner_flag db now documentId approve reason doc d :
  document_with_id documentId db = Some doc ->
  d ∈ tbl_drivers (processDocumentVerificationTool now documentId approve
                     reason db).2 ->
  drivers.id d = driverDocuments.driverId doc ->
  (drivers.isVerified d = true
   <-> has_approved (drivers.id d) "license"
         (processDocumentVerificationTool now documentId approve reason db).2
       /\ has_approved (drivers.id d) "vehicle_registration"
            (processDocumentVerificationTool now documentId approve reason db).2).
Proof.
  intros Hdoc Hd Hid.
  destruct (processDocumentVerificationTool_found db now documentId approve
              reason doc Hdoc) as [Hdocs Hdrivers].
  simpl in Hdocs, Hdrivers.
  rewrite Hdrivers in Hd.
  apply elem_of_update_where in Hd as (d0 & _ & [[Hp ->]|[Hp ->]]);
    [|contradiction].
  simpl. rewrite hasAllRequiredApproved_iff. unfold has_approved.
  rewrite Hdocs. simpl in Hid. rewrite Hp.
  split.
  - intros [(x & Hx & Htx & Hsx) (y & Hy & Hty & Hsy)].
    apply list_elem_of_filter in Hx as [? ?].
    apply list_elem_of_filter in Hy as [? ?].
    split; [exists x|exists y]; auto.
  - intros [(x & Hx & Hdx & Htx & Hsx) (y & Hy & Hdy & Hty & Hsy)].
    split; [exists x|exists y]; (split; [apply list_elem_of_filter|]); auto.
Qed.

(** C2.  What the code does on an adjudication of an existing document: it
    sets the status of the rows with the document's id to approved or
    rejected and recomputes the flag of the document's driver, which is
    then true exactly when that driver has an approved licence and an
    approved vehicle registration (insurance plays no part); the rows of
    the other drivers are left as they are.  So rejecting the only licence
    or vehicle registration of a driver clears that driver's flag.  A
    resubmission, however, sets a document back to pending without that
    recomputation, and the next adjudication, which is about another
    driver's document, does not repair it: after [resubmission_history]
    and the approval of document 3, driver 1 is still flagged verified
    while the licence of driver 1 is pending. *)
Theorem adjudication_recomputes_owner_only :
  (let db := run resubmission_history empty_db in
   let db' := (processDocumentVerificationTool 9 3 true None db).2 in
   (fun x => (driverDocuments.id x, driverDocuments.driverId x,
              driverDocuments.documentType x, driverDocuments.status x))
     <$> tbl_driverDocuments db'
   = [(1, 1, "license", "pending"); (2, 1, "vehicle_registration", "approved");
      (3, 2, "license", "approved")]
   /\ (fun d => (drivers.id d, drivers.isVerified d)) <$> tbl_drivers db'
      = [(1, true); (2, false)]
   /\ ~ verified_consistent db')
  /\ (forall (db : DB) (now documentId : Z) (approve : bool)
             (reason : option string) (doc : driverDocuments.row),
        document_with_id documentId db = Some doc ->
        let db' :=
          (processDocumentVerificationTool now documentId approve reason db).2 in
        rows_rewritten (fun r => driverDocuments.id r = documentId)
          (fun r r' =>
             driverDocuments.status r' = (if approve then "approved" else "rejected")
             /\ driverDocuments.driverId r' = driverDocuments.driverId r
             /\ driverDocuments.documentType r' = driverDocuments.documentType r)
          (tbl_driverDocuments db) (tbl_driverDocuments db')
        /\ rows_rewritten
             (fun d => drivers.id d = driverDocuments.driverId doc)
             (fun d d' =>
                drivers.id d' = drivers.id d
                /\ (drivers.isVerified d' = true
                    <-> has_approved (drivers.id d) "license" db'
                        /\ has_approved (drivers.id d) "vehicle_registration" db'))
             (tbl_drivers db) (tbl_drivers db'))
  /\ (forall (db : DB) (now documentId : Z) (reason : option string)
             (doc : driverDocuments.row) (d : drivers.row),
        document_with_id documentId db = Some doc ->
        NoDup ((fun x => (driverDocuments.driverId x, driverDocuments.documentType x))
                 <$> tbl_driverDocuments db) ->
        driverDocuments.documentType doc = "license"
        \/ driverDocuments.documentType doc = "vehicle_registration" ->
        d ∈ tbl_drivers
              (processDocumentVerificationTool now documentId false reason db).2 ->
        drivers.id d = driverDocuments.driverId doc ->
        drivers.isVerified d = false).
Proof.
  split; [|split].
  - cbv zeta. split; [vm_compute; reflexivity|].
    split; [vm_compute; reflexivity|].
    intros Hcons.
    destruct (proj1 (Hcons (driver_set_verification true
                              (drivers.mk 1 "d1" "Boris" "+70000000002" "5.00" 0
                                 false false (Some "Lada") (Some "white")
                                 (Some "A001AA") "pending" "pending" 1 1))
                       ltac:(vm_compute; left)) eq_refl)
      as [(x & Hx & Hdx & Ht & Hs) _].
    apply list_elem_of_In in Hx. vm_compute in Hx.
    destruct Hx as [<-|[<-|[<-|[]]]];
      [discriminate Hs|discriminate Ht|discriminate Hdx].
  - intros db now documentId approve reason doc Hdoc. cbv zeta.
    destruct (processDocumentVerificationTool_found db now documentId approve
                reason doc Hdoc) as [Hdocs Hdrivers].
    simpl in Hdocs, Hdrivers. split.
    + rewrite Hdocs. apply update_where_rewritten. intros r _. by repeat split.
    + rewrite Hdrivers. apply update_where_rewritten. intros d0 Hd0.
      split; [done|]. simpl. rewrite Hd0, <- Hdocs.
      apply hasAllRequiredApproved_of_driver.
  - intros db now documentId reason doc d Hdoc Hnd Htype Hd Hid.
    apply not_true_is_false. intros Hflag.
    apply (adjudication_owner_flag db now documentId false reason doc d Hdoc Hd Hid)
      in Hflag.
    destruct (processDocumentVerificationTool_found db now documentId false
                reason doc Hdoc) as [Hdocs _].
    simpl in Hdocs.
    apply head_filter_elem in Hdoc as [Hin Hdocid].
    assert (Hnone : ~ has_approved (drivers.id d)
                        (driverDocuments.documentType doc)
                        (processDocumentVerificationTool now documentId false
                           reason db).2).
    { intros (x' & Hx' & Hdx & Htx & Hsx). rewrite Hdocs in Hx'.
      apply elem_of_update_where in Hx' as (x & Hx & [[_ ->]|[Hne ->]]);
        [discriminate Hsx|].
      apply Hne. rewrite <- Hdocid. f_equal.
      apply (key_unique
               (fun x => (driverDocuments.driverId x, driverDocuments.documentType x))
               (tbl_driverDocuments db)); auto.
      simpl. congruence. }
    destruct Hflag as [Hl Hv]. destruct Htype as [Ht|Ht]; rewrite Ht in Hnone; done.
Qed.

Lemma adjudication_recomputes_owner_only_witness :
  drivers.isVerified
    <$> tbl_drivers
          (processDocumentVerificationTool 9 1 false (Some "expired") scenario_db).2
  = [false; true; false].
Proof.
  assert (Hflip := proj2 (proj2 adjudication_recomputes_owner_only) scenario_db 9 1
                     (Some "expired")
                     (example_document 1 1 license "approved" None)
                     (driver_set_verification false (example_driver 1 "d1" true))
                     eq_refl).
  assert (Hfirst : drivers.isVerified
                     (driver_set_verification false (example_driver 1 "d1" true))
                   = false).
  { apply Hflip.
    - apply (bool_decide_unpack _). vm_compute. exact I.
    - by left.
    - vm_compute. left.
    - reflexivity. }
  vm_compute. reflexivity.
Defined.


(** ** rateRide and updateUserRating *)

Lemma updateUserRating_eq userId userType db :
  updateUserRating userId userType db
  = (Returned tt, rating_written_back userId userType db).
Proof.
  unfold updateUserRating, rating_written_back, ratings_received, try_catch,
    bind, get, modify, ret.
  simpl.
  destruct (ratings.rating <$> filter _ (tbl_ratings db)) as [|x l]; [done|].
  by destruct (decide (userType = "driver")).
Qed.

Lemma rating_written_back_ratings userId userType db :
  tbl_ratings (rating_written_back userId userType db) = tbl_ratings db.
Proof.
  unfold rating_written_back.
  destruct (ratings_received userId userType db); [done|].
  by destruct (decide (userType = "driver")).
Qed.

Lemma rateRide_parties_eq telegramId userType orderData db :
  rateRide_parties telegramId userType orderData db
  = (Returned (parties_of telegramId userType orderData db), db).
Proof.
  unfold rateRide_parties, parties_of, passenger_with_handle,
    driver_with_handle, bind, get, ret.
  destruct userType; simpl.
  - destruct (filter _ (tbl_passengers db)) as [|p l]; [done|]. simpl.
    by destruct (decide (passengers.id p <> orders.passengerId orderData)).
  - destruct (filter _ (tbl_drivers db)) as [|d l]; [done|]. simpl.
    by destruct (decide (Some (drivers.id d) <> orders.acceptedDriverId orderData)).
Qed.

(** [rateRide] read off as a function of the store. *)
Lemma rateRideTool_eq now telegramId orderId userType rating comment db :
  rateRideTool now telegramId orderId userType rating comment db
  = match order_with_id orderId db with
    | None => (mkResult false msg_order_not_found, db)
    | Some o =>
        match parties_of telegramId userType o db with
        | inl early => (early, db)
        | inr (fromUserId, toUserId) =>
            match filter (fun r => ratings.orderId r = orderId
                                   /\ ratings.fromUserId r = fromUserId)
                         (tbl_ratings db) with
            | _ :: _ => (mkResult false msg_already_rated, db)
            | [] =>
                match toUserId with
                | None =>
                    (mkResult false msg_rate_error, set_sequences next_ratings db)
                | Some to =>
                    (mkResult true
                       ("Спасибо за оценку! Вы поставили " +:+ toString rating +:+
                        " звезд."),
                     rating_written_back to (userType_text (counterpart userType))
                       (set_sequences next_ratings
                          (set_tbl_ratings
                             (fun rows => rows ++
                                [new_rating db now orderId fromUserId userType
                                   to rating comment]) db)))
                end
            end
        end
    end.
Proof.
  unfold rateRideTool, order_with_id, execute.
  unfold bind at 1. unfold get at 1.
  destruct (filter (fun o => orders.id o = orderId) (tbl_orders db))
    as [|o l]; [done|].
  simpl. unfold bind at 1. rewrite rateRide_parties_eq.
  destruct (parties_of telegramId userType o db) as [early|[fromUserId toUserId]];
    [done|].
  unfold bind at 1. unfold get at 1.
  destruct (filter _ (tbl_ratings db)) as [|r rs]; [|done].
  unfold bind at 1. unfold insert_ratings.
  destruct toUserId as [to|]; [|done].
  unfold bind at 1. simpl. rewrite updateUserRating_eq. done.
Qed.

Lemma parties_of_spec telegramId userType o db orderId :
  order_with_id orderId db = Some o ->
  match parties_of telegramId userType o db with
  | inl early =>
      early = mkResult false (msg_unauthorized userType)
      /\ forall fromUserId toUserId,
           ~ rating_parties db telegramId orderId userType fromUserId toUserId
  | inr (fromUserId, toUserId) =>
      rating_parties db telegramId orderId userType fromUserId toUserId
      /\ forall fromUserId' toUserId',
           rating_parties db telegramId orderId userType fromUserId' toUserId' ->
           fromUserId' = fromUserId /\ toUserId' = toUserId
  end.
Proof.
  intros Ho. unfold parties_of, rating_parties.
  destruct userType.
  - destruct (passenger_with_handle telegramId db) as [p|] eqn:Hp.
    + destruct (decide (passengers.id p <> orders.passengerId o)) as [Hne|He].
      * split; [done|]. intros f t (o' & Ho' & p' & Hp' & Hid & _).
        rewrite Ho in Ho'. injection Ho' as <-. injection Hp' as <-. done.
      * apply dec_stable in He. split.
        -- exists o. split; [done|]. by exists p.
        -- intros f t (o' & Ho' & p' & Hp' & Hid & -> & ->).
           rewrite Ho in Ho'. injection Ho' as <-. by injection Hp' as <-.
    + split; [done|]. by intros f t (o' & _ & p' & Hp' & _).
  - destruct (driver_with_handle telegramId db) as [d|] eqn:Hd.
    + destruct (decide (Some (drivers.id d) <> orders.acceptedDriverId o))
        as [Hne|He].
      * split; [done|]. intros f t (o' & Ho' & d' & Hd' & Hid & _).
        rewrite Ho in Ho'. injection Ho' as <-. injection Hd' as <-. done.
      * apply dec_stable in He. split.
        -- exists o. split; [done|]. by exists d.
        -- intros f t (o' & Ho' & d' & Hd' & Hid & -> & ->).
           rewrite Ho in Ho'. injection Ho' as <-. by injection Hd' as <-.
    + split; [done|]. by intros f t (o' & _ & d' & Hd' & _).
Qed.

Lemma already_rated_filter db orderId fromUserId :
  already_rated db orderId fromUserId
  <-> filter (fun r => ratings.orderId r = orderId
                       /\ ratings.fromUserId r = fromUserId)
             (tbl_ratings db) <> [].
Proof.
  rewrite filter_nil_not_elem. unfold already_rated. split.
  - intros (r & Hin & Ho & Hf) Hnone. by apply (Hnone r Hin).
  - intros Hsome.
    destruct (decide (Exists (fun r => ratings.orderId r = orderId
                                       /\ ratings.fromUserId r = fromUserId)
                             (tbl_ratings db))) as [Hex|Hnex].
    + apply Exists_exists in Hex as (r & Hin & Ho & Hf). by exists r.
    + exfalso. apply Hsome. intros r Hin Hp. apply Hnex, Exists_exists.
      by exists r.
Qed.

(** C5, refuted as worded: the passenger who placed order 1 is its recorded
    passenger and has not rated it, yet no rating is inserted, because no
    driver has been accepted and the row cannot name whom it rates. *)
Lemma rateRide_needs_accepted_driver : ~ rateRide_inserts_iff_party_and_unrated.
Proof.
  intros Hclaim.
  apply (proj2 (Hclaim scenario_db 9 "p1" 1 passenger 5 None)); [|reflexivity].
  exists 1, None. split.
  - exists (example_order 1 1). split; [reflexivity|].
    exists (example_passenger 1 "p1"). by repeat split.
  - intros (r & Hin & _). by apply not_elem_of_nil in Hin.
Qed.

(** C5, as the code has it, for a score the input schema admits:
    [rateRide] stores a rating exactly when the order exists, the caller is
    the party of the order that the role names, the order names the
    counterpart to be rated (for a passenger: a driver has been accepted)
    and no rating of the order is stored under the caller's id number.  That
    last check compares the order and the id number only, not the role the
    earlier rating was given in.  A caller who is not that party gets the
    "not a party" message, a caller under whose id number the order is
    already rated gets "already rated", and every failure leaves the rows
    of every table, ratings and profiles included, as they were. *)
Theorem rateRide_guards (db : DB) (now : Z) (telegramId : string) (orderId : Z)
    (userType : UserType) (rating : Z) (comment : option string) :
  rating_in_schema rating ->
  let out := (rateRideTool now telegramId orderId userType rating comment db).1 in
  let db' := (rateRideTool now telegramId orderId userType rating comment db).2 in
  (tbl_ratings db' <> tbl_ratings db
   <-> exists fromUserId toUserId,
         rating_parties db telegramId orderId userType fromUserId (Some toUserId)
         /\ ~ already_rated db orderId fromUserId)
  /\ (success out = true <-> tbl_ratings db' <> tbl_ratings db)
  /\ (forall fromUserId toUserId,
        rating_parties db telegramId orderId userType fromUserId (Some toUserId) ->
        ~ already_rated db orderId fromUserId ->
        tbl_ratings db'
        = tbl_ratings db
          ++ [new_rating db now orderId fromUserId userType toUserId rating comment])
  /\ (success out = false -> same_rows db db')
  /\ (int4 orderId -> order_with_id orderId db = None ->
      out = mkResult false msg_order_not_found)
  /\ (forall o, order_with_id orderId db = Some o ->
        (forall fromUserId toUserId,
           ~ rating_parties db telegramId orderId userType fromUserId toUserId) ->
        out = mkResult false (msg_unauthorized userType))
  /\ (forall fromUserId toUserId,
        rating_parties db telegramId orderId userType fromUserId toUserId ->
        already_rated db orderId fromUserId ->
        out = mkResult false msg_already_rated).
Proof.
  intros _. cbv zeta. rewrite rateRideTool_eq.
  assert (Hsame : same_rows db db) by (by repeat split).
  destruct (order_with_id orderId db) as [o|] eqn:Ho.
  2:{ split; [split; [done|]|].
      { intros (f & t & (o & Ho' & _) & _). by rewrite Ho in Ho'. }
      split; [done|]. split.
      { intros f t (o & Ho' & _). by rewrite Ho in Ho'. }
      split; [done|]. split; [done|]. split; [done|].
      intros f t (o & Ho' & _). by rewrite Ho in Ho'. }
  pose proof (parties_of_spec telegramId userType o db orderId Ho) as Hparties.
  destruct (parties_of telegramId userType o db) as [early|[f t]].
  { destruct Hparties as [-> Hnot]. cbn [fst snd success].
    split; [split; [done|]|].
    { intros (f & t & Hp & _). by apply Hnot in Hp. }
    split; [done|]. split.
    { intros f t Hp. by apply Hnot in Hp. }
    split; [done|]. split; [done|]. split; [done|].
    intros f t Hp. by apply Hnot in Hp. }
  destruct Hparties as [Hp Huniq].
  pose proof (already_rated_filter db orderId f) as Hrated.
  destruct (filter _ (tbl_ratings db)) as [|r rs] eqn:Hf.
  - assert (Hfresh : ~ already_rated db orderId f) by (rewrite Hrated; auto).
    destruct t as [to|]; cbn [fst snd success].
    + assert (Hrows : tbl_ratings
                        (rating_written_back to (userType_text (counterpart userType))
                           (set_sequences next_ratings
                              (set_tbl_ratings
                                 (fun rows => rows ++
                                    [new_rating db now orderId f userType to
                                       rating comment]) db)))
                      = tbl_ratings db
                        ++ [new_rating db now orderId f userType to rating comment])
        by (by rewrite rating_written_back_ratings).
      assert (Hnew : tbl_ratings db
                     ++ [new_rating db now orderId f userType to rating comment]
                     <> tbl_ratings db).
      { intros Heq. apply (f_equal length) in Heq. rewrite length_app in Heq.
        simpl in Heq. lia. }
      rewrite Hrows.
      split; [split; [by exists f, to|done]|].
      split; [done|]. split.
      { intros f' t' Hp' _. by destruct (Huniq _ _ Hp') as [-> [= ->]]. }
      split; [done|]. split; [done|]. split.
      { intros o' _ Hnot. by apply Hnot in Hp. }
      intros f' t' Hp' Hr'. destruct (Huniq _ _ Hp') as [-> _]. contradiction.
    + split; [split; [done|]|].
      { intros (f' & t' & Hp' & _). by destruct (Huniq _ _ Hp') as [_ ?]. }
      split; [done|]. split.
      { intros f' t' Hp' _. by destruct (Huniq _ _ Hp') as [_ ?]. }
      split; [intros _; by repeat split|]. split; [done|]. split.
      { intros o' _ Hnot. by apply Hnot in Hp. }
      intros f' t' Hp' Hr'. destruct (Huniq _ _ Hp') as [-> _]. contradiction.
  - assert (Hdup : already_rated db orderId f) by (by apply Hrated).
    cbn [fst snd success].
    split; [split; [done|]|].
    { intros (f' & t' & Hp' & Hfresh). destruct (Huniq _ _ Hp') as [-> _].
      contradiction. }
    split; [done|]. split.
    { intros f' t' Hp' Hfresh. destruct (Huniq _ _ Hp') as [-> _]. contradiction. }
    split; [done|]. split; [done|]. split; [|done].
    intros o' _ Hnot. by apply Hnot in Hp.
Qed.

Lemma rateRide_guards_witness :
  success (rateRideTool 9 "p1" 1 passenger 3 None rated_db).1 = true
  /\ tbl_ratings (rateRideTool 9 "p1" 1 passenger 3 None rated_db).2
     = tbl_ratings rated_db
       ++ [ratings.mk 3 1 1 "passenger" 2 "driver" 3 None 9]
  /\ (rateRideTool 9 "p2" 1 passenger 3 None rated_db).1
     = mkResult false msg_not_order_passenger
  /\ (rateRideTool 9 "p1" 1 passenger 4 None
        (rateRideTool 9 "p1" 1 passenger 3 None rated_db).2).1
     = mkResult false msg_already_rated
  /\ (rateRideTool 9 "p1" 7 passenger 3 None rated_db).1
     = mkResult false msg_order_not_found.
Proof.
  assert (H3 : rating_in_schema 3) by (unfold rating_in_schema; lia).
  assert (H4 : rating_in_schema 4) by (unfold rating_in_schema; lia).
  pose proof (rateRide_guards rated_db 9 "p1" 1 passenger 3 None H3)
    as (Hins & Hok & Hrow & _).
  pose proof (rateRide_guards rated_db 9 "p2" 1 passenger 3 None H3)
    as (_ & _ & _ & _ & _ & Hparty & _).
  pose proof (rateRide_guards (rateRideTool 9 "p1" 1 passenger 3 None rated_db).2
                9 "p1" 1 passenger 4 None H4)
    as (_ & _ & _ & _ & _ & _ & Hdup).
  pose proof (rateRide_guards rated_db 9 "p1" 7 passenger 3 None H3)
    as (_ & _ & _ & _ & Hmissing & _).
  assert (Hp : rating_parties rated_db "p1" 1 passenger 1 (Some 2)).
  { exists (order_accept (example_offer 2 1 2 "550") (example_order 1 1)).
    split; [reflexivity|]. exists (example_passenger 1 "p1"). by repeat split. }
  assert (Hfresh : ~ already_rated rated_db 1 1).
  { intros (r & Hin & Ho & _). apply list_elem_of_In in Hin. simpl in Hin.
    destruct Hin as [<-|[<-|[]]]; discriminate. }
  split; [apply Hok, Hins; by exists 1, 2|].
  split; [exact (Hrow 1 2 Hp Hfresh)|].
  split.
  { apply (Hparty (order_accept (example_offer 2 1 2 "550") (example_order 1 1)));
      [reflexivity|].
    intros f t (o & Ho & p & Hpass & Hid & _).
    vm_compute in Ho, Hpass. injection Ho as <-. injection Hpass as <-.
    discriminate. }
  split.
  - apply (Hdup 1 (Some 2)).
    + exists (order_accept (example_offer 2 1 2 "550") (example_order 1 1)).
      split; [reflexivity|]. exists (example_passenger 1 "p1"). by repeat split.
    + exists (ratings.mk 3 1 1 "passenger" 2 "driver" 3 None 9).
      split; [|done]. vm_compute. do 2 right. left.
  - apply Hmissing; [unfold int4; lia|reflexivity].
Defined.

(** ** The aggregate rating *)

Lemma nearest_hundredths_nearest (m : positive) (e : Z) :
  let n := nearest_hundredths m e in
  if 0 <=? e then n = 100 * (Z.pos m * 2 ^ e)
  else (2 * n - 1) * 2 ^ (- e) <= 200 * Z.pos m < (2 * n + 1) * 2 ^ (- e).
Proof.
  unfold nearest_hundredths. simpl.
  destruct (0 <=? e) eqn:He; [lia|].
  apply Z.leb_gt in He.
  assert (Hpow : 2 ^ (- e + 1) = 2 * 2 ^ (- e)).
  { rewrite Z.pow_add_r by lia. lia. }
  assert (Hpos : 0 < 2 ^ (- e)) by (apply Z.pow_pos_nonneg; lia).
  rewrite Hpow.
  pose proof (Z.div_mod (200 * Z.pos m + 2 ^ (- e)) (2 * 2 ^ (- e))) as Hdm.
  pose proof (Z.mod_pos_bound (200 * Z.pos m + 2 ^ (- e)) (2 * 2 ^ (- e))) as Hb.
  set (q := (200 * Z.pos m + 2 ^ (- e)) / (2 * 2 ^ (- e))) in *.
  set (r := (200 * Z.pos m + 2 ^ (- e)) mod (2 * 2 ^ (- e))) in *.
  nia.
Qed.

(** *** Binary64 on the integers of a rating history *)

Lemma pow2_pos (k : Z) : 0 <= k -> 0 < 2 ^ k.
Proof. intros. apply Z.pow_pos_nonneg; lia. Qed.

Lemma pow2_succ (k : Z) : 0 <= k -> 2 ^ (k + 1) = 2 * 2 ^ k.
Proof. intros. rewrite Z.pow_add_r by lia. lia. Qed.

Lemma digits2_pos_bounds (p : positive) :
  2 ^ (Z.pos (digits2_pos p) - 1) <= Z.pos p < 2 ^ Z.pos (digits2_pos p).
Proof.
  induction p as [p IH|p IH|]; cbn [digits2_pos].
  - rewrite Pos2Z.inj_succ.
    replace (Z.succ (Z.pos (digits2_pos p)) - 1) with (Z.pos (digits2_pos p) - 1 + 1)
      by lia.
    replace (Z.succ (Z.pos (digits2_pos p))) with (Z.pos (digits2_pos p) + 1) by lia.
    rewrite !pow2_succ by lia. lia.
  - rewrite Pos2Z.inj_succ.
    replace (Z.succ (Z.pos (digits2_pos p)) - 1) with (Z.pos (digits2_pos p) - 1 + 1)
      by lia.
    replace (Z.succ (Z.pos (digits2_pos p))) with (Z.pos (digits2_pos p) + 1) by lia.
    rewrite !pow2_succ by lia. lia.
  - simpl. lia.
Qed.

Lemma Zdigits2_unique (z d : Z) :
  2 ^ (d - 1) <= z < 2 ^ d -> 0 < d -> Zdigits2 z = d.
Proof.
  intros [Hlo Hhi] Hd.
  assert (Hz : 0 < z).
  { pose proof (pow2_pos (d - 1)). lia. }
  destruct z as [|p|p]; try lia. cbn [Zdigits2].
  pose proof (digits2_pos_bounds p) as [Hlo' Hhi'].
  set (d0 := Z.pos (digits2_pos p)) in *.
  assert (Hd0 : 0 < d0) by (subst d0; lia).
  destruct (Z.lt_trichotomy d0 d) as [Hlt|[Heq|Hgt]]; [|done|].
  - exfalso.
    assert (2 ^ d0 <= 2 ^ (d - 1)) by (apply Z.pow_le_mono_r; lia). lia.
  - exfalso.
    assert (2 ^ d <= 2 ^ (d0 - 1)) by (apply Z.pow_le_mono_r; lia). lia.
Qed.

Lemma Zdigits2_bounds (z : Z) :
  0 < z -> 0 < Zdigits2 z /\ 2 ^ (Zdigits2 z - 1) <= z < 2 ^ Zdigits2 z.
Proof.
  destruct z as [|p|p]; try lia. intros _. cbn [Zdigits2].
  split; [lia|apply digits2_pos_bounds].
Qed.

Lemma iter_xO (p k : positive) : Z.pos (Pos.iter xO p k) = Z.pos p * 2 ^ Z.pos k.
Proof.
  induction k as [|k IH] using Pos.peano_ind.
  - simpl. lia.
  - rewrite Pos.iter_succ, Pos2Z.inj_succ.
    replace (Z.succ (Z.pos k)) with (Z.pos k + 1) by lia.
    rewrite pow2_succ by lia.
    change (Z.pos (Pos.iter xO p k)~0) with (2 * Z.pos (Pos.iter xO p k)).
    rewrite IH. lia.
Qed.

Lemma iter_pos_nat {A} (f : A -> A) (p : positive) (x : A) :
  SpecFloat.iter_pos f p x = @Nat.iter (Pos.to_nat p) A f x.
Proof.
  revert x. induction p as [p IH|p IH|]; intros x; cbn [SpecFloat.iter_pos].
  - rewrite !IH, Pos2Nat.inj_xI.
    replace (S (2 * Pos.to_nat p)) with (Pos.to_nat p + (Pos.to_nat p + 1))%nat by lia.
    rewrite !Nat.iter_add. simpl. done.
  - rewrite !IH, Pos2Nat.inj_xO.
    replace (2 * Pos.to_nat p)%nat with (Pos.to_nat p + Pos.to_nat p)%nat by lia.
    by rewrite Nat.iter_add.
  - done.
Qed.

Lemma shr_1_even (m : Z) :
  0 < m ->
  shr_1 (Build_shr_record (2 * m) false false) = Build_shr_record m false false.
Proof. destruct m as [|p|p]; try lia. done. Qed.

Lemma iter_shr_1_exact (k : nat) (m : Z) :
  0 < m ->
  @Nat.iter k shr_record shr_1 (Build_shr_record (m * 2 ^ Z.of_nat k) false false)
  = Build_shr_record m false false.
Proof.
  revert m. induction k as [|k IH]; intros m Hm.
  - simpl. f_equal. lia.
  - rewrite Nat2Z.inj_succ.
    replace (Z.succ (Z.of_nat k)) with (Z.of_nat k + 1) by lia.
    rewrite pow2_succ by lia.
    replace (m * (2 * 2 ^ Z.of_nat k)) with ((2 * m) * 2 ^ Z.of_nat k) by lia.
    rewrite Nat.iter_succ, IH by lia. by apply shr_1_even.
Qed.

(** ** Rounding an integer that fits *)

Lemma fexp_normal (d : Z) : -1021 <= d -> fexp 53 1024 d = d - 53.
Proof. intros. unfold fexp, emin. lia. Qed.

(** A mantissa of 53 bits followed by [k] zero bits is rounded to the 53
    bits. *)
Lemma binary_round_aux_exact (m e k : Z) :
  2 ^ 52 <= m < 2 ^ 53 -> 0 <= k -> -1000 <= e -> e + k <= 900 ->
  binary_round_aux 53 1024 false (m * 2 ^ k) e loc_Exact
  = S754_finite false (Z.to_pos m) (e + k).
Proof.
  intros Hm Hk He Hek.
  assert (Hd : Zdigits2 (m * 2 ^ k) = 53 + k).
  { apply Zdigits2_unique; [|lia].
    replace (53 + k - 1) with (52 + k) by lia.
    rewrite !Z.pow_add_r by lia. pose proof (pow2_pos k Hk). nia. }
  assert (Hd' : Zdigits2 m = 53) by (apply Zdigits2_unique; lia).
  unfold binary_round_aux, shr_fexp. rewrite Hd, fexp_normal by lia.
  replace (53 + k + e - 53 - e) with k by lia.
  cbn [shr_record_of_loc].
  assert (Hshr : shr (Build_shr_record (m * 2 ^ k) false false) e k
                 = (Build_shr_record m false false, e + k)).
  { unfold shr. destruct k as [|pk|pk]; [|..]; try lia.
    - f_equal; [f_equal; lia|lia].
    - rewrite iter_pos_nat. rewrite <- (positive_nat_Z pk) at 1.
      by rewrite iter_shr_1_exact by lia. }
  rewrite Hshr. cbn [shr_m loc_of_shr_record round_nearest_even].
  rewrite Hd', fexp_normal by lia.
  replace (53 + (e + k) - 53 - (e + k)) with 0 by lia.
  cbn [shr shr_record_of_loc shr_m].
  destruct m as [|pm|pm]; try lia.
  assert (Hle : (e + k <=? 1024 - 53) = true) by (apply Z.leb_le; lia).
  rewrite Hle. done.
Qed.

Lemma canonical_mantissa_bounds (v : Z) :
  0 < v < 2 ^ 53 ->
  0 < Zdigits2 v <= 53
  /\ 2 ^ 52 <= v * 2 ^ (53 - Zdigits2 v) < 2 ^ 53.
Proof.
  intros [Hv Hhi]. destruct (Zdigits2_bounds v Hv) as (Hd & Hlo & Hup).
  assert (Hd53 : Zdigits2 v <= 53).
  { destruct (Z.le_gt_cases (Zdigits2 v) 53) as [|Hgt]; [done|].
    assert (2 ^ 53 <= 2 ^ (Zdigits2 v - 1)) by (apply Z.pow_le_mono_r; lia). lia. }
  split; [lia|].
  set (d := Zdigits2 v) in *.
  assert (H52 : 2 ^ 52 = 2 ^ (d - 1) * 2 ^ (53 - d)).
  { rewrite <- Z.pow_add_r by lia. f_equal. lia. }
  assert (H53 : 2 ^ 53 = 2 ^ d * 2 ^ (53 - d)).
  { rewrite <- Z.pow_add_r by lia. f_equal. lia. }
  pose proof (pow2_pos (53 - d)).
  split; [rewrite H52|rewrite H53]; nia.
Qed.

(** [M * 2^e] is the integer [v]: rounding it gives the number of [v]. *)
Lemma binary_round_int (M : positive) (e v : Z) :
  0 < v < 2 ^ 53 -> -900 <= e <= 0 -> Z.pos M = v * 2 ^ (- e) ->
  binary_round 53 1024 false M e = canonical v.
Proof.
  intros Hv He HM.
  destruct (canonical_mantissa_bounds v Hv) as (Hdv & Hmant).
  set (dv := Zdigits2 v) in *.
  assert (HdM : Z.pos (digits2_pos M) = dv - e).
  { change (Z.pos (digits2_pos M)) with (Zdigits2 (Z.pos M)).
    apply Zdigits2_unique; [|lia]. rewrite HM.
    destruct (Zdigits2_bounds v (proj1 Hv)) as (_ & Hlo & Hup). fold dv in Hlo, Hup.
    replace (dv - e - 1) with (dv - 1 + - e) by lia.
    replace (dv - e) with (dv + - e) by lia.
    rewrite !Z.pow_add_r by lia. pose proof (pow2_pos (- e)). nia. }
  unfold binary_round. rewrite HdM, fexp_normal by lia.
  replace (dv - e + e - 53) with (dv - 53) by lia.
  unfold shl_align, canonical. fold dv.
  destruct (dv - 53 - e) as [|pk|pk] eqn:Hk.
  - assert (HM0 : Z.pos M = v * 2 ^ (53 - dv) * 2 ^ 0).
    { rewrite HM. change (2 ^ 0) with 1. rewrite Z.mul_1_r. do 2 f_equal. lia. }
    rewrite HM0, binary_round_aux_exact by lia. f_equal. lia.
  - assert (HMk : Z.pos M = v * 2 ^ (53 - dv) * 2 ^ Z.pos pk).
    { rewrite HM, <- Z.mul_assoc, <- Z.pow_add_r by lia. do 2 f_equal. lia. }
    rewrite HMk, binary_round_aux_exact by lia. f_equal. lia.
  - assert (Hmz : Z.pos (Pos.iter xO M pk) = v * 2 ^ (53 - dv) * 2 ^ 0).
    { rewrite iter_xO, HM, <- Z.mul_assoc, <- Z.pow_add_r by lia.
      change (2 ^ 0) with 1. rewrite Z.mul_1_r. do 2 f_equal. lia. }
    rewrite Hmz, binary_round_aux_exact by lia. f_equal. lia.
Qed.

Lemma number_of_int_canonical (v : Z) :
  0 < v < 2 ^ 53 -> number_of_int v = canonical v.
Proof.
  intros Hv. unfold number_of_int, binary_normalize.
  destruct v as [|p|p]; try lia.
  apply binary_round_int; [done|lia|]. simpl. lia.
Qed.

(** *** The sum of the scores is exact *)

Lemma shl_align_value (mx : positive) (ex ez : Z) :
  ez <= ex -> Z.pos (shl_align mx ex ez).1 = Z.pos mx * 2 ^ (ex - ez).
Proof.
  intros Hle. unfold shl_align.
  destruct (ez - ex) as [|d|d] eqn:Hd; cbn [fst].
  - replace (ex - ez) with 0 by lia. change (2 ^ 0) with 1. lia.
  - lia.
  - rewrite iter_xO. do 2 f_equal. lia.
Qed.

Lemma number_add_canonical (a b : Z) :
  0 < a -> 0 < b -> a + b < 2 ^ 53 ->
  number_add (canonical a) (canonical b) = canonical (a + b).
Proof.
  intros Ha Hb Hab.
  destruct (canonical_mantissa_bounds a) as (Hda & Hma); [lia|].
  destruct (canonical_mantissa_bounds b) as (Hdb & Hmb); [lia|].
  unfold number_add, canonical at 1 2, SFadd. cbn [cond_Zopp].
  set (ea := Zdigits2 a - 53) in *. set (eb := Zdigits2 b - 53) in *.
  set (ez := Z.min ea eb).
  pose proof (shl_align_value (Z.to_pos (a * 2 ^ (53 - Zdigits2 a))) ea ez) as Hxa.
  pose proof (shl_align_value (Z.to_pos (b * 2 ^ (53 - Zdigits2 b))) eb ez) as Hxb.
  rewrite Z2Pos.id in Hxa, Hxb by lia.
  rewrite <- Pos2Z.inj_add. unfold binary_normalize.
  apply binary_round_int; [lia|lia|].
  rewrite Pos2Z.inj_add, Hxa, Hxb by lia.
  rewrite <- !Z.mul_assoc, <- !Z.pow_add_r by lia.
  replace (53 - Zdigits2 a + (ea - ez)) with (- ez) by lia.
  replace (53 - Zdigits2 b + (eb - ez)) with (- ez) by lia.
  lia.
Qed.

Lemma sum_scores_exact (scores : list Z) (a : Z) :
  Forall rating_in_schema scores ->
  0 < a -> a + foldr Z.add 0 scores < 2 ^ 53 ->
  fold_left (fun sum r => number_add sum (number_of_int r)) scores (canonical a)
  = canonical (a + foldr Z.add 0 scores).
Proof.
  intros Hall. revert a.
  induction Hall as [|s l Hs Hl IH]; intros a Ha Hsum;
    cbn [fold_left foldr] in *.
  - by rewrite Z.add_0_r.
  - unfold rating_in_schema in Hs.
    assert (0 <= foldr Z.add 0 l).
    { clear -Hl. induction Hl as [|x l Hx Hl IH]; cbn [foldr];
        [|unfold rating_in_schema in Hx]; lia. }
    rewrite number_of_int_canonical, number_add_canonical by lia.
    rewrite IH by lia. f_equal. lia.
Qed.

Lemma sum_scores_bounds (scores : list Z) :
  Forall rating_in_schema scores ->
  Z.of_nat (length scores) <= foldr Z.add 0 scores <= 5 * Z.of_nat (length scores).
Proof.
  induction 1 as [|s l Hs Hl IH]; simpl length; simpl foldr;
    [|unfold rating_in_schema in Hs]; lia.
Qed.

Lemma avgRating_canonical (scores : list Z) :
  Forall rating_in_schema scores -> scores <> [] ->
  Z.of_nat (length scores) < 2 ^ 31 ->
  avgRating scores
  = number_div (canonical (foldr Z.add 0 scores))
               (canonical (Z.of_nat (length scores))).
Proof.
  intros Hall Hne Hlen. unfold avgRating.
  pose proof (sum_scores_bounds scores Hall) as Hb.
  destruct Hall as [|s l Hs Hl]; [done|]. clear Hne.
  unfold rating_in_schema in Hs.
  rewrite (number_of_int_canonical (Z.of_nat _)) by (simpl length in *; lia).
  f_equal. cbn [fold_left].
  rewrite (number_of_int_canonical s) by lia.
  change (number_add (number_of_int 0) (canonical s)) with (canonical s).
  apply sum_scores_exact; [done|lia|]. simpl length in *. simpl foldr in *. lia.
Qed.

(** *** The quotient *)

Lemma shr_m_of_loc (m : Z) (l : location) : shr_m (shr_record_of_loc m l) = m.
Proof. by destruct l as [|[]]. Qed.

Lemma shr_1_half (mrs : shr_record) :
  0 <= shr_m mrs -> shr_m (shr_1 mrs) = shr_m mrs / 2.
Proof.
  destruct mrs as [m r s]. cbn [shr_m]. intros Hm.
  rewrite <- Z.div2_div. by destruct m as [|[p|p|]|p].
Qed.

Lemma round_nearest_even_bounds (mx : Z) (lx : location) :
  mx <= round_nearest_even mx lx <= mx + 1.
Proof.
  destruct lx as [|[]]; cbn [round_nearest_even]; try lia.
  destruct (Z.even mx); lia.
Qed.

Lemma shr_fexp_53 (m e : Z) (l : location) :
  2 ^ 52 <= m < 2 ^ 53 -> -1000 <= e ->
  shr_fexp 53 1024 m e l = (shr_record_of_loc m l, e).
Proof.
  intros Hm He. unfold shr_fexp.
  rewrite (Zdigits2_unique m 53), fexp_normal by lia.
  by replace (53 + e - 53 - e) with 0 by lia.
Qed.

Lemma shr_fexp_54 (m e : Z) (l : location) :
  2 ^ 53 <= m < 2 ^ 54 -> -1000 <= e ->
  shr_fexp 53 1024 m e l = (shr_1 (shr_record_of_loc m l), e + 1).
Proof.
  intros Hm He. unfold shr_fexp.
  rewrite (Zdigits2_unique m 54), fexp_normal by lia.
  by replace (54 + e - 53 - e) with 1 by lia.
Qed.

(** Rounding a quotient of 53 or 54 bits moves it by less than two units
    of its last place. *)
Lemma binary_round_aux_bounds (q e : Z) (l : location) :
  2 ^ 52 <= q < 2 ^ 54 -> -1000 <= e <= 900 ->
  exists (m : positive) (e2 : Z),
    binary_round_aux 53 1024 false q e l = S754_finite false m e2
    /\ e <= e2 <= e + 2
    /\ q - 1 <= Z.pos m * 2 ^ (e2 - e) <= q + 2.
Proof.
  intros Hq He.
  assert (Hfinish : forall m1 e1, 2 ^ 52 <= m1 <= 2 ^ 53 -> -1000 <= e1 <= 902 ->
    exists (m : positive) (e2 : Z),
      (let '(mrs, e'') := shr_fexp 53 1024 m1 e1 loc_Exact in
       match shr_m mrs with
       | 0 => S754_zero false
       | Z.pos m => if e'' <=? 1024 - 53 then S754_finite false m e''
                    else S754_infinity false
       | Z.neg _ => S754_nan
       end) = S754_finite false m e2
      /\ e1 <= e2 <= e1 + 1 /\ Z.pos m * 2 ^ (e2 - e1) = m1).
  { intros m1 e1 Hm1 He1.
    destruct (decide (m1 = 2 ^ 53)) as [->|Hne].
    - rewrite shr_fexp_54 by lia. exists (Z.to_pos (2 ^ 52)), (e1 + 1).
      assert (Hle : (e1 + 1 <=? 1024 - 53) = true) by (apply Z.leb_le; lia).
      cbn [shr_record_of_loc]. change (shr_m (shr_1 _)) with (2 ^ 52).
      change (2 ^ 52) with (Z.pos (Z.to_pos (2 ^ 52))) at 1.
      cbv iota beta. rewrite Hle. split; [done|]. split; [lia|].
      replace (e1 + 1 - e1) with 1 by lia. done.
    - rewrite shr_fexp_53 by lia. cbn [shr_record_of_loc shr_m].
      destruct m1 as [|p|p]; try lia. exists p, e1.
      assert (Hle : (e1 <=? 1024 - 53) = true) by (apply Z.leb_le; lia).
      rewrite Hle. split; [done|]. split; [lia|].
      replace (e1 - e1) with 0 by lia. change (2 ^ 0) with 1. lia. }
  unfold binary_round_aux.
  destruct (decide (q < 2 ^ 53)) as [Hlt|Hge].
  - rewrite shr_fexp_53 by lia.
    rewrite shr_m_of_loc.
    pose proof (round_nearest_even_bounds q
                  (loc_of_shr_record (shr_record_of_loc q l))) as Hr.
    set (m1 := round_nearest_even q _) in *.
    destruct (Hfinish m1 e) as (m & e2 & Heq & He2 & Hval); [lia|lia|].
    exists m, e2. split; [done|]. split; [lia|]. lia.
  - rewrite shr_fexp_54 by lia.
    pose proof (shr_1_half (shr_record_of_loc q l)) as Hhalf.
    rewrite shr_m_of_loc in Hhalf. specialize (Hhalf ltac:(lia)).
    pose proof (round_nearest_even_bounds (shr_m (shr_1 (shr_record_of_loc q l)))
                  (loc_of_shr_record (shr_1 (shr_record_of_loc q l)))) as Hr.
    set (m1 := round_nearest_even _ _) in *.
    rewrite Hhalf in Hr.
    pose proof (Z.div_mod q 2 ltac:(lia)) as Hdm.
    pose proof (Z.mod_pos_bound q 2 ltac:(lia)) as Hmb.
    destruct (Hfinish m1 (e + 1)) as (m & e2 & Heq & He2 & Hval); [lia|lia|].
    exists m, e2. split; [done|]. split; [lia|].
    replace (e2 - e) with (e2 - (e + 1) + 1) by lia.
    rewrite pow2_succ by lia. lia.
Qed.

Lemma SFdiv_core_53 (mx my : positive) (ex ey : Z) :
  2 ^ 52 <= Z.pos mx < 2 ^ 53 -> 2 ^ 52 <= Z.pos my < 2 ^ 53 ->
  -500 <= ex <= 500 -> -500 <= ey <= 500 ->
  exists l : location,
    SFdiv_core_binary 53 1024 (Z.pos mx) ex (Z.pos my) ey
    = (Z.pos mx * 2 ^ 53 / Z.pos my, ex - ey - 53, l).
Proof.
  intros Hx Hy Hex Hey. unfold SFdiv_core_binary.
  rewrite (Zdigits2_unique (Z.pos mx) 53), (Zdigits2_unique (Z.pos my) 53) by lia.
  rewrite fexp_normal by lia.
  replace (Z.min (53 + ex - (53 + ey) - 53) (ex - ey))
    with (ex - ey - 53) by lia.
  replace (ex - ey - (ex - ey - 53)) with 53 by lia.
  rewrite Z.shiftl_mul_pow2 by lia. unfold Z.div.
  destruct (Z.div_eucl (Z.pos mx * 2 ^ 53) (Z.pos my)) as [q r].
  by eexists.
Qed.

Lemma Zdigits2_le_shift (a b k : Z) :
  0 < a -> 0 < b -> 0 <= k -> a < b * 2 ^ k -> Zdigits2 a <= Zdigits2 b + k.
Proof.
  intros Ha Hb Hk Hab.
  destruct (Zdigits2_bounds a Ha) as (Hda & Hla & _).
  destruct (Zdigits2_bounds b Hb) as (Hdb & _ & Hub).
  destruct (Z.le_gt_cases (Zdigits2 a) (Zdigits2 b + k)) as [|Hgt]; [done|].
  exfalso.
  assert (2 ^ (Zdigits2 b + k) <= 2 ^ (Zdigits2 a - 1))
    by (apply Z.pow_le_mono_r; lia).
  rewrite Z.pow_add_r in * by lia. pose proof (pow2_pos k Hk). nia.
Qed.

(** The binary64 quotient of a sum of scores by their count prints, with
    two decimals, as a hundredth nearest to the exact quotient. *)
Lemma quotient_hundredths (sum count : Z) :
  0 < count < 2 ^ 31 -> count <= sum <= 5 * count ->
  exists (m : positive) (e : Z),
    number_div (canonical sum) (canonical count) = S754_finite false m e
    /\ e < 0
    /\ (2 * nearest_hundredths m e - 1) * count <= 200 * sum
    /\ 200 * sum <= (2 * nearest_hundredths m e + 1) * count.
Proof.
  intros Hn HS.
  destruct (canonical_mantissa_bounds sum) as (HdS & HmS); [lia|].
  destruct (canonical_mantissa_bounds count) as (Hdn & Hmn); [lia|].
  assert (Hdd : Zdigits2 sum <= Zdigits2 count + 3)
    by (apply Zdigits2_le_shift; lia).
  unfold number_div, canonical, SFdiv.
  set (dS := Zdigits2 sum) in *. set (dn := Zdigits2 count) in *.
  set (mS := sum * 2 ^ (53 - dS)) in *. set (mn := count * 2 ^ (53 - dn)) in *.
  assert (HpS : Z.pos (Z.to_pos mS) = mS) by (apply Z2Pos.id; lia).
  assert (Hpn : Z.pos (Z.to_pos mn) = mn) by (apply Z2Pos.id; lia).
  destruct (SFdiv_core_53 (Z.to_pos mS) (Z.to_pos mn) (dS - 53) (dn - 53))
    as (l & Hcore); [lia..|].
  rewrite Hcore, HpS, Hpn. cbn [xorb].
  set (q := mS * 2 ^ 53 / mn).
  set (e' := dS - 53 - (dn - 53) - 53).
  assert (Hqdiv : q * mn <= mS * 2 ^ 53 < (q + 1) * mn).
  { pose proof (Z.div_mod (mS * 2 ^ 53) mn ltac:(lia)) as Hdm.
    pose proof (Z.mod_pos_bound (mS * 2 ^ 53) mn ltac:(lia)) as Hmb.
    fold q in Hdm. lia. }
  assert (Hq : 2 ^ 52 <= q < 2 ^ 54).
  { split.
    - apply Z.div_le_lower_bound; [lia|]. nia.
    - apply Z.div_lt_upper_bound; [lia|]. nia. }
  destruct (binary_round_aux_bounds q e' l Hq) as (m & e & Heq & He & Hval);
    [subst e'; lia|].
  exists m, e. split; [done|]. split; [subst e'; lia|].
  pose proof (nearest_hundredths_nearest m e) as Hnear. cbv zeta in Hnear.
  destruct (0 <=? e) eqn:Hsign; [apply Z.leb_le in Hsign; subst e'; lia|].
  set (h := nearest_hundredths m e) in *.
  set (W := 2 ^ (- e')).
  set (X := Z.pos m * 2 ^ (e - e')) in *.
  assert (HW : 0 < W) by (apply pow2_pos; subst e'; lia).
  assert (HP : 0 < 2 ^ (e - e')) by (apply pow2_pos; lia).
  assert (HWP : 2 ^ (- e) * 2 ^ (e - e') = W).
  { rewrite <- Z.pow_add_r by lia. subst W. f_equal. lia. }
  assert (HX : (2 * h - 1) * W <= 200 * X < (2 * h + 1) * W).
  { rewrite <- HWP. subst X. nia. }
  assert (HB : 0 < 2 ^ (53 - dn)) by (apply pow2_pos; lia).
  assert (HWB : mS * 2 ^ 53 = sum * W * 2 ^ (53 - dn)).
  { subst mS W. rewrite <- !Z.mul_assoc, <- !Z.pow_add_r by (subst e'; lia).
    do 2 f_equal. subst e'. lia. }
  assert (Hquot : q * count <= sum * W < (q + 1) * count).
  { rewrite HWB in Hqdiv. subst mn. nia. }
  assert (HWbig : 400 * count < W) by nia.
  split.
  - destruct (Z.le_gt_cases ((2 * h - 1) * count) (200 * sum)) as [|Hgt]; [done|].
    exfalso.
    assert ((200 * sum + 1) * W <= (2 * h - 1) * count * W)
      by (apply Z.mul_le_mono_nonneg_r; lia).
    assert ((2 * h - 1) * W * count <= 200 * X * count)
      by (apply Z.mul_le_mono_nonneg_r; lia).
    assert (X * count <= (q + 2) * count)
      by (apply Z.mul_le_mono_nonneg_r; lia).
    lia.
  - destruct (Z.le_gt_cases (200 * sum) ((2 * h + 1) * count)) as [|Hgt]; [done|].
    exfalso.
    assert (((2 * h + 1) * count + 1) * W <= 200 * sum * W)
      by (apply Z.mul_le_mono_nonneg_r; lia).
    assert (200 * X * count < (2 * h + 1) * W * count)
      by (apply Z.mul_lt_mono_pos_r; lia).
    assert ((q - 1) * count <= X * count)
      by (apply Z.mul_le_mono_nonneg_r; lia).
    lia.
Qed.

Lemma fixed2_digits (h : Z) :
  100 <= h <= 500 ->
  fixed2 h = pretty (h / 100) +:+ "." +:+ pretty (h / 10 mod 10) +:+ pretty (h mod 10).
Proof.
  intros Hh.
  assert (Hall : Forall (fun h => fixed2 h = pretty (h / 100) +:+ "."
                            +:+ pretty (h / 10 mod 10) +:+ pretty (h mod 10))
                        (seqZ 100 401)).
  { apply (bool_decide_unpack _). vm_compute. reflexivity. }
  rewrite Forall_forall in Hall. apply Hall, elem_of_seqZ. lia.
Qed.

Lemma avgRating_text (scores : list Z) :
  Forall rating_in_schema scores -> scores <> [] ->
  Z.of_nat (length scores) < 2 ^ 31 ->
  exists h : Z,
    (2 * h - 1) * Z.of_nat (length scores) <= 200 * foldr Z.add 0 scores
    /\ 200 * foldr Z.add 0 scores <= (2 * h + 1) * Z.of_nat (length scores)
    /\ toFixed2 (avgRating scores)
       = pretty (h / 100) +:+ "." +:+ pretty (h / 10 mod 10) +:+ pretty (h mod 10).
Proof.
  intros Hall Hne Hlen.
  pose proof (sum_scores_bounds scores Hall) as Hb.
  assert (Hpos : 0 < Z.of_nat (length scores)) by (destruct scores; [done|simpl; lia]).
  rewrite avgRating_canonical by done.
  destruct (quotient_hundredths (foldr Z.add 0 scores) (Z.of_nat (length scores)))
    as (m & e & -> & He & Hlo & Hup); [lia|lia|].
  exists (nearest_hundredths m e). split; [done|]. split; [done|].
  cbn [toFixed2]. rewrite fixed2_digits; [done|]. nia.
Qed.

Lemma ratings_received_app userId userType db rows :
  ratings.rating <$>
    filter (fun r => ratings.toUserId r = userId /\ ratings.toUserType r = userType)
           (tbl_ratings db ++ rows)
  = ratings_received userId userType db
    ++ (ratings.rating <$>
          filter (fun r => ratings.toUserId r = userId
                           /\ ratings.toUserType r = userType) rows).
Proof. unfold ratings_received. by rewrite filter_app, fmap_app. Qed.

(** C6: a stored rating makes [rateRide] recompute the target's aggregate
    from every score the target has received in that role, the new one
    included.  With every score within the input schema and a count that
    fits the [integer] column, the profile row of the target gets the count
    as [totalRides] and as [rating] the digits of [h / 100] with two
    decimals, for a hundredth [h / 100] nearest to sum/count:
    [|sum/count - h/100| <= 1/200].  Where sum/count lies half-way between
    two hundredths, [toFixed(2)] decides on the binary64 quotient: 33/8
    prints as "4.13", 41/40 as "1.02".  A third rating of 3 after 5 and 4
    writes "4.00" and 3 rides.  For a user without ratings [getUserRating]
    succeeds with "5.00", a count of 0 and no comments. *)
Theorem rating_recomputed_from_history :
  (forall (db : DB) (now : Z) (telegramId : string) (orderId : Z)
          (userType : UserType) (rating : Z) (comment : option string)
          (fromUserId toUserId : Z),
     rating_in_schema rating ->
     Forall rating_in_schema
       (ratings_received toUserId (userType_text (counterpart userType)) db) ->
     rating_parties db telegramId orderId userType fromUserId (Some toUserId) ->
     ~ already_rated db orderId fromUserId ->
     let db' := (rateRideTool now telegramId orderId userType rating comment db).2 in
     let role := userType_text (counterpart userType) in
     let scores := ratings_received toUserId role db' in
     let count := Z.of_nat (length scores) in
     let sum := foldr Z.add 0 scores in
     int4 count ->
     scores = ratings_received toUserId role db ++ [rating]
     /\ exists h : Z,
          (2 * h - 1) * count <= 200 * sum <= (2 * h + 1) * count
          /\ let text := pretty (h / 100) +:+ "." +:+ pretty (h / 10 mod 10)
                           +:+ pretty (h mod 10) in
             match userType with
             | passenger =>
                 rows_rewritten (fun d => drivers.id d = toUserId)
                   (fun d d' =>
                      drivers.rating d' = text
                      /\ drivers.totalRides d' = count
                      /\ drivers.id d' = drivers.id d)
                   (tbl_drivers db) (tbl_drivers db')
                 /\ tbl_passengers db' = tbl_passengers db
             | driver =>
                 rows_rewritten (fun p => passengers.id p = toUserId)
                   (fun p p' =>
                      passengers.rating p' = text
                      /\ passengers.totalRides p' = count
                      /\ passengers.id p' = passengers.id p)
                   (tbl_passengers db) (tbl_passengers db')
                 /\ tbl_drivers db' = tbl_drivers db
             end)
  /\ (ratings_received 2 "driver" rated_db = [5; 4]
      /\ (fun d => (drivers.id d, drivers.rating d, drivers.totalRides d))
           <$> tbl_drivers (rateRideTool 9 "p1" 1 passenger 3 None rated_db).2
         = [(1, "5.00", 0); (2, "4.00", 3); (3, "5.00", 0)])
  /\ (toFixed2 (avgRating [4; 4; 4; 4; 4; 4; 4; 5]) = "4.13"
      /\ toFixed2 (avgRating (2 :: replicate 39 1)) = "1.02")
  /\ (forall (db : DB) (userId : Z) (userType : UserType),
        int4 userId ->
        ratings_received userId (userType_text userType) db = [] ->
        getUserRatingTool userId userType db
        = (getUserRating.mk true (Some "5.00") (Some 0) (Some []) msg_no_ratings,
           db)).
Proof.
  split; [|split; [split; vm_compute; reflexivity
                  |split; [split; vm_compute; reflexivity|]]].
  - intros db now telegramId orderId userType rating comment f t
      Hrating Hstored Hp Hfresh.
    cbv zeta. rewrite rateRideTool_eq.
    destruct Hp as (o & Ho & Hrole). rewrite Ho.
    pose proof (parties_of_spec telegramId userType o db orderId Ho) as Hparties.
    destruct (parties_of telegramId userType o db) as [early|[f' t']].
    { destruct Hparties as [_ Hnot]. exfalso. apply (Hnot f (Some t)).
      by exists o. }
    destruct Hparties as [_ Huniq].
    destruct (Huniq f (Some t)) as [<- <-]; [by exists o|].
    rewrite already_rated_filter in Hfresh.
    destruct (filter _ (tbl_ratings db)) as [|r rs];
      [|exfalso; by apply Hfresh].
    cbn [snd].
    set (role := userType_text (counterpart userType)) in *.
    set (row := new_rating db now orderId f userType t rating comment).
    set (db1 := set_sequences next_ratings
                  (set_tbl_ratings (fun rows => rows ++ [row]) db)).
    assert (Hscores : ratings_received t role db1
                      = ratings_received t role db ++ [rating]).
    { unfold ratings_received at 1. subst db1. simpl.
      rewrite ratings_received_app. f_equal.
      rewrite filter_cons_True by (by subst row role). done. }
    assert (Hsame : ratings_received t role (rating_written_back t role db1)
                    = ratings_received t role db1).
    { unfold ratings_received. by rewrite rating_written_back_ratings. }
    rewrite Hsame, Hscores. intros Hcount. split; [done|].
    destruct (avgRating_text (ratings_received t role db ++ [rating]))
      as (h & Hlo & Hup & Htext).
    { apply Forall_app. split; [done|]. by constructor. }
    { by destruct (ratings_received t role db). }
    { unfold int4 in Hcount. lia. }
    exists h. split; [done|]. rewrite <- Htext.
    unfold rating_written_back. rewrite Hscores.
    destruct (ratings_received t role db ++ [rating]) as [|x l] eqn:Hl.
    { by destruct (ratings_received t role db). }
    subst role. destruct userType; simpl.
    + split; [|done]. apply update_where_rewritten. intros d _. by repeat split.
    + split; [|done]. apply update_where_rewritten. intros d _. by repeat split.
  - intros db userId userType _ Hnone.
    unfold ratings_received in Hnone. apply fmap_nil_inv in Hnone.
    unfold getUserRatingTool, execute, bind, get, ret. simpl.
    by rewrite Hnone.
Qed.

Lemma rating_recomputed_from_history_witness :
  ratings_received 2 "driver"
    (rateRideTool 9 "p1" 1 passenger 3 None rated_db).2 = [5; 4; 3]
  /\ getUserRatingTool 3 driver rated_db
     = (getUserRating.mk true (Some "5.00") (Some 0) (Some []) msg_no_ratings,
        rated_db).
Proof.
  split.
  - refine (proj1 (proj1 rating_recomputed_from_history rated_db 9 "p1" 1
                     passenger 3 None 1 2 _ _ _ _ _)).
    + unfold rating_in_schema. lia.
    + vm_compute. repeat constructor; discriminate.
    + exists (order_accept (example_offer 2 1 2 "550") (example_order 1 1)).
      split; [reflexivity|]. exists (example_passenger 1 "p1"). by repeat split.
    + intros (r & Hin & Ho & _). apply list_elem_of_In in Hin. simpl in Hin.
      destruct Hin as [<-|[<-|[]]]; discriminate.
    + vm_compute. split; [discriminate|reflexivity].
  - apply (proj2 (proj2 (proj2 rating_recomputed_from_history))).
    + unfold int4. lia.
    + reflexivity.
Defined.

(** ** respondToCounterOffer *)

(** C7, refuted as worded: a counter price of 0 is a supplied number, but
    the test [else if (counterPrice)] takes it for a missing one and the
    original proposal is marked rejected instead. *)
Lemma zero_counter_price_rejects : ~ counter_price_appends.
Proof.
  intros Hclaim.
  destruct (Hclaim negotiating_db 9 "d1" 1 0
              (example_driver 1 "d1" true)
              (priceNegotiations.mk 1 1 1 "passenger" 1 "driver" "450" "pending" 0)
              eq_refl eq_refl) as (row & Heq & _).
  vm_compute in Heq. discriminate.
Qed.

(** [respondToCounterOffer] read off as a function of the store. *)
Lemma respondToCounterOfferTool_eq now t negotiationId accept counterPrice db :
  respondToCounterOfferTool now t negotiationId accept counterPrice db
  = match driver_with_handle t db with
    | None => (mkResult false msg_driver_not_found, db)
    | Some d =>
        if accept then
          (mkResult true msg_counter_accepted,
           set_tbl_priceNegotiations
             (update_where (fun n => priceNegotiations.id n = negotiationId)
                (negotiation_set_status "accepted")) db)
        else
          match truthy_number counterPrice with
          | Some price =>
              match negotiation_with_id negotiationId db with
              | None => (mkResult false msg_negotiation_not_found, db)
              | Some n =>
                  if decide (decimal_8_2 price) then
                    (mkResult true
                       ("Новое встречное предложение " +:+ toString price +:+
                        " руб. отправлено пассажиру."),
                     set_sequences next_priceNegotiations
                       (set_tbl_priceNegotiations
                          (fun rows => rows ++
                             [priceNegotiations.mk
                                (seq_priceNegotiations (sequences db))
                                (priceNegotiations.orderId n) (drivers.id d)
                                "driver" (priceNegotiations.fromUserId n)
                                "passenger" (toString price) "pending" now]) db))
                  else (mkResult false msg_respond_error, db)
              end
          | None =>
              (mkResult true msg_counter_rejected,
               set_tbl_priceNegotiations
                 (update_where (fun n => priceNegotiations.id n = negotiationId)
                    (negotiation_set_status "rejected")) db)
          end
    end.
Proof.
  unfold respondToCounterOfferTool, driver_with_handle, negotiation_with_id,
    execute, bind, get, modify, succeed, fail, ret, insert_priceNegotiations, throw.
  simpl.
  destruct (filter _ (tbl_drivers db)) as [|d ds]; [done|]. simpl.
  destruct accept; [done|].
  destruct (truthy_number counterPrice) as [price|]; [|done].
  destruct (filter _ (tbl_priceNegotiations db)) as [|n ns]; [done|]. simpl.
  destruct (decide (parameters_fit [] price)) as [Hfit|Hfit],
           (decide (decimal_8_2 price)) as [Hdec|Hdec]; try done.
  - exfalso. apply Hdec. exact (proj1 (parameters_fit_nil price) Hfit).
  - exfalso. apply Hfit. exact (proj2 (parameters_fit_nil price) Hdec).
Qed.

(** C7, as the code has it: answering an existing negotiation with
    accept = false and a counter price other than 0 that the price column
    can hold appends exactly one pending row on the same order, from the
    responding driver to the user id that sent the original proposal, at
    the new price; every row that was there, the original proposal
    included, stays as it was.  The new row is addressed to a passenger
    whoever sent the original: for a proposal a passenger sent, the answer
    goes back to its sender.  A price the column cannot hold makes the
    insert raise: the tool answers its generic failure and the table stays
    as it was. *)
Theorem respondToCounterOffer_counter_appends (db : DB) (now : Z)
    (telegramId : string) (negotiationId counterPrice : Z)
    (d : drivers.row) (n : priceNegotiations.row) :
  driver_with_handle telegramId db = Some d ->
  negotiation_with_id negotiationId db = Some n ->
  counterPrice <> 0 ->
  let out := (respondToCounterOfferTool now telegramId negotiationId false
                (Some counterPrice) db).1 in
  let db' := (respondToCounterOfferTool now telegramId negotiationId false
                (Some counterPrice) db).2 in
  let row :=
    priceNegotiations.mk (seq_priceNegotiations (sequences db))
      (priceNegotiations.orderId n) (drivers.id d) "driver"
      (priceNegotiations.fromUserId n) "passenger"
      (toString counterPrice) "pending" now in
  (decimal_8_2 counterPrice ->
     success out = true
     /\ tbl_priceNegotiations db' = tbl_priceNegotiations db ++ [row]
     /\ (priceNegotiations.fromUserType n = "passenger" ->
         priceNegotiations.toUserId row = priceNegotiations.fromUserId n
         /\ priceNegotiations.toUserType row = priceNegotiations.fromUserType n))
  /\ (~ decimal_8_2 counterPrice ->
      out = mkResult false msg_respond_error
      /\ tbl_priceNegotiations db' = tbl_priceNegotiations db).
Proof.
  intros Hd Hn Hprice. cbv zeta. rewrite respondToCounterOfferTool_eq, Hd, Hn.
  assert (Htruthy : truthy_number (Some counterPrice) = Some counterPrice)
    by (by destruct counterPrice).
  rewrite Htruthy.
  destruct (decide (decimal_8_2 counterPrice)) as [Hfit|Hfit].
  - split; [|done]. intros _. split; [done|]. split; [done|].
    intros ->. done.
  - split; [done|]. intros _. done.
Qed.

(** The chain of the specification: the passenger proposed 450, the driver
    answers 470; the passenger's row is still pending and a second row runs
    from the driver to the passenger.  An answer of 1000000 is refused. *)
Lemma respondToCounterOffer_counter_appends_witness :
  tbl_priceNegotiations
    (respondToCounterOfferTool 9 "d1" 1 false (Some 470) negotiating_db).2
  = [priceNegotiations.mk 1 1 1 "passenger" 1 "driver" "450" "pending" 0;
     priceNegotiations.mk 2 1 1 "driver" 1 "passenger" "470" "pending" 9]
  /\ (respondToCounterOfferTool 9 "d1" 1 false (Some 1000000) negotiating_db).1
     = mkResult false msg_respond_error.
Proof.
  split.
  - refine (proj1 (proj2 (proj1
             (respondToCounterOffer_counter_appends negotiating_db 9 "d1" 1 470
                (example_driver 1 "d1" true)
                (priceNegotiations.mk 1 1 1 "passenger" 1 "driver" "450"
                   "pending" 0)
                eq_refl eq_refl _) _))).
    + discriminate.
    + unfold decimal_8_2. lia.
  - refine (proj1 (proj2
             (respondToCounterOffer_counter_appends negotiating_db 9 "d1" 1
                1000000 (example_driver 1 "d1" true)
                (priceNegotiations.mk 1 1 1 "passenger" 1 "driver" "450"
                   "pending" 0)
                eq_refl eq_refl _) _)).
    + discriminate.
    + unfold decimal_8_2. lia.
Defined.

(** Without a registered driver every branch fails and writes nothing. *)
Lemma respondToCounterOffer_unknown_driver db now telegramId negotiationId
    accept counterPrice :
  driver_with_handle telegramId db = None ->
  respondToCounterOfferTool now telegramId negotiationId accept counterPrice db
  = (mkResult false msg_driver_not_found, db).
Proof.
  unfold driver_with_handle, respondToCounterOfferTool, execute, bind, get,
    fail, ret.
  intros Hd. simpl.
  by destruct (filter _ (tbl_drivers db)).
Qed.

(** Without the negotiation, only the counter-price branch notices. *)
Lemma respondToCounterOffer_unknown_negotiation db now telegramId negotiationId
    accept counterPrice d :
  driver_with_handle telegramId db = Some d ->
  negotiation_with_id negotiationId db = None ->
  respondToCounterOfferTool now telegramId negotiationId accept counterPrice db
  = (if accept then mkResult true msg_counter_accepted
     else match truthy_number counterPrice with
          | Some _ => mkResult false msg_negotiation_not_found
          | None => mkResult true msg_counter_rejected
          end,
     db).
Proof.
  unfold driver_with_handle, negotiation_with_id, respondToCounterOfferTool,
    execute, bind, get, modify, succeed, fail, ret.
  intros Hd Hn. simpl.
  destruct (filter _ (tbl_drivers db)) as [|d0 ds]; [discriminate|]. simpl.
  assert (Hnil : filter (fun n => priceNegotiations.id n = negotiationId)
                   (tbl_priceNegotiations db) = []).
  { by destruct (filter _ (tbl_priceNegotiations db)). }
  assert (Hsame : forall st,
            set_tbl_priceNegotiations
              (update_where (fun n => priceNegotiations.id n = negotiationId)
                 (negotiation_set_status st)) db = db).
  { intros st. unfold set_tbl_priceNegotiations.
    rewrite update_where_filter_nil by done. by destruct db. }
  destruct accept; simpl.
  - by rewrite Hsame.
  - destruct (truthy_number counterPrice); simpl.
    + by rewrite Hnil.
    + by rewrite Hsame.
Qed.

(** C9, at the failing input: driver d1 is registered and there is no
    negotiation 99, yet accepting it and rejecting it both report success;
    only the counter-price branch answers "negotiation not found". *)
Theorem respondToCounterOffer_missing_negotiation :
  negotiation_with_id 99 scenario_db = None
  /\ respondToCounterOfferTool 9 "d1" 99 true None scenario_db
     = (mkResult true msg_counter_accepted, scenario_db)
  /\ respondToCounterOfferTool 9 "d1" 99 false None scenario_db
     = (mkResult true msg_counter_rejected, scenario_db)
  /\ respondToCounterOfferTool 9 "d1" 99 false (Some 470) scenario_db
     = (mkResult false msg_negotiation_not_found, scenario_db)
  /\ respondToCounterOfferTool 9 "nobody" 99 true None scenario_db
     = (mkResult false msg_driver_not_found, scenario_db).
Proof.
  split; [reflexivity|].
  split; [|split; [|split]].
  - exact (respondToCounterOffer_unknown_negotiation scenario_db 9 "d1" 99 true
             None (example_driver 1 "d1" true) eq_refl eq_refl).
  - exact (respondToCounterOffer_unknown_negotiation scenario_db 9 "d1" 99 false
             None (example_driver 1 "d1" true) eq_refl eq_refl).
  - exact (respondToCounterOffer_unknown_negotiation scenario_db 9 "d1" 99 false
             (Some 470) (example_driver 1 "d1" true) eq_refl eq_refl).
  - exact (respondToCounterOffer_unknown_driver scenario_db 9 "nobody" 99 true
             None eq_refl).
Qed.

(** * The tools as writes to the store *)

Lemma registerPassenger_writes now t f p db :
  rtc write db (registerPassengerTool now t f p db).2.
Proof.
  unfold registerPassengerTool, execute, bind, get, ret, insert_passengers.
  simpl.
  destruct (filter (fun x => passengers.telegramId x = t) (tbl_passengers db))
    as [|x l] eqn:Hf; simpl; [|done].
  apply rtc_once.
  by apply (write_passenger db
              (passengers.mk (seq_passengers (sequences db)) t f p "5.00" 0 now now)).
Qed.

Lemma registerDriver_writes now t f p m c n db :
  rtc write db (registerDriverTool now t f p m c n db).2.
Proof.
  unfold registerDriverTool, execute, bind, get, ret, insert_drivers.
  simpl.
  destruct (filter (fun x => drivers.telegramId x = t) (tbl_drivers db))
    as [|x l] eqn:Hf; simpl; [|done].
  apply rtc_once.
  by apply (write_driver db
              (drivers.mk (seq_drivers (sequences db)) t f p "5.00" 0 false false
                 (Some m) (Some c) (Some n) "pending" "pending" now now)).
Qed.

Lemma createOrder_writes now t a b price db :
  rtc write db (createOrderTool now t a b price db).2.
Proof.
  unfold createOrderTool, execute, bind, get, ret, insert_orders, throw.
  simpl.
  destruct (filter (fun x => passengers.telegramId x = t) (tbl_passengers db))
    as [|x l] eqn:Hf; simpl; [done|].
  apply filter_cons_elem in Hf as [Hin _].
  destruct (decide (parameters_fit [] price)); simpl; [|done].
  apply rtc_once.
  by apply (write_order db
              (orders.mk (seq_orders (sequences db)) (passengers.id x) a b
                 (toString price) None "pending" None now now) x).
Qed.

Lemma acceptOffer_writes offerId orderId db :
  rtc write db (acceptOfferTool offerId orderId db).2.
Proof.
  destruct (offer_with_id offerId db) as [offer|] eqn:Hoffer.
  - destruct (acceptOfferTool_found db offerId orderId offer Hoffer)
      as (_ & _ & ->).
    apply head_filter_elem in Hoffer as [Hin Hid].
    apply rtc_once. by apply write_accept.
  - by rewrite acceptOfferTool_missing.
Qed.

Lemma makeCounterOffer_writes now o t d price db :
  rtc write db (makeCounterOfferTool now o t d price db).2.
Proof.
  unfold makeCounterOfferTool, execute, bind, get, fail, succeed, ret,
    insert_priceNegotiations, throw.
  simpl.
  destruct (filter (fun x => passengers.telegramId x = t) (tbl_passengers db))
    as [|x l]; simpl; [done|].
  destruct (decide (parameters_fit [o; d] price)); simpl; [|done].
  apply rtc_once.
  by apply (write_negotiation db
              (priceNegotiations.mk (seq_priceNegotiations (sequences db)) o
                 (passengers.id x) "passenger" d "driver" (toString price)
                 "pending" now)).
Qed.

Lemma makeOffer_writes now t o price msg db :
  rtc write db (makeOfferTool now t o price msg db).2.
Proof.
  unfold makeOfferTool, execute, bind, get, fail, succeed, ret,
    insert_driverOffers, throw.
  simpl.
  destruct (filter (fun x => drivers.telegramId x = t) (tbl_drivers db))
    as [|d l] eqn:Hd; simpl; [done|].
  apply filter_cons_elem in Hd as [Hin _].
  destruct (drivers.isVerified d); simpl; [|done].
  destruct (filter _ (tbl_driverOffers db)) as [|x xs] eqn:Hf; simpl; [|done].
  destruct (decide (parameters_fit [o] price)); simpl; [|done].
  apply rtc_once.
  by apply (write_offer db
              (driverOffers.mk (seq_driverOffers (sequences db)) o (drivers.id d)
                 (toString price) "pending" (or_null msg) now now) d).
Qed.

Lemma setDriverStatus_writes t b db :
  rtc write db (setDriverStatusTool t b db).2.
Proof.
  unfold setDriverStatusTool, execute, bind, get, modify, ret.
  simpl.
  destruct (filter (fun x => drivers.telegramId x = t) (tbl_drivers db))
    as [|d l]; simpl; [done|].
  apply rtc_once, write_online.
Qed.

Lemma respondToCounterOffer_writes now t n a price db :
  rtc write db (respondToCounterOfferTool now t n a price db).2.
Proof.
  unfold respondToCounterOfferTool, execute, bind, get, modify, fail, succeed,
    ret, insert_priceNegotiations, throw.
  simpl.
  destruct (filter (fun x => drivers.telegramId x = t) (tbl_drivers db))
    as [|d l]; simpl; [done|].
  destruct a; simpl.
  - apply rtc_once, write_negotiation_status. by left.
  - destruct (truthy_number price) as [v|]; simpl.
    + destruct (filter _ (tbl_priceNegotiations db)) as [|x xs]; simpl; [done|].
      destruct (decide (parameters_fit [] v)); simpl; [|done].
      apply rtc_once.
      by apply (write_negotiation db
                  (priceNegotiations.mk (seq_priceNegotiations (sequences db))
                     (priceNegotiations.orderId x) (drivers.id d) "driver"
                     (priceNegotiations.fromUserId x) "passenger" (toString v)
                     "pending" now)).
    + apply rtc_once, write_negotiation_status. by right.
Qed.

Lemma uploadDocument_writes now t ty data db :
  rtc write db (uploadDocumentTool now t ty data db).2.
Proof.
  unfold uploadDocumentTool, execute, bind, get, modify, ret,
    insert_driverDocuments.
  simpl.
  destruct (filter (fun x => drivers.telegramId x = t) (tbl_drivers db))
    as [|d l] eqn:Hd; simpl; [done|].
  apply filter_cons_elem in Hd as [Hin _].
  destruct (filter _ (tbl_driverDocuments db)) as [|x xs] eqn:Hf; simpl.
  - apply rtc_once.
    by apply (write_document db
                (driverDocuments.mk (seq_driverDocuments (sequences db))
                   (drivers.id d) (documentType_text ty) (Some data) "pending"
                   None now now) d ty).
  - apply rtc_once, write_resubmit.
Qed.

Lemma processDocumentVerification_writes now d a r db :
  rtc write db (processDocumentVerificationTool now d a r db).2.
Proof.
  unfold processDocumentVerificationTool, checkAndUpdateDriverVerification,
    execute, bind, get, modify, try_catch, succeed, ret.
  simpl.
  destruct (filter _ (update_where _ _ (tbl_driverDocuments db))) as [|x xs];
    simpl.
  - apply rtc_once, write_adjudicate.
  - eapply rtc_l; [apply (write_adjudicate db now d a r)|].
    apply rtc_once.
    by apply (write_verification
                (set_tbl_driverDocuments
                   (update_where (fun r0 => driverDocuments.id r0 = d)
                      (document_adjudicate now a r)) db)).
Qed.

Lemma rateRide_writes now t o u r c db :
  rtc write db (rateRideTool now t o u r c db).2.
Proof.
  rewrite rateRideTool_eq.
  destruct (order_with_id o db) as [ord|] eqn:Hord; [|done].
  destruct (parties_of t u ord db) as [early|[f to]] eqn:Hparties; [done|].
  destruct (filter _ (tbl_ratings db)) as [|x xs] eqn:Hf; [|done].
  destruct to as [to|]; [|apply rtc_once, write_rating_refused].
  simpl.
  assert (Horder : ord ∈ tbl_orders db /\ orders.id ord = o
                   /\ is_Some (orders.acceptedDriverId ord)).
  { apply head_filter_elem in Hord as [Hin Hid]. split; [done|]. split; [done|].
    unfold parties_of in Hparties. destruct u.
    - destruct (passenger_with_handle t db) as [p|]; [|done].
      destruct (decide _); [done|]. injection Hparties as _ Hto.
      rewrite Hto. by eexists.
    - destruct (driver_with_handle t db) as [d|]; [|done].
      destruct (decide _) as [|He]; [done|]. apply dec_stable in He.
      rewrite <- He. by eexists. }
  destruct Horder as (Hin & Hid & Hacc).
  eapply rtc_l.
  { by apply (write_rating db (new_rating db now o f u to r c) ord). }
  unfold rating_written_back.
  destruct (ratings_received _ _ _) as [|s ss]; [done|].
  destruct (decide (userType_text (counterpart u) = "driver")).
  - apply rtc_once, write_driver_rating.
  - apply rtc_once, write_passenger_rating.
Qed.

(** Every call is a sequence of at most two such writes. *)
Lemma perform_writes now c db : rtc write db (perform now c db).
Proof.
  destruct c; simpl.
  - apply registerPassenger_writes.
  - apply createOrder_writes.
  - apply acceptOffer_writes.
  - apply makeCounterOffer_writes.
  - apply registerDriver_writes.
  - apply makeOffer_writes.
  - apply setDriverStatus_writes.
  - apply respondToCounterOffer_writes.
  - apply uploadDocument_writes.
  - apply processDocumentVerification_writes.
  - apply rateRide_writes.
Qed.

(** What holds of the empty store and survives every write holds after
    every history. *)
Lemma run_invariant (Inv : DB -> Prop) :
  Inv empty_db ->
  (forall db db', Inv db -> write db db' -> Inv db') ->
  forall history, Inv (run history empty_db).
Proof.
  intros Hinit Hstep history.
  assert (Hrtc : forall db db', Inv db -> rtc write db db' -> Inv db').
  { intros db db' Hdb Hw. induction Hw; eauto. }
  generalize empty_db Hinit.
  induction history as [|[now c] rest IH]; intros db Hdb; simpl; [done|].
  apply IH. apply (Hrtc db); [done|]. apply perform_writes.
Qed.

(** * Invariants of the histories *)

Lemma fmap_update_where {R K} (p : R -> Prop) `{!forall r, Decision (p r)}
    (f : R -> R) (k : R -> K) (rows : list R) :
  (forall r, k (f r) = k r) ->
  k <$> update_where p f rows = k <$> rows.
Proof.
  intros Hk. unfold update_where.
  induction rows as [|r rows IH]; [done|].
  change (k (if decide (p r) then f r else r)
            :: (k <$> map (fun r => if decide (p r) then f r else r) rows)
          = k r :: (k <$> rows)).
  f_equal; [|exact IH].
  destruct (decide (p r)); [apply Hk|done].
Qed.

Lemma Forall_update_where {R} (p : R -> Prop) `{!forall r, Decision (p r)}
    (f : R -> R) (P : R -> Prop) (rows : list R) :
  (forall r, P r -> p r -> P (f r)) ->
  Forall P rows -> Forall P (update_where p f rows).
Proof.
  intros Hf. unfold update_where.
  induction 1 as [|r rows Hr _ IH]; simpl; constructor; [|exact IH].
  destruct (decide (p r)); auto.
Qed.

Lemma keys_fresh_insert {R} (k : R -> Z) (rows : list R) (r : R) (next : Z) :
  k r = next ->
  keys_fresh (k <$> rows) next ->
  keys_fresh (k <$> (rows ++ [r])) (next + 1).
Proof.
  intros Hr [Hnd Hlt]. rewrite fmap_app. simpl. rewrite Hr. split.
  - apply NoDup_app. split; [done|]. split; [|apply NoDup_singleton].
    intros i Hi Hnext. apply list_elem_of_singleton in Hnext as ->.
    rewrite Forall_forall in Hlt. specialize (Hlt _ Hi). lia.
  - apply Forall_app. split.
    + eapply Forall_impl; [exact Hlt|]. simpl. intros; lia.
    + constructor; [lia|constructor].
Qed.

Lemma keys_fresh_skip (ids : list Z) (next : Z) :
  keys_fresh ids next -> keys_fresh ids (next + 1).
Proof.
  intros [Hnd Hlt]. split; [done|].
  eapply Forall_impl; [exact Hlt|]. simpl. intros; lia.
Qed.

Ltac keys_step :=
  first
    [ assumption
    | rewrite fmap_update_where by done; assumption
    | apply keys_fresh_insert; [done|assumption]
    | apply keys_fresh_skip; assumption ].

(** In every store a history of calls produces, the ids of each table are
    distinct and lie below the table's sequence. *)
Theorem primary_keys_kept (history : list (Z * call)) :
  primary_keys (run history empty_db).
Proof.
  apply run_invariant.
  - unfold primary_keys, keys_fresh. simpl.
    repeat split; constructor.
  - intros db db' (Hp & Hd & Hdoc & Ho & Hf & Hn & Hr) Hw.
    destruct Hw; unfold primary_keys; simpl;
      (split; [|split; [|split; [|split; [|split; [|split]]]]]); keys_step.
Qed.

Lemma NoDup_insert_key {R K} (k : R -> K) (rows : list R) (r : R) :
  NoDup (k <$> rows) ->
  (forall x, x ∈ rows -> k x <> k r) ->
  NoDup (k <$> (rows ++ [r])).
Proof.
  intros Hnd Hnew. rewrite fmap_app. apply NoDup_app.
  split; [done|]. split; [|apply NoDup_singleton].
  intros key Hkey Hr. apply list_elem_of_singleton in Hr as ->.
  apply list_elem_of_fmap in Hkey as (x & Hx & Hin).
  by apply (Hnew x Hin).
Qed.

(** In every store a history of calls produces, no two passengers share a
    Telegram handle and no two drivers do. *)
Theorem handles_unique_kept (history : list (Z * call)) :
  handles_unique (run history empty_db).
Proof.
  apply run_invariant.
  - split; constructor.
  - intros db db' [Hp Hd] Hw.
    destruct Hw; unfold handles_unique; simpl; split;
      try assumption; try (rewrite fmap_update_where by done; assumption).
    + apply NoDup_insert_key; [done|].
      by apply (filter_nil_not_elem
                  (fun p => passengers.telegramId p = passengers.telegramId r)).
    + apply NoDup_insert_key; [done|].
      by apply (filter_nil_not_elem
                  (fun d => drivers.telegramId d = drivers.telegramId r)).
Qed.

Lemma filter_nil_elem {R} (p : R -> Prop) `{!forall r, Decision (p r)}
    (rows : list R) (x : R) :
  filter p rows = [] -> x ∈ rows -> p x -> False.
Proof. intros Hnil Hx Hp. by apply (proj1 (filter_nil_not_elem p rows) Hnil x). Qed.

(** In every store a history of calls produces, a driver has at most one
    document of a category, an order at most one offer of a driver, and an
    order at most one rating from a user id. *)
Theorem one_per_pair_kept (history : list (Z * call)) :
  one_per_pair (run history empty_db).
Proof.
  apply run_invariant.
  - repeat split; constructor.
  - intros db db' (Hdoc & Hoffer & Hrating) Hw.
    destruct Hw; unfold one_per_pair; simpl; (split; [|split]);
      try assumption; try (rewrite fmap_update_where by done; assumption);
      (apply NoDup_insert_key; [done|]);
      intros x Hx [= Ha Hb];
      match goal with
      | Hnil : filter _ _ = [] |- _ => by apply (filter_nil_elem _ _ x Hnil)
      end.
Qed.

Lemma Forall_insert {R} (P : R -> Prop) (rows : list R) (r : R) :
  Forall P rows -> P r -> Forall P (rows ++ [r]).
Proof. intros Hrows Hr. apply Forall_app. split; [done|]. by constructor. Qed.

(** In every store a history of calls produces, an order is pending without
    driver and final price or accepted with both, an offer is pending or
    accepted, a negotiation is pending, accepted or rejected, and a document
    is pending, approved or rejected and of one of the three categories: no
    call moves an order to in_progress, completed or cancelled, or an offer
    to rejected or counter_offered. *)
Theorem statuses_written_kept (history : list (Z * call)) :
  statuses_written (run history empty_db).
Proof.
  apply run_invariant.
  - repeat split; constructor.
  - intros db db' (Ho & Hf & Hn & Hx) Hw.
    destruct Hw; unfold statuses_written; simpl;
      (split; [|split; [|split]]); try assumption.
    + apply Forall_insert; [done|]. left. by repeat split.
    + apply Forall_insert; [done|]. by left.
    + apply Forall_insert; [done|]. by left.
    + apply Forall_insert; [done|]. split; [by left|]. by exists t.
    + apply Forall_update_where; [|done]. intros r _ _. right.
      unfold order_accept. simpl. by repeat split.
    + apply Forall_update_where; [|done]. intros r _ _. by right.
    + apply Forall_update_where; [|done]. intros r _ _. simpl.
      destruct H as [->| ->]; auto.
    + apply Forall_update_where; [|done]. intros r [_ Ht] _. simpl.
      split; [by left|done].
    + apply Forall_update_where; [|done]. intros r [_ Ht] _. simpl.
      split; [|done]. destruct approve; auto.
Qed.

Lemma elem_of_fmap_insert {R K} (k : R -> K) (rows : list R) (r : R) (key : K) :
  key ∈ k <$> rows -> key ∈ k <$> (rows ++ [r]).
Proof. intros Hin. rewrite fmap_app. apply elem_of_app. by left. Qed.

(** In every store a history of calls produces, the passenger of every
    order, the accepted driver of every order, the driver of every offer and
    the driver of every document are rows of the profile tables. *)
Theorem references_resolve_kept (history : list (Z * call)) :
  references_resolve (run history empty_db).
Proof.
  apply run_invariant.
  - repeat split; constructor.
  - intros db db' (Hp & Ha & Hf & Hx) Hw.
    assert (Hfd : forall r, r ∈ tbl_driverOffers db ->
              driverOffers.driverId r ∈ drivers.id <$> tbl_drivers db).
    { by apply Forall_forall. }
    destruct Hw; unfold references_resolve; simpl;
      (split; [|split; [|split]]); try assumption;
      try (rewrite fmap_update_where by done; assumption).
    + eapply Forall_impl; [exact Hp|]. intros o. apply elem_of_fmap_insert.
    + eapply Forall_impl; [exact Ha|]. intros o Ho d Hd.
      by apply elem_of_fmap_insert, Ho.
    + eapply Forall_impl; [exact Hf|]. intros o. apply elem_of_fmap_insert.
    + eapply Forall_impl; [exact Hx|]. intros o. apply elem_of_fmap_insert.
    + apply Forall_insert; [done|]. rewrite H1. by apply list_elem_of_fmap_2.
    + apply Forall_insert; [done|]. intros d. by rewrite H4.
    + apply Forall_insert; [done|]. rewrite H1. by apply list_elem_of_fmap_2.
    + apply Forall_insert; [done|]. rewrite H1. by apply list_elem_of_fmap_2.
    + apply Forall_update_where; [|done]. intros r Hr _. done.
    + apply Forall_update_where; [|done]. intros r _ _ d [= <-].
      by apply Hfd.
    + apply Forall_update_where; [|done]. intros r Hr _. done.
    + apply Forall_update_where; [|done]. intros r Hr _. done.
    + apply Forall_update_where; [|done]. intros r Hr _. done.
Qed.

Lemma Forall_update_where_change {R} (p : R -> Prop) `{!forall r, Decision (p r)}
    (f : R -> R) (P Q : R -> Prop) (rows : list R) :
  (forall r, P r -> p r -> Q (f r)) ->
  (forall r, P r -> ~ p r -> Q r) ->
  Forall P rows -> Forall Q (update_where p f rows).
Proof.
  intros Hf Hkeep. unfold update_where.
  induction 1 as [|r rows Hr _ IH]; simpl; constructor; [|exact IH].
  destruct (decide (p r)); auto.
Qed.

(** In every store a history of calls produces, an accepted order carries
    the driver and the price of an offer that is stored with status
    accepted. *)
Theorem accepted_from_offer_kept (history : list (Z * call)) :
  accepted_from_offer (run history empty_db).
Proof.
  apply run_invariant.
  - constructor.
  - intros db db' Hinv Hw.
    destruct Hw; unfold accepted_from_offer in *; simpl; try assumption.
    + apply Forall_insert; [done|]. intros Hs. congruence.
    + eapply Forall_impl; [exact Hinv|]. intros o Ho Hs.
      destruct (Ho Hs) as (f & Hf & Hrest). exists f. split; [|done].
      apply elem_of_app. by left.
    + assert (Haccepted :
                offer_set_status "accepted" offer
                ∈ update_where (fun r => driverOffers.id r = offerId)
                    (offer_set_status "accepted") (tbl_driverOffers db)).
      { pose proof (elem_of_update_where_2
                      (fun r => driverOffers.id r = offerId)
                      (offer_set_status "accepted") (tbl_driverOffers db)
                      offer H) as Hin.
        by destruct (decide (driverOffers.id offer = offerId)). }
      eapply Forall_update_where_change; [| |exact Hinv].
      * intros o _ _ _. by exists (offer_set_status "accepted" offer).
      * intros o Ho _ Hs. destruct (Ho Hs) as (f & Hf & Hst & Hd & Hp).
        pose proof (elem_of_update_where_2
                      (fun r => driverOffers.id r = offerId)
                      (offer_set_status "accepted") (tbl_driverOffers db)
                      f Hf) as Hin.
        destruct (decide (driverOffers.id f = offerId)).
        -- by exists (offer_set_status "accepted" f).
        -- by exists f.
Qed.

(** * Registration *)

Lemma filter_app_new {R} (p : R -> Prop) `{!forall r, Decision (p r)}
    (rows : list R) (r : R) :
  filter p rows = [] -> p r -> filter p (rows ++ [r]) = [r].
Proof. intros Hnil Hr. by rewrite filter_app, Hnil, filter_cons_True. Qed.

Lemma head_filter_none {R} (p : R -> Prop) `{!forall r, Decision (p r)}
    (rows : list R) :
  head (filter p rows) = None -> filter p rows = [].
Proof. by destruct (filter p rows). Qed.

Lemma registerPassengerTool_eq now t f p db :
  registerPassengerTool now t f p db
  = match passenger_with_handle t db with
    | Some old =>
        (registerPassenger.mk true (Some (passengers.id old))
           ("Добро пожаловать обратно, " +:+ f +:+
            "! Вы уже зарегистрированы в системе."), db)
    | None =>
        (registerPassenger.mk true (Some (seq_passengers (sequences db)))
           ("Добро пожаловать в нашу систему такси, " +:+ f +:+
            "! Вы можете начать заказывать поездки."),
         set_sequences next_passengers
           (set_tbl_passengers
              (fun rows => rows ++
                 [passengers.mk (seq_passengers (sequences db)) t f p "5.00" 0
                    now now]) db))
    end.
Proof.
  unfold registerPassengerTool, passenger_with_handle, execute, bind, get, ret,
    insert_passengers.
  simpl. by destruct (filter _ (tbl_passengers db)).
Qed.

Lemma registerDriverTool_eq now t f p m c n db :
  registerDriverTool now t f p m c n db
  = match driver_with_handle t db with
    | Some old =>
        (registerDriver.mk true (Some (drivers.id old))
           ("Добро пожаловать обратно, " +:+ f +:+
            "! Вы уже зарегистрированы как водитель."), db)
    | None =>
        (registerDriver.mk true (Some (seq_drivers (sequences db)))
           ("Добро пожаловать в нашу систему, " +:+ f +:+
            "! Для начала работы необходимо пройти верификацию документов. Пожалуйста, загрузите водительское удостоверение и документы на автомобиль."),
         set_sequences next_drivers
           (set_tbl_drivers
              (fun rows => rows ++
                 [drivers.mk (seq_drivers (sequences db)) t f p "5.00" 0 false
                    false (Some m) (Some c) (Some n) "pending" "pending"
                    now now]) db))
    end.
Proof.
  unfold registerDriverTool, driver_with_handle, execute, bind, get, ret,
    insert_drivers.
  simpl. by destruct (filter _ (tbl_drivers db)).
Qed.

(** Registering a passenger is an upsert keyed by the handle: the first call
    returns the id of the profile the handle now resolves to (the row that
    was there, left as it was, or a new row with rating 5.00 and no rides),
    and a second call with the same handle, whatever name and phone it
    passes, returns the same id and writes nothing. *)
Theorem registerPassenger_idempotent (db : DB) (now now' : Z)
    (telegramId firstName phoneNumber firstName' phoneNumber' : string) :
  let first := registerPassengerTool now telegramId firstName phoneNumber db in
  let second :=
    registerPassengerTool now' telegramId firstName' phoneNumber' first.2 in
  registerPassenger.success first.1 = true
  /\ registerPassenger.success second.1 = true
  /\ registerPassenger.passengerId second.1 = registerPassenger.passengerId first.1
  /\ second.2 = first.2
  /\ exists row,
       passenger_with_handle telegramId first.2 = Some row
       /\ registerPassenger.passengerId first.1 = Some (passengers.id row)
       /\ match passenger_with_handle telegramId db with
          | Some old => row = old /\ first.2 = db
          | None =>
              row = passengers.mk (seq_passengers (sequences db)) telegramId
                      firstName phoneNumber "5.00" 0 now now
              /\ tbl_passengers first.2 = tbl_passengers db ++ [row]
          end.
Proof.
  simpl. rewrite (registerPassengerTool_eq now).
  destruct (passenger_with_handle telegramId db) as [old|] eqn:Hold.
  - simpl. rewrite registerPassengerTool_eq, Hold. simpl.
    repeat split. by exists old.
  - assert (Hnew : passenger_with_handle telegramId
                     (set_sequences next_passengers
                        (set_tbl_passengers
                           (fun rows => rows ++
                              [passengers.mk (seq_passengers (sequences db))
                                 telegramId firstName phoneNumber "5.00" 0
                                 now now]) db))
                   = Some (passengers.mk (seq_passengers (sequences db))
                             telegramId firstName phoneNumber "5.00" 0 now now)).
    { unfold passenger_with_handle in *. simpl.
      by rewrite (filter_app_new _ _ _ (head_filter_none _ _ Hold)). }
    simpl. rewrite registerPassengerTool_eq, Hnew. simpl.
    repeat split. eexists. by repeat split.
Qed.

(** Registering a driver is the same upsert; a new driver starts unverified
    and offline with rating 5.00. *)
Theorem registerDriver_idempotent (db : DB) (now now' : Z)
    (telegramId firstName phoneNumber carModel carColor carNumber : string)
    (firstName' phoneNumber' carModel' carColor' carNumber' : string) :
  let first :=
    registerDriverTool now telegramId firstName phoneNumber carModel carColor
      carNumber db in
  let second :=
    registerDriverTool now' telegramId firstName' phoneNumber' carModel'
      carColor' carNumber' first.2 in
  registerDriver.success first.1 = true
  /\ registerDriver.success second.1 = true
  /\ registerDriver.driverId second.1 = registerDriver.driverId first.1
  /\ second.2 = first.2
  /\ exists row,
       driver_with_handle telegramId first.2 = Some row
       /\ registerDriver.driverId first.1 = Some (drivers.id row)
       /\ match driver_with_handle telegramId db with
          | Some old => row = old /\ first.2 = db
          | None =>
              row = drivers.mk (seq_drivers (sequences db)) telegramId firstName
                      phoneNumber "5.00" 0 false false (Some carModel)
                      (Some carColor) (Some carNumber) "pending" "pending"
                      now now
              /\ tbl_drivers first.2 = tbl_drivers db ++ [row]
          end.
Proof.
  simpl. rewrite (registerDriverTool_eq now).
  destruct (driver_with_handle telegramId db) as [old|] eqn:Hold.
  - simpl. rewrite registerDriverTool_eq, Hold. simpl.
    repeat split. by exists old.
  - assert (Hnew : driver_with_handle telegramId
                     (set_sequences next_drivers
                        (set_tbl_drivers
                           (fun rows => rows ++
                              [drivers.mk (seq_drivers (sequences db)) telegramId
                                 firstName phoneNumber "5.00" 0 false false
                                 (Some carModel) (Some carColor) (Some carNumber)
                                 "pending" "pending" now now]) db))
                   = Some (drivers.mk (seq_drivers (sequences db)) telegramId
                             firstName phoneNumber "5.00" 0 false false
                             (Some carModel) (Some carColor) (Some carNumber)
                             "pending" "pending" now now)).
    { unfold driver_with_handle in *. simpl.
      by rewrite (filter_app_new _ _ _ (head_filter_none _ _ Hold)). }
    simpl. rewrite registerDriverTool_eq, Hnew. simpl.
    repeat split. eexists. by repeat split.
Qed.

(** * Offers and the order list *)

Lemma getAvailableOrdersTool_eq toISOString now t db :
  getAvailableOrdersTool toISOString now t db
  = (match driver_with_handle t db with
     | None => getAvailableOrders.mk false [] msg_driver_not_registered
     | Some d =>
         if negb (drivers.isVerified d) then
           getAvailableOrders.mk false [] msg_need_verification
         else if negb (drivers.isOnline d) then
           getAvailableOrders.mk false [] msg_offline
         else
           getAvailableOrders.mk true
             (format_order toISOString now <$> available_rows db)
             (match available_rows db with
              | _ :: _ =>
                  "Найдено " +:+
                  toString (Z.of_nat (length (available_rows db))) +:+
                  " доступных заказов"
              | [] => msg_no_orders
              end)
     end, db).
Proof.
  unfold getAvailableOrdersTool, driver_with_handle, available_rows, execute,
    bind, get, ret.
  simpl.
  destruct (filter _ (tbl_drivers db)) as [|d l]; [done|]. simpl.
  destruct (drivers.isVerified d); [|done]. simpl.
  by destruct (drivers.isOnline d).
Qed.

(** A handle that was not registered as a driver cannot offer or see orders
    right after registering: both calls are refused for lack of
    verification and write nothing. *)
Theorem new_driver_is_gated (db : DB) (now now' : Z) (toISOString : Z -> string)
    (telegramId firstName phoneNumber carModel carColor carNumber : string)
    (orderId offeredPrice : Z) (message : option string) :
  driver_with_handle telegramId db = None ->
  let db1 :=
    (registerDriverTool now telegramId firstName phoneNumber carModel carColor
       carNumber db).2 in
  makeOfferTool now' telegramId orderId offeredPrice message db1
  = (mkResult false msg_not_verified, db1)
  /\ getAvailableOrdersTool toISOString now' telegramId db1
     = (getAvailableOrders.mk false [] msg_need_verification, db1).
Proof.
  intros Hnew. simpl.
  rewrite registerDriverTool_eq, Hnew. simpl.
  rewrite makeOfferTool_eq, getAvailableOrdersTool_eq.
  unfold driver_with_handle in *. simpl.
  by rewrite (filter_app_new _ _ _ (head_filter_none _ _ Hnew)).
Qed.

Lemma new_driver_is_gated_witness :
  makeOfferTool 2 "d9" 1 500 None
    (registerDriverTool 1 "d9" "Ivan" "+7" "Lada" "red" "X1" scenario_db).2
  = (mkResult false msg_not_verified,
     (registerDriverTool 1 "d9" "Ivan" "+7" "Lada" "red" "X1" scenario_db).2).
Proof.
  exact (proj1 (new_driver_is_gated scenario_db 1 2 (fun _ => "t") "d9" "Ivan"
                  "+7" "Lada" "red" "X1" 1 500 None eq_refl)).
Defined.

Section OrderBy.
Context {R : Type} (key : R -> Z).

Lemma insert_desc_perm (r : R) (l : list R) : insert_desc key r l ≡ₚ r :: l.
Proof.
  induction l as [|x l IH]; simpl; [done|].
  destruct (key x <? key r); [done|].
  rewrite IH. apply Permutation_swap.
Qed.

Lemma orderBy_desc_perm (l : list R) : orderBy_desc key l ≡ₚ l.
Proof.
  unfold orderBy_desc.
  assert (Hgen : forall acc, fold_left (fun acc r => insert_desc key r acc) l acc
                             ≡ₚ acc ++ l).
  { induction l as [|x l IH]; intros acc; simpl.
    - by rewrite app_nil_r.
    - rewrite IH, insert_desc_perm.
      by rewrite (Permutation_middle acc l x). }
  apply (Hgen []).
Qed.

Lemma insert_desc_sorted (r : R) (l : list R) :
  sorted_desc key l -> sorted_desc key (insert_desc key r l).
Proof.
  unfold sorted_desc. induction 1 as [|x l Hl IH Hx]; simpl.
  - repeat constructor.
  - destruct (key x <? key r) eqn:Hlt.
    + apply Z.ltb_lt in Hlt. constructor; [by constructor|].
      constructor; [lia|].
      eapply Forall_impl; [exact Hx|]. simpl. intros; lia.
    + apply Z.ltb_ge in Hlt. constructor; [exact IH|].
      rewrite insert_desc_perm. by constructor.
Qed.

Lemma orderBy_desc_sorted (l : list R) : sorted_desc key (orderBy_desc key l).
Proof.
  unfold orderBy_desc.
  assert (Hgen : forall acc, sorted_desc key acc ->
            sorted_desc key
              (fold_left (fun acc r => insert_desc key r acc) l acc)).
  { induction l as [|x l IH]; intros acc Hacc; simpl; [done|].
    apply IH. by apply insert_desc_sorted. }
  apply Hgen. constructor.
Qed.
End OrderBy.

Section LeftJoin.
Context {R S : Type} (matching : R -> list S).

Lemma left_join_cons (r : R) (a : list R) :
  left_join (r :: a) matching
  = match matching r with
    | [] => [(r, None)]
    | ms => (fun s => (r, Some s)) <$> ms
    end ++ left_join a matching.
Proof. reflexivity. Qed.

(** Every joined row carries a row of the left table ... *)
Lemma left_join_fst_elem (a : list R) (jr : R * option S) :
  jr ∈ left_join a matching -> jr.1 ∈ a.
Proof.
  induction a as [|r a IH]; [by intros ?%not_elem_of_nil|].
  rewrite left_join_cons. intros [Hhere|Hlater]%elem_of_app.
  - assert (jr.1 = r) as ->; [|left].
    destruct (matching r) as [|s ms].
    + by apply list_elem_of_singleton in Hhere as ->.
    + by apply list_elem_of_fmap in Hhere as (x & -> & _).
  - right. by apply IH.
Qed.

(** ... and every row of the left table is carried by a joined row. *)
Lemma left_join_cover (a : list R) (r : R) :
  r ∈ a -> exists jr, jr ∈ left_join a matching /\ jr.1 = r.
Proof.
  induction a as [|x a IH]; [by intros ?%not_elem_of_nil|].
  rewrite left_join_cons. intros [->|Hin]%elem_of_cons.
  - destruct (matching x) as [|s ms].
    + exists (x, None). split; [|done]. apply elem_of_app. left. left.
    + exists (x, Some s). split; [|done]. apply elem_of_app. left. left.
  - destruct (IH Hin) as (jr & Hjr & Hfst). exists jr. split; [|done].
    apply elem_of_app. by right.
Qed.

(** When no row matches twice, the join has the left table's rows, once
    each and in order. *)
Lemma left_join_fst_unique (a : list R) :
  (forall r, r ∈ a -> (length (matching r) <= 1)%nat) ->
  fst <$> left_join a matching = a.
Proof.
  induction a as [|x a IH]; intros Hone; [done|].
  rewrite left_join_cons, fmap_app, IH.
  - assert (Hx : (length (matching x) <= 1)%nat) by (apply Hone; left).
    destruct (matching x) as [|s [|s' ms]]; simpl in *; [done|done|lia].
  - intros r Hr. apply Hone. by right.
Qed.
End LeftJoin.

(** With distinct keys at most one row has a given key. *)
Lemma filter_key_unique {R} (k : R -> Z) (rows : list R) (key : Z) :
  NoDup (k <$> rows) ->
  (length (filter (fun r => key = k r) rows) <= 1)%nat.
Proof.
  induction rows as [|x rows IH]; intros Hnd; [simpl; lia|].
  rewrite fmap_cons in Hnd. apply NoDup_cons in Hnd as [Hx Hnd].
  rewrite filter_cons. destruct (decide (key = k x)) as [->|Hne]; [|by apply IH].
  assert (Hnil : filter (fun r => k x = k r) rows = []).
  { apply filter_nil_not_elem. intros r Hr Heq. apply Hx. rewrite Heq.
    by apply list_elem_of_fmap_2. }
  rewrite Hnil. simpl. lia.
Qed.

Lemma fmap_filter_fst {R S} (P : R -> Prop) `{!forall r, Decision (P r)}
    (l : list (R * S)) :
  fst <$> filter (fun jr => P jr.1) l = filter P (fst <$> l).
Proof.
  induction l as [|jr l IH]; [done|].
  rewrite fmap_cons, !filter_cons.
  destruct (decide (P jr.1)); [|done]. by rewrite fmap_cons, IH.
Qed.

Lemma sorted_desc_fst {R S} (key : R -> Z) (l : list (R * S)) :
  sorted_desc (fun jr => key jr.1) l -> sorted_desc key (fst <$> l).
Proof.
  unfold sorted_desc. induction 1 as [|jr l Hl IH Hjr]; [constructor|].
  rewrite fmap_cons. constructor; [exact IH|].
  apply Forall_fmap. exact Hjr.
Qed.

Lemma fmap_filter_pending (l : list (orders.row * option passengers.row)) :
  fst <$> filter (fun jr => orders.status jr.1 = "pending") l
  = filter (fun o => orders.status o = "pending") (fst <$> l).
Proof.
  exact (@fmap_filter_fst _ _ (fun o => orders.status o = "pending")
           (fun o => decide (orders.status o = "pending")) l).
Qed.

Lemma available_rows_elem db (o : orders.row) :
  o ∈ fst <$> available_rows db
  <-> o ∈ tbl_orders db /\ orders.status o = "pending".
Proof.
  unfold available_rows. rewrite orderBy_desc_perm.
  rewrite fmap_filter_pending.
  rewrite list_elem_of_filter. split.
  - intros [Hs Ho]. split; [|done].
    apply list_elem_of_fmap in Ho as (jr & -> & Hjr).
    by apply left_join_fst_elem in Hjr.
  - intros [Ho Hs]. split; [done|].
    destruct (left_join_cover
                (fun o => filter (fun p => orders.passengerId o = passengers.id p)
                            (tbl_passengers db))
                (tbl_orders db) o Ho) as (jr & Hjr & <-).
    by apply list_elem_of_fmap_2.
Qed.

(** [getAvailableOrders] never writes.  It refuses an unknown handle, an
    unverified driver and an offline driver, each with its own message and
    an empty list.  For a verified driver who is online it lists the orders
    whose status is pending and no others, newest first; when passenger ids
    are distinct each pending order is listed exactly once. *)
Theorem getAvailableOrders_lists_pending (toISOString : Z -> string) (now : Z)
    (telegramId : string) (db : DB) :
  let out := (getAvailableOrdersTool toISOString now telegramId db).1 in
  (getAvailableOrdersTool toISOString now telegramId db).2 = db
  /\ (driver_with_handle telegramId db = None ->
      out = getAvailableOrders.mk false [] msg_driver_not_registered)
  /\ (forall d, driver_with_handle telegramId db = Some d ->
        drivers.isVerified d = false ->
        out = getAvailableOrders.mk false [] msg_need_verification)
  /\ (forall d, driver_with_handle telegramId db = Some d ->
        drivers.isVerified d = true -> drivers.isOnline d = false ->
        out = getAvailableOrders.mk false [] msg_offline)
  /\ (forall d, driver_with_handle telegramId db = Some d ->
        drivers.isVerified d = true -> drivers.isOnline d = true ->
        getAvailableOrders.success out = true
        /\ exists rows : list orders.row,
             getAvailableOrders.orderId <$> getAvailableOrders.orders out
             = orders.id <$> rows
             /\ sorted_desc orders.createdAt rows
             /\ (forall o, o ∈ rows
                           <-> o ∈ tbl_orders db /\ orders.status o = "pending")
             /\ (NoDup (passengers.id <$> tbl_passengers db) ->
                 rows ≡ₚ filter (fun o => orders.status o = "pending")
                           (tbl_orders db))).
Proof.
  simpl. rewrite getAvailableOrdersTool_eq. simpl.
  split; [done|].
  destruct (driver_with_handle telegramId db) as [d|]; [|by repeat split].
  split; [done|]. split; [|split].
  - intros ? [= <-] Hv. by rewrite Hv.
  - intros ? [= <-] Hv Ho. by rewrite Hv, Ho.
  - intros ? [= <-] Hv Ho. rewrite Hv, Ho. simpl. split; [done|].
    exists (fst <$> available_rows db). split; [|split; [|split]].
    + rewrite <- !list_fmap_compose. done.
    + apply sorted_desc_fst. unfold available_rows. apply orderBy_desc_sorted.
    + apply available_rows_elem.
    + intros Hnd. unfold available_rows.
      rewrite orderBy_desc_perm.
      rewrite fmap_filter_pending.
      rewrite left_join_fst_unique; [done|].
      intros o _. by apply (filter_key_unique passengers.id).
Qed.

Lemma getAvailableOrders_lists_pending_witness :
  getAvailableOrders.success
    (getAvailableOrdersTool (fun _ => "t") 5 "d1" rated_db).1 = true
  /\ getAvailableOrders.orderId
       <$> getAvailableOrders.orders
             (getAvailableOrdersTool (fun _ => "t") 5 "d1" rated_db).1 = [2].
Proof.
  split; [|vm_compute; reflexivity].
  exact (proj1 (proj2 (proj2 (proj2 (proj2
           (getAvailableOrders_lists_pending (fun _ => "t") 5 "d1" rated_db))))
           (example_driver 1 "d1" true) eq_refl eq_refl eq_refl)).
Defined.

Lemma createOrderTool_eq now t a b price db :
  createOrderTool now t a b price db
  = match passenger_with_handle t db with
    | None => (createOrder.mk false None msg_passenger_not_registered, db)
    | Some p =>
        if decide (decimal_8_2 price) then
          (createOrder.mk true (Some (seq_orders (sequences db)))
             ("Заказ создан! Маршрут: " +:+ a +:+ " → " +:+ b +:+
              ". Предлагаемая цена: " +:+ toString price +:+
              " руб. Ожидаем предложения от водителей."),
           set_sequences next_orders
             (set_tbl_orders
                (fun rows => rows ++
                   [orders.mk (seq_orders (sequences db)) (passengers.id p) a b
                      (toString price) None "pending" None now now]) db))
        else (createOrder.mk false None msg_create_order_error, db)
    end.
Proof.
  unfold createOrderTool, passenger_with_handle, execute, bind, get, ret,
    insert_orders, throw.
  simpl. destruct (filter _ (tbl_passengers db)) as [|p l]; [done|]. simpl.
  destruct (decide (parameters_fit [] price)) as [Hfit|Hfit],
           (decide (decimal_8_2 price)) as [Hdec|Hdec]; try done.
  - exfalso. apply Hdec. exact (proj1 (parameters_fit_nil price) Hfit).
  - exfalso. apply Hfit. exact (proj2 (parameters_fit_nil price) Hdec).
Qed.

(** The ids below the sequence cannot be the id the sequence hands out. *)
Lemma filter_fresh_id {R} (k : R -> Z) (rows : list R) (next : Z) :
  Forall (fun i => i < next) (k <$> rows) ->
  filter (fun r => k r = next) rows = [].
Proof.
  intros Hlt. apply filter_nil_not_elem. intros r Hr Heq.
  rewrite Forall_fmap, Forall_forall in Hlt. specialize (Hlt r Hr).
  simpl in Hlt. lia.
Qed.

(** [createOrder] refuses an unknown handle and writes nothing.  For a
    registered passenger and a price the price column can hold it stores a
    pending order without driver and final price, and, when the stored
    order ids lie below the sequence, the id it returns finds that order,
    which every verified driver who is online then sees in the list of
    available orders.  A price the column cannot hold makes the insert
    raise: the tool answers its generic failure and no order is stored. *)
Theorem created_order_is_listed (db : DB) (now now' : Z)
    (toISOString : Z -> string) (telegramId fromAddress toAddress : string)
    (suggestedPrice : Z) :
  let out := (createOrderTool now telegramId fromAddress toAddress
                suggestedPrice db).1 in
  let db' := (createOrderTool now telegramId fromAddress toAddress
                suggestedPrice db).2 in
  (passenger_with_handle telegramId db = None ->
     out = createOrder.mk false None msg_passenger_not_registered /\ db' = db)
  /\ (forall p, passenger_with_handle telegramId db = Some p ->
        ~ decimal_8_2 suggestedPrice ->
        out = createOrder.mk false None msg_create_order_error
        /\ tbl_orders db' = tbl_orders db)
  /\ (forall p, passenger_with_handle telegramId db = Some p ->
        decimal_8_2 suggestedPrice ->
        Forall (fun i => i < seq_orders (sequences db))
               (orders.id <$> tbl_orders db) ->
        let new := orders.mk (seq_orders (sequences db)) (passengers.id p)
                     fromAddress toAddress (toString suggestedPrice) None
                     "pending" None now now in
        createOrder.success out = true
        /\ createOrder.orderId out = Some (orders.id new)
        /\ tbl_orders db' = tbl_orders db ++ [new]
        /\ order_with_id (orders.id new) db' = Some new
        /\ forall handle d,
             driver_with_handle handle db = Some d ->
             drivers.isVerified d = true -> drivers.isOnline d = true ->
             exists e,
               e ∈ getAvailableOrders.orders
                     (getAvailableOrdersTool toISOString now' handle db').1
               /\ getAvailableOrders.orderId e = orders.id new
               /\ getAvailableOrders.fromAddress e = fromAddress
               /\ getAvailableOrders.toAddress e = toAddress).
Proof.
  cbv zeta. rewrite createOrderTool_eq.
  destruct (passenger_with_handle telegramId db) as [p|]; [|by split].
  split; [done|].
  destruct (decide (decimal_8_2 suggestedPrice)) as [Hfit|Hfit].
  2:{ split; [by intros ? _ _|]. by intros ? _ ?. }
  split; [by intros ? _ ?|].
  intros ? [= <-] _ Hfresh. cbn [fst snd createOrder.success createOrder.orderId].
  split; [done|]. split; [done|]. split; [done|]. split.
  - unfold order_with_id. simpl.
    by rewrite (filter_app_new _ _ _ (filter_fresh_id orders.id _ _ Hfresh)).
  - intros handle d Hd Hv Ho.
    rewrite getAvailableOrdersTool_eq.
    unfold driver_with_handle in *. simpl in *. rewrite Hd, Hv, Ho. simpl.
    set (new := orders.mk (seq_orders (sequences db)) (passengers.id p)
                  fromAddress toAddress (toString suggestedPrice) None
                  "pending" None now now).
    set (db' := set_sequences next_orders
                  (set_tbl_orders (fun rows => rows ++ [new]) db)).
    assert (Hnew : new ∈ fst <$> available_rows db').
    { apply available_rows_elem. split; [|done].
      subst db'. simpl. apply elem_of_app. right. left. }
    apply list_elem_of_fmap in Hnew as (jr & Hjr & Hin).
    exists (format_order toISOString now' jr). split.
    + by apply list_elem_of_fmap_2.
    + unfold format_order. simpl. rewrite <- Hjr. done.
Qed.

Lemma created_order_is_listed_witness :
  order_with_id 3 (createOrderTool 7 "p2" "A" "B" 400 scenario_db).2
  = Some (orders.mk 3 2 "A" "B" "400" None "pending" None 7 7)
  /\ (createOrderTool 7 "p2" "A" "B" 1000000 scenario_db).1
     = createOrder.mk false None msg_create_order_error.
Proof.
  split.
  - refine (proj1 (proj2 (proj2 (proj2
              (proj2 (proj2 (created_order_is_listed scenario_db 7 8
                               (fun _ => "t") "p2" "A" "B" 400))
                 (example_passenger 2 "p2") eq_refl _ _))))).
    + unfold decimal_8_2. lia.
    + apply (bool_decide_unpack _). vm_compute. exact I.
  - refine (proj1 (proj1 (proj2 (created_order_is_listed scenario_db 7 8
                                   (fun _ => "t") "p2" "A" "B" 1000000))
                     (example_passenger 2 "p2") eq_refl _)).
    unfold decimal_8_2. lia.
Defined.

Lemma available_orders_elem toISOString now handle db e :
  e ∈ getAvailableOrders.orders (getAvailableOrdersTool toISOString now handle db).1 ->
  exists o, o ∈ tbl_orders db /\ orders.status o = "pending"
            /\ getAvailableOrders.orderId e = orders.id o.
Proof.
  rewrite getAvailableOrdersTool_eq. simpl.
  destruct (driver_with_handle handle db) as [d|];
    [|by intros ?%not_elem_of_nil].
  destruct (drivers.isVerified d); [|by intros ?%not_elem_of_nil].
  destruct (drivers.isOnline d); [|by intros ?%not_elem_of_nil].
  simpl. intros (jr & -> & Hjr)%list_elem_of_fmap.
  exists jr.1.
  assert (Hrow : jr.1 ∈ tbl_orders db /\ orders.status jr.1 = "pending").
  { apply available_rows_elem. by apply list_elem_of_fmap_2. }
  by destruct Hrow.
Qed.

(** Once [acceptOffer] has succeeded for an order id, no driver is offered
    an order of that id any more. *)
Theorem accepted_order_leaves_list (db : DB) (offerId orderId : Z)
    (offer : driverOffers.row) (toISOString : Z -> string) (now : Z)
    (handle : string) (e : getAvailableOrders.order) :
  offer_with_id offerId db = Some offer ->
  e ∈ getAvailableOrders.orders
        (getAvailableOrdersTool toISOString now handle
           (acceptOfferTool offerId orderId db).2).1 ->
  getAvailableOrders.orderId e <> orderId.
Proof.
  intros Hoffer He.
  apply available_orders_elem in He as (o & Ho & Hs & ->).
  destruct (acceptOfferTool_found db offerId orderId offer Hoffer)
    as (_ & _ & Hdb).
  rewrite Hdb in Ho. simpl in Ho.
  apply elem_of_update_where in Ho as (o0 & _ & [[_ ->]|[Hne ->]]); [|done].
  discriminate Hs.
Qed.

Lemma accepted_order_leaves_list_witness :
  getAvailableOrders.orderId
    <$> getAvailableOrders.orders
          (getAvailableOrdersTool (fun _ => "t") 5 "d1"
             (acceptOfferTool 2 1 scenario_db).2).1 = [2]
  /\ forall e,
       e ∈ getAvailableOrders.orders
             (getAvailableOrdersTool (fun _ => "t") 5 "d1"
                (acceptOfferTool 2 1 scenario_db).2).1 ->
       getAvailableOrders.orderId e <> 1.
Proof.
  split; [vm_compute; reflexivity|].
  intros e.
  exact (accepted_order_leaves_list scenario_db 2 1 (example_offer 2 1 2 "550")
           (fun _ => "t") 5 "d1" e eq_refl).
Defined.

(** * getOrderOffers *)

Lemma fmap_filter_order (orderId : Z) (l : list (driverOffers.row * option drivers.row)) :
  fst <$> filter (fun jr => driverOffers.orderId jr.1 = orderId) l
  = filter (fun o => driverOffers.orderId o = orderId) (fst <$> l).
Proof.
  exact (@fmap_filter_fst _ _ (fun o => driverOffers.orderId o = orderId)
           (fun o => decide (driverOffers.orderId o = orderId)) l).
Qed.

(** For an order id of the column's type [getOrderOffers] succeeds and
    never writes.  Every entry it returns is an offer stored for the order
    and every such offer is returned; when driver ids are distinct the
    entries are these offers, once each. *)
Theorem getOrderOffers_lists_offers (orderId : Z) (db : DB) :
  int4 orderId ->
  let out := (getOrderOffersTool orderId db).1 in
  (getOrderOffersTool orderId db).2 = db
  /\ getOrderOffers.success out = true
  /\ (forall id, id ∈ getOrderOffers.offerId <$> getOrderOffers.offers out
                 <-> exists o, o ∈ tbl_driverOffers db
                               /\ driverOffers.orderId o = orderId
                               /\ driverOffers.id o = id)
  /\ (NoDup (drivers.id <$> tbl_drivers db) ->
      getOrderOffers.offerId <$> getOrderOffers.offers out
      ≡ₚ driverOffers.id
           <$> filter (fun o => driverOffers.orderId o = orderId)
                      (tbl_driverOffers db)).
Proof.
  intros _. simpl. unfold getOrderOffersTool, execute, bind, get, ret. simpl.
  split; [done|]. split; [done|].
  set (joined := left_join (tbl_driverOffers db) (fun o =>
                   filter (fun d => driverOffers.driverId o = drivers.id d)
                          (tbl_drivers db))).
  assert (Hids : getOrderOffers.offerId
                   <$> (format_offer
                          <$> filter (fun jr => driverOffers.orderId jr.1 = orderId)
                                     joined)
                 = driverOffers.id
                     <$> filter (fun o => driverOffers.orderId o = orderId)
                                (fst <$> joined)).
  { rewrite <- fmap_filter_order, <- !list_fmap_compose. done. }
  rewrite Hids. split.
  - intros id. rewrite list_elem_of_fmap. split.
    + intros (o & -> & Ho). apply list_elem_of_filter in Ho as [Hord Ho].
      apply list_elem_of_fmap in Ho as (jr & -> & Hjr).
      apply left_join_fst_elem in Hjr. by exists jr.1.
    + intros (o & Ho & Hord & <-). exists o. split; [done|].
      apply list_elem_of_filter. split; [done|].
      destruct (left_join_cover
                  (fun o => filter (fun d => driverOffers.driverId o = drivers.id d)
                              (tbl_drivers db))
                  (tbl_driverOffers db) o Ho) as (jr & Hjr & <-).
      by apply list_elem_of_fmap_2.
  - intros Hnd. subst joined. rewrite left_join_fst_unique; [done|].
    intros o _. by apply (filter_key_unique drivers.id).
Qed.

Lemma getOrderOffers_lists_offers_witness :
  getOrderOffers.offerId <$> getOrderOffers.offers (getOrderOffersTool 1 scenario_db).1
  ≡ₚ [1; 2].
Proof.
  refine (proj2 (proj2 (proj2 (getOrderOffers_lists_offers 1 scenario_db _))) _).
  - unfold int4. lia.
  - apply (bool_decide_unpack _). vm_compute. exact I.
Defined.

(** * What the offer tools do not look at *)

(** [makeOffer] never reads the orders: whatever is done to the order table,
    the call answers the same and writes the same offer.  In particular an
    offer is stored for an order id that no order has, and for an order
    that is already accepted. *)
Theorem makeOffer_ignores_orders (db : DB) (now : Z) (telegramId : string)
    (orderId offeredPrice : Z) (message : option string)
    (f : list orders.row -> list orders.row) :
  makeOfferTool now telegramId orderId offeredPrice message (set_tbl_orders f db)
  = ((makeOfferTool now telegramId orderId offeredPrice message db).1,
     set_tbl_orders f
       (makeOfferTool now telegramId orderId offeredPrice message db).2).
Proof.
  rewrite !makeOfferTool_eq. unfold driver_with_handle. simpl.
  destruct (head (filter _ (tbl_drivers db))) as [d|]; [|done].
  destruct (negb (drivers.isVerified d)); [done|].
  destruct (filter _ (tbl_driverOffers db)); [|done].
  by destruct (decide (parameters_fit [orderId] offeredPrice)).
Qed.

Lemma makeCounterOfferTool_eq now orderId t driverId price db :
  makeCounterOfferTool now orderId t driverId price db
  = match passenger_with_handle t db with
    | None => (mkResult false msg_passenger_not_found, db)
    | Some p =>
        if decide (parameters_fit [orderId; driverId] price) then
          (mkResult true
             ("Встречное предложение " +:+ toString price +:+
              " руб. отправлено водителю. Ожидайте ответ."),
           set_sequences next_priceNegotiations
             (set_tbl_priceNegotiations
                (fun rows => rows ++
                   [priceNegotiations.mk (seq_priceNegotiations (sequences db))
                      orderId (passengers.id p) "passenger" driverId "driver"
                      (toString price) "pending" now]) db))
        else (mkResult false msg_counter_offer_error, db)
    end.
Proof.
  unfold makeCounterOfferTool, passenger_with_handle, execute, bind, get, fail,
    succeed, ret, insert_priceNegotiations, throw.
  simpl. destruct (filter _ (tbl_passengers db)) as [|p l]; [done|]. simpl.
  by destruct (decide (parameters_fit [orderId; driverId] price)).
Qed.

(** [makeCounterOffer] looks up the passenger and nothing else: it refuses
    an unknown handle and writes nothing.  For a registered passenger, when
    the order id, the driver id and the price fit their columns, it appends
    one pending proposal from the passenger to the driver id it was given;
    when they do not, the insert raises, the tool answers its generic
    failure and nothing is stored.  It answers and writes the same whatever
    the order, offer and driver tables hold, so neither the order nor the
    driver need exist. *)
Theorem makeCounterOffer_checks_passenger_only (db : DB) (now orderId : Z)
    (telegramId : string) (driverId counterPrice : Z) :
  let out := (makeCounterOfferTool now orderId telegramId driverId
                counterPrice db).1 in
  let db' := (makeCounterOfferTool now orderId telegramId driverId
                counterPrice db).2 in
  (passenger_with_handle telegramId db = None ->
     out = mkResult false msg_passenger_not_found /\ db' = db)
  /\ (forall p, passenger_with_handle telegramId db = Some p ->
        int4 orderId -> int4 driverId -> decimal_8_2 counterPrice ->
        success out = true
        /\ db' = set_sequences next_priceNegotiations
                   (set_tbl_priceNegotiations
                      (fun rows => rows ++
                         [priceNegotiations.mk
                            (seq_priceNegotiations (sequences db)) orderId
                            (passengers.id p) "passenger" driverId "driver"
                            (toString counterPrice) "pending" now]) db))
  /\ (forall p, passenger_with_handle telegramId db = Some p ->
        ~ (int4 orderId /\ int4 driverId /\ decimal_8_2 counterPrice) ->
        out = mkResult false msg_counter_offer_error
        /\ tbl_priceNegotiations db' = tbl_priceNegotiations db)
  /\ (forall fo ff fd,
        makeCounterOfferTool now orderId telegramId driverId counterPrice
          (set_tbl_orders fo (set_tbl_driverOffers ff (set_tbl_drivers fd db)))
        = (out, set_tbl_orders fo (set_tbl_driverOffers ff (set_tbl_drivers fd db')))).
Proof.
  cbv zeta. rewrite makeCounterOfferTool_eq.
  split; [|split; [|split]].
  - by intros ->.
  - intros p -> Ho Hd Hprice.
    destruct (decide (parameters_fit [orderId; driverId] counterPrice)) as [|Hno];
      [done|].
    exfalso. by apply Hno, parameters_fit_two.
  - intros p -> Hno.
    destruct (decide (parameters_fit [orderId; driverId] counterPrice)) as [Hfit|];
      [|done].
    exfalso. by apply Hno, parameters_fit_two.
  - intros fo ff fd. rewrite makeCounterOfferTool_eq.
    unfold passenger_with_handle. simpl.
    destruct (head (filter _ (tbl_passengers db))) as [p|]; [|done].
    by destruct (decide (parameters_fit [orderId; driverId] counterPrice)).
Qed.

Lemma makeCounterOffer_checks_passenger_only_witness :
  tbl_priceNegotiations (makeCounterOfferTool 3 77 "p1" 88 450 scenario_db).2
  = [priceNegotiations.mk 1 77 1 "passenger" 88 "driver" "450" "pending" 3]
  /\ (makeCounterOfferTool 3 77 "p1" 88 1000000 scenario_db).1
     = mkResult false msg_counter_offer_error.
Proof.
  split.
  - refine (f_equal tbl_priceNegotiations
             (proj2 (proj1 (proj2 (makeCounterOffer_checks_passenger_only
                scenario_db 3 77 "p1" 88 450)) (example_passenger 1 "p1")
                eq_refl _ _ _))); unfold int4, decimal_8_2; lia.
  - refine (proj1 (proj1 (proj2 (proj2 (makeCounterOffer_checks_passenger_only
              scenario_db 3 77 "p1" 88 1000000))) (example_passenger 1 "p1")
              eq_refl _)).
    unfold int4, decimal_8_2. lia.
Defined.

(** * setDriverStatus *)

Lemma setDriverStatusTool_store t b db :
  (setDriverStatusTool t b db).2
  = match driver_with_handle t db with
    | None => db
    | Some _ =>
        set_tbl_drivers
          (update_where (fun d => drivers.telegramId d = t) (driver_set_online b))
          db
    end.
Proof.
  unfold setDriverStatusTool, driver_with_handle, execute, bind, get, modify, ret.
  simpl. by destruct (filter _ (tbl_drivers db)).
Qed.

Lemma update_where_all {R} (p : R -> Prop) `{!forall r, Decision (p r)}
    (f : R -> R) (rows : list R) :
  Forall p rows -> update_where p f rows = f <$> rows.
Proof.
  unfold update_where. induction 1 as [|r rows Hr _ IH]; [done|].
  rewrite fmap_cons.
  change ((if decide (p r) then f r else r)
            :: map (fun r => if decide (p r) then f r else r) rows
          = f r :: (f <$> rows)).
  rewrite IH. by destruct (decide (p r)).
Qed.

Lemma driver_with_handle_online t b db d :
  driver_with_handle t db = Some d ->
  driver_with_handle t
    (set_tbl_drivers
       (update_where (fun d => drivers.telegramId d = t) (driver_set_online b)) db)
  = Some (driver_set_online b d).
Proof.
  unfold driver_with_handle. simpl. intros Hd.
  rewrite (filter_update_where _ _ (fun d => drivers.telegramId d = t)) by done.
  rewrite update_where_all.
  - destruct (filter _ (tbl_drivers db)); [done|]. by injection Hd as ->.
  - apply Forall_forall. intros x Hx. by apply list_elem_of_filter in Hx as [? _].
Qed.

(** [setDriverStatus] refuses an unknown handle and writes nothing; for a
    registered driver it rewrites [isOnline] and nothing else (the
    verification flag in particular stays).  After going offline the driver
    is refused the order list; a verified driver who goes online gets it. *)
Theorem driver_status_gates_list (db : DB) (telegramId : string)
    (toISOString : Z -> string) (now : Z) :
  (driver_with_handle telegramId db = None ->
     forall isOnline,
       setDriverStatusTool telegramId isOnline db
       = (setDriverStatus.mk false msg_driver_not_registered None, db))
  /\ (forall d isOnline, driver_with_handle telegramId db = Some d ->
        setDriverStatus.success (setDriverStatusTool telegramId isOnline db).1
        = true
        /\ rows_rewritten (fun r => drivers.telegramId r = telegramId)
             (fun r r' => r' = driver_set_online isOnline r
                          /\ drivers.isVerified r' = drivers.isVerified r)
             (tbl_drivers db)
             (tbl_drivers (setDriverStatusTool telegramId isOnline db).2))
  /\ (forall d, driver_with_handle telegramId db = Some d ->
        (getAvailableOrdersTool toISOString now telegramId
           (setDriverStatusTool telegramId false db).2).1
        = getAvailableOrders.mk false []
            (if drivers.isVerified d then msg_offline
             else msg_need_verification))
  /\ (forall d, driver_with_handle telegramId db = Some d ->
        drivers.isVerified d = true ->
        getAvailableOrders.success
          (getAvailableOrdersTool toISOString now telegramId
             (setDriverStatusTool telegramId true db).2).1 = true).
Proof.
  split; [|split; [|split]].
  - intros Hnone isOnline.
    unfold driver_with_handle in Hnone.
    unfold setDriverStatusTool, execute, bind, get, modify, ret. simpl.
    by destruct (filter _ (tbl_drivers db)).
  - intros d isOnline Hd. rewrite setDriverStatusTool_store, Hd.
    split.
    { unfold driver_with_handle in Hd.
      unfold setDriverStatusTool, execute, bind, get, modify, ret. simpl.
      by destruct (filter _ (tbl_drivers db)). }
    simpl. apply update_where_rewritten. intros r _. by split.
  - intros d Hd. rewrite setDriverStatusTool_store, Hd.
    rewrite getAvailableOrdersTool_eq.
    rewrite (driver_with_handle_online _ _ _ _ Hd). simpl.
    by destruct (drivers.isVerified d).
  - intros d Hd Hv. rewrite setDriverStatusTool_store, Hd.
    rewrite getAvailableOrdersTool_eq.
    rewrite (driver_with_handle_online _ _ _ _ Hd). simpl. by rewrite Hv.
Qed.

Lemma driver_status_gates_list_witness :
  (getAvailableOrdersTool (fun _ => "t") 5 "d1"
     (setDriverStatusTool "d1" false scenario_db).2).1
  = getAvailableOrders.mk false [] msg_offline
  /\ getAvailableOrders.success
       (getAvailableOrdersTool (fun _ => "t") 5 "d1"
          (setDriverStatusTool "d1" true scenario_db).2).1 = true.
Proof.
  split.
  - exact (proj1 (proj2 (proj2
             (driver_status_gates_list scenario_db "d1" (fun _ => "t") 5)))
             (example_driver 1 "d1" true) eq_refl).
  - exact (proj2 (proj2 (proj2
             (driver_status_gates_list scenario_db "d1" (fun _ => "t") 5)))
             (example_driver 1 "d1" true) eq_refl eq_refl).
Defined.

(** * Verification status *)

Lemma checkVerificationStatusTool_eq t db :
  checkVerificationStatusTool t db
  = (match driver_with_handle t db with
     | None => checkVerificationStatus.mk false None None msg_driver_not_found
     | Some d =>
         let documents :=
           filter (fun doc => driverDocuments.driverId doc = drivers.id d)
                  (tbl_driverDocuments db) in
         let isVerified :=
           hasAllRequiredApproved documents && drivers.isVerified d in
         checkVerificationStatus.mk true (Some isVerified)
           (Some (document_status <$> documents))
           ("Статус верификации: " +:+
            (if isVerified then "Подтвержден" else "Не подтвержден") +:+
            "\n\n" +:+
            match document_status <$> documents with
            | [] =>
                "Документы не загружены. Загрузите водительское удостоверение и документы на автомобиль."
            | _ :: _ =>
                "Статус документов:\n" +:+
                join "\n" (document_line <$> (document_status <$> documents))
            end)
     end, db).
Proof.
  unfold checkVerificationStatusTool, driver_with_handle, execute, bind, get, ret.
  simpl. by destruct (filter _ (tbl_drivers db)).
Qed.

(** [checkVerificationStatus] never writes and refuses an unknown handle.
    For a registered driver it reports one entry per stored document of the
    driver, and reports the driver verified exactly when the stored flag is
    set and the driver has an approved licence and an approved vehicle
    registration: it trusts neither the flag nor the documents alone. *)
Theorem checkVerificationStatus_reports (telegramId : string) (db : DB) :
  let out := (checkVerificationStatusTool telegramId db).1 in
  (checkVerificationStatusTool telegramId db).2 = db
  /\ (driver_with_handle telegramId db = None ->
      out = checkVerificationStatus.mk false None None msg_driver_not_found)
  /\ (forall d, driver_with_handle telegramId db = Some d ->
        checkVerificationStatus.success out = true
        /\ (checkVerificationStatus.isVerified out = Some true
            <-> drivers.isVerified d = true
                /\ has_approved (drivers.id d) "license" db
                /\ has_approved (drivers.id d) "vehicle_registration" db)
        /\ (checkVerificationStatus.isVerified out = Some true
            \/ checkVerificationStatus.isVerified out = Some false)
        /\ length <$> checkVerificationStatus.documents out
           = Some (length (filter (fun doc => driverDocuments.driverId doc
                                               = drivers.id d)
                                  (tbl_driverDocuments db)))).
Proof.
  simpl. rewrite checkVerificationStatusTool_eq. simpl.
  split; [done|].
  destruct (driver_with_handle telegramId db) as [d|]; [|by split].
  split; [done|]. intros ? [= <-]. simpl. split; [done|]. split; [|split].
  - rewrite <- hasAllRequiredApproved_of_driver.
    destruct (hasAllRequiredApproved _), (drivers.isVerified d); simpl;
      split; try done; intros [? ?]; done.
  - destruct (hasAllRequiredApproved _ && drivers.isVerified d); auto.
  - by rewrite length_fmap.
Qed.

Lemma checkVerificationStatus_reports_witness :
  checkVerificationStatus.isVerified (checkVerificationStatusTool "d1" scenario_db).1
  = Some true.
Proof.
  apply (proj1 (proj2 (proj2 (proj2
           (checkVerificationStatus_reports "d1" scenario_db))
           (example_driver 1 "d1" true) eq_refl))).
  split; [reflexivity|]. split.
  - exists (example_document 1 1 license "approved" None). split; [left|done].
  - exists (example_document 2 1 vehicle_registration "approved" None).
    split; [right; left|done].
Defined.

Lemma uploadDocumentTool_store now t ty data db :
  (uploadDocumentTool now t ty data db).2
  = match driver_with_handle t db with
    | None => db
    | Some d =>
        match document_of (drivers.id d) ty db with
        | Some doc =>
            set_tbl_driverDocuments
              (update_where
                 (fun r => driverDocuments.id r = driverDocuments.id doc)
                 (document_resubmit now data)) db
        | None =>
            set_sequences next_driverDocuments
              (set_tbl_driverDocuments
                 (fun rows => rows ++
                    [driverDocuments.mk (seq_driverDocuments (sequences db))
                       (drivers.id d) (documentType_text ty) (Some data)
                       "pending" None now now]) db)
        end
    end.
Proof.
  unfold uploadDocumentTool, driver_with_handle, document_of, execute, bind,
    get, modify, ret, insert_driverDocuments.
  simpl.
  destruct (filter _ (tbl_drivers db)) as [|d l]; [done|]. simpl.
  by destruct (filter _ (tbl_driverDocuments db)).
Qed.

(** [uploadDocument] never writes to the driver table.  When a driver with
    at most one document per category submits a category again, the
    document is back to pending, so the driver no longer has an approved
    document of that category, but the stored verification flag is what it
    was: the driver's offers are answered as before, while, when the
    category is the licence or the vehicle registration,
    [checkVerificationStatus] reports the driver as not verified. *)
Theorem resubmission_outdates_flag (db : DB) (now : Z) (telegramId : string)
    (documentType : DocumentType) (documentData : DocumentData)
    (d : drivers.row) (doc : driverDocuments.row) :
  driver_with_handle telegramId db = Some d ->
  document_of (drivers.id d) documentType db = Some doc ->
  NoDup ((fun x => (driverDocuments.driverId x, driverDocuments.documentType x))
           <$> tbl_driverDocuments db) ->
  let db' := (uploadDocumentTool now telegramId documentType documentData db).2 in
  tbl_drivers db' = tbl_drivers db
  /\ ~ has_approved (drivers.id d) (documentType_text documentType) db'
  /\ (forall now' orderId price message,
        (makeOfferTool now' telegramId orderId price message db').1
        = (makeOfferTool now' telegramId orderId price message db).1)
  /\ (documentType <> insurance ->
      checkVerificationStatus.isVerified
        (checkVerificationStatusTool telegramId db').1 = Some false).
Proof.
  intros Hd Hdoc Hnd. simpl.
  rewrite uploadDocumentTool_store, Hd, Hdoc.
  set (db' := set_tbl_driverDocuments _ db).
  assert (Hnot : ~ has_approved (drivers.id d) (documentType_text documentType) db').
  { intros (x' & Hx' & Hdx & Htx & Hsx). subst db'. simpl in Hx'.
    apply elem_of_update_where in Hx' as (x & Hx & [[_ ->]|[Hne ->]]);
      [discriminate Hsx|].
    apply head_filter_elem in Hdoc as (Hin & Hdd & Htd).
    apply Hne. f_equal.
    apply (key_unique
             (fun x => (driverDocuments.driverId x, driverDocuments.documentType x))
             (tbl_driverDocuments db)); auto.
    simpl. congruence. }
  split; [done|]. split; [exact Hnot|]. split.
  - intros now' orderId price message. rewrite !makeOfferTool_eq.
    unfold driver_with_handle in *. subst db'. simpl. rewrite Hd.
    destruct (negb (drivers.isVerified d)); [done|].
    destruct (filter _ (tbl_driverOffers db)); [|done].
    by destruct (decide (parameters_fit [orderId] price)).
  - intros Hty. rewrite checkVerificationStatusTool_eq.
    unfold driver_with_handle in *. subst db'. simpl. rewrite Hd. simpl.
    f_equal. apply andb_false_iff. left.
    apply not_true_is_false. intros Hall.
    apply (hasAllRequiredApproved_of_driver (drivers.id d)
             (set_tbl_driverDocuments
                (update_where
                   (fun r => driverDocuments.id r = driverDocuments.id doc)
                   (document_resubmit now documentData)) db)) in Hall.
    destruct Hall as [Hl Hv]. destruct documentType; done.
Qed.

Lemma resubmission_outdates_flag_witness :
  drivers.isVerified
    <$> tbl_drivers (uploadDocumentTool 9 "d1" license example_payload scenario_db).2
  = [true; true; false]
  /\ checkVerificationStatus.isVerified
       (checkVerificationStatusTool "d1"
          (uploadDocumentTool 9 "d1" license example_payload scenario_db).2).1
     = Some false.
Proof.
  split; [vm_compute; reflexivity|].
  refine (proj2 (proj2 (proj2
            (resubmission_outdates_flag scenario_db 9 "d1" license
               example_payload (example_driver 1 "d1" true)
               (example_document 1 1 license "approved" None)
               eq_refl eq_refl _))) _); [|discriminate].
  apply (bool_decide_unpack _). vm_compute. exact I.
Defined.

Lemma set_tbl_driverDocuments_same db (f : list driverDocuments.row -> list driverDocuments.row) :
  f (tbl_driverDocuments db) = tbl_driverDocuments db ->
  set_tbl_driverDocuments f db = db.
Proof. intros Hf. unfold set_tbl_driverDocuments. rewrite Hf. by destruct db. Qed.

(** For a document id of the column's type [processDocumentVerification]
    reports success, also when no document has the id.  For an id that is
    not stored it writes nothing; for a stored one it sets the status to
    approved or rejected on the rows of that id, clears the rejection
    reason on approval and stores the given non-empty reason on rejection,
    and leaves payload, category, owner and every other document as they
    were. *)
Theorem adjudication_always_succeeds (db : DB) (now documentId : Z)
    (approve : bool) (rejectionReason : option string) :
  int4 documentId ->
  let out := (processDocumentVerificationTool now documentId approve
                rejectionReason db).1 in
  let db' := (processDocumentVerificationTool now documentId approve
                rejectionReason db).2 in
  success out = true
  /\ (document_with_id documentId db = None -> db' = db)
  /\ rows_rewritten (fun r => driverDocuments.id r = documentId)
       (fun r r' =>
          driverDocuments.status r' = (if approve then "approved" else "rejected")
          /\ driverDocuments.rejectionReason r'
             = (if approve then None else or_null rejectionReason)
          /\ driverDocuments.documentData r' = driverDocuments.documentData r
          /\ driverDocuments.documentType r' = driverDocuments.documentType r
          /\ driverDocuments.driverId r' = driverDocuments.driverId r
          /\ driverDocuments.id r' = driverDocuments.id r)
       (tbl_driverDocuments db) (tbl_driverDocuments db').
Proof.
  intros _. simpl. split; [|split].
  - unfold processDocumentVerificationTool, checkAndUpdateDriverVerification,
      execute, bind, get, modify, try_catch, succeed, ret.
    simpl. by destruct (filter _ (update_where _ _ (tbl_driverDocuments db))).
  - intros Hnone.
    assert (Hnil : filter (fun r => driverDocuments.id r = documentId)
                     (tbl_driverDocuments db) = []).
    { by apply head_filter_none. }
    unfold processDocumentVerificationTool, checkAndUpdateDriverVerification,
      execute, bind, get, modify, try_catch, succeed, ret.
    simpl.
    rewrite (filter_update_where _ _ (fun r => driverDocuments.id r = documentId))
      by done.
    rewrite Hnil. simpl. apply set_tbl_driverDocuments_same.
    by apply update_where_filter_nil.
  - assert (Hdocs : tbl_driverDocuments
                      (processDocumentVerificationTool now documentId approve
                         rejectionReason db).2
                    = update_where (fun r => driverDocuments.id r = documentId)
                        (document_adjudicate now approve rejectionReason)
                        (tbl_driverDocuments db)).
    { unfold processDocumentVerificationTool, checkAndUpdateDriverVerification,
        execute, bind, get, modify, try_catch, succeed, ret.
      simpl. by destruct (filter _ (update_where _ _ (tbl_driverDocuments db))). }
    rewrite Hdocs. apply update_where_rewritten. intros r _. by repeat split.
Qed.

(** * Answers to counter-offers *)

(** No branch of [respondToCounterOffer] writes to the orders, the offers
    or the profiles: accepting a counter-offer does not accept the order.
    For a registered driver, accept marks the negotiation rows of the given
    id accepted, and a refusal without a counter price (or with 0) marks
    them rejected; price, parties and every other row stay. *)
Theorem respondToCounterOffer_never_books (db : DB) (now : Z)
    (telegramId : string) (negotiationId : Z) (accept : bool)
    (counterPrice : option Z) :
  let db' := (respondToCounterOfferTool now telegramId negotiationId accept
                counterPrice db).2 in
  tbl_orders db' = tbl_orders db
  /\ tbl_driverOffers db' = tbl_driverOffers db
  /\ tbl_drivers db' = tbl_drivers db
  /\ tbl_passengers db' = tbl_passengers db
  /\ (forall d, driver_with_handle telegramId db = Some d ->
        (accept = true \/ truthy_number counterPrice = None) ->
        rows_rewritten (fun n => priceNegotiations.id n = negotiationId)
          (fun n n' =>
             n' = negotiation_set_status
                    (if accept then "accepted" else "rejected") n)
          (tbl_priceNegotiations db) (tbl_priceNegotiations db')).
Proof.
  cbv zeta. rewrite respondToCounterOfferTool_eq.
  destruct (driver_with_handle telegramId db) as [d|]; [|by repeat split].
  destruct accept; cbn [snd].
  - repeat split. intros ? _ _. by apply update_where_rewritten.
  - destruct (truthy_number counterPrice) as [v|].
    + destruct (negotiation_with_id negotiationId db);
        [destruct (decide (decimal_8_2 v))|];
        repeat split; by intros ? _ [|].
    + repeat split. intros ? _ _. by apply update_where_rewritten.
Qed.

Lemma respondToCounterOffer_never_books_witness :
  tbl_priceNegotiations
    (respondToCounterOfferTool 9 "d1" 1 true None negotiating_db).2
  = [priceNegotiations.mk 1 1 1 "passenger" 1 "driver" "450" "accepted" 0]
  /\ orders.status
       <$> tbl_orders (respondToCounterOfferTool 9 "d1" 1 true None negotiating_db).2
     = ["pending"; "pending"].
Proof.
  split; [vm_compute; reflexivity|].
  rewrite (proj1 (respondToCounterOffer_never_books negotiating_db 9 "d1" 1 true
                    None)).
  reflexivity.
Defined.

(** * acceptOffer without the order *)

(** [acceptOffer] does not look the order up: for an order id of the
    column's type that no order has, an existing offer is still set to
    accepted and the call reports success, while the order table stays as
    it was. *)
Theorem acceptOffer_without_order (db : DB) (offerId orderId : Z)
    (offer : driverOffers.row) :
  int4 orderId ->
  offer_with_id offerId db = Some offer ->
  order_with_id orderId db = None ->
  acceptOffer.success (acceptOfferTool offerId orderId db).1 = true
  /\ tbl_orders (acceptOfferTool offerId orderId db).2 = tbl_orders db
  /\ exists accepted,
       offer_with_id offerId (acceptOfferTool offerId orderId db).2
       = Some accepted
       /\ driverOffers.status accepted = "accepted".
Proof.
  intros _ Hoffer Horder.
  destruct (acceptOfferTool_found db offerId orderId offer Hoffer)
    as (Hs & _ & ->).
  split; [exact Hs|]. simpl. split.
  - apply update_where_filter_nil. by apply head_filter_none.
  - exists (offer_set_status "accepted" offer). split; [|done].
    unfold offer_with_id in *. simpl.
    rewrite (filter_update_where _ _ (fun o => driverOffers.id o = offerId))
      by done.
    rewrite update_where_all.
    + destruct (filter _ (tbl_driverOffers db)); [done|]. by injection Hoffer as ->.
    + apply Forall_forall. intros x Hx.
      by apply list_elem_of_filter in Hx as [? _].
Qed.

Lemma acceptOffer_without_order_witness :
  acceptOffer.success (acceptOfferTool 1 99 scenario_db).1 = true
  /\ tbl_orders (acceptOfferTool 1 99 scenario_db).2 = tbl_orders scenario_db.
Proof.
  assert (Hint : int4 99) by (unfold int4; lia).
  pose proof (acceptOffer_without_order scenario_db 1 99
                (example_offer 1 1 1 "600") Hint eq_refl eq_refl) as (Hs & Ho & _).
  by split.
Defined.

Lemma adjudication_always_succeeds_witness :
  processDocumentVerificationTool 9 99 true None scenario_db
  = (mkResult true "Документ одобрен.", scenario_db).
Proof.
  assert (Hint : int4 99) by (unfold int4; lia).
  pose proof (adjudication_always_succeeds scenario_db 9 99 true None Hint)
    as (_ & Hsame & _).
  specialize (Hsame eq_refl).
  rewrite <- Hsame at 2. reflexivity.
Defined.

(** * Ratings read back *)


Section OrderByCreatedAt.

Lemma insert_by_createdAt_perm (r : ratings.row) (l : list ratings.row) :
  insert_by_createdAt r l ≡ₚ r :: l.
Proof.
  induction l as [|x l IH]; simpl; [done|].
  destruct (ratings.createdAt r <? ratings.createdAt x); [done|].
  rewrite IH. apply Permutation_swap.
Qed.

Lemma orderBy_createdAt_perm (l : list ratings.row) : orderBy_createdAt l ≡ₚ l.
Proof.
  unfold orderBy_createdAt.
  assert (Hgen : forall acc, fold_left (fun acc r => insert_by_createdAt r acc) l acc
                             ≡ₚ acc ++ l).
  { induction l as [|x l IH]; intros acc; simpl.
    - by rewrite app_nil_r.
    - rewrite IH, insert_by_createdAt_perm.
      by rewrite (Permutation_middle acc l x). }
  apply (Hgen []).
Qed.




End OrderByCreatedAt.

Lemma getUserRatingTool_eq userId userType db :
  getUserRatingTool userId userType db
  = (match orderBy_createdAt
             (filter (fun r => ratings.toUserId r = userId
                               /\ ratings.toUserType r = userType_text userType)
                     (tbl_ratings db)) with
     | [] =>
         getUserRating.mk true (Some "5.00") (Some 0) (Some []) msg_no_ratings
     | x :: rest =>
         let userRatings := x :: rest in
         let avg := avgRating (ratings.rating <$> userRatings) in
         let count := Z.of_nat (length userRatings) in
         getUserRating.mk true (Some (toFixed2 avg)) (Some count)
           (Some (recentComments userRatings))
           ("Рейтинг: " +:+ toFixed2 avg +:+ " (" +:+ toString count +:+
            " оценок)")
     end, db).
Proof.
  unfold getUserRatingTool, execute, bind, get, ret. simpl.
  by destruct (orderBy_createdAt _).
Qed.

(** For a user id of the column's type [getUserRating] succeeds and never
    writes, whether or not the id names a profile.  The count it reports is
    the number of ratings stored for that id in the role, and it returns at
    most five comments. *)
Theorem getUserRating_counts (userId : Z) (userType : UserType) (db : DB) :
  int4 userId ->
  let out := (getUserRatingTool userId userType db).1 in
  (getUserRatingTool userId userType db).2 = db
  /\ getUserRating.success out = true
  /\ getUserRating.totalRatings out
     = Some (Z.of_nat (length (ratings_received userId (userType_text userType) db)))
  /\ exists comments,
       getUserRating.recentComments out = Some comments
       /\ (length comments <= 5)%nat.
Proof.
  intros _. simpl. rewrite getUserRatingTool_eq. simpl. split; [done|].
  unfold ratings_received. rewrite length_fmap.
  rewrite <- (Permutation_length (orderBy_createdAt_perm _)).
  destruct (orderBy_createdAt _) as [|x rest]; simpl.
  - repeat split. exists []. split; [done|]. simpl. lia.
  - repeat split. eexists. split; [done|].
    unfold recentComments. rewrite length_reverse, length_drop. lia.
Qed.

Lemma getUserRating_counts_witness :
  getUserRating.totalRatings (getUserRatingTool 2 driver rated_db).1 = Some 2.
Proof.
  assert (Hint : int4 2) by (unfold int4; lia).
  pose proof (getUserRating_counts 2 driver rated_db Hint) as (_ & _ & Hcount & _).
  exact Hcount.
Defined.




Lemma head_update_where {R} (p : R -> Prop) `{!forall r, Decision (p r)}
    (f : R -> R) (rows : list R) :
  head (update_where p f rows)
  = (fun r => if decide (p r) then f r else r) <$> head rows.
Proof. by destruct rows. Qed.




(** * Two more invariants of the histories *)

Lemma has_document_insert driverId type db r :
  has_document driverId type db ->
  has_document driverId type
    (set_sequences next_driverDocuments
       (set_tbl_driverDocuments (fun rows => rows ++ [r]) db)).
Proof.
  intros (x & Hx & Hd & Ht). exists x. split; [|done].
  simpl. apply elem_of_app. by left.
Qed.

Lemma has_document_update driverId type db (p : driverDocuments.row -> Prop)
    `{!forall r, Decision (p r)} (f : driverDocuments.row -> driverDocuments.row) :
  (forall r, driverDocuments.driverId (f r) = driverDocuments.driverId r
             /\ driverDocuments.documentType (f r) = driverDocuments.documentType r) ->
  has_document driverId type db ->
  has_document driverId type (set_tbl_driverDocuments (update_where p f) db).
Proof.
  intros Hf (x & Hx & Hd & Ht).
  exists (if decide (p x) then f x else x). split.
  - simpl. by apply elem_of_update_where_2.
  - destruct (decide (p x)); [|done]. destruct (Hf x) as [-> ->]. done.
Qed.

(** In every store a history of calls produces, a driver whose verification
    flag is set has a licence and a vehicle registration among the stored
    documents: no call sets the flag of a driver who has not submitted
    both. *)
Theorem verified_have_documents_kept (history : list (Z * call)) :
  verified_have_documents (run history empty_db).
Proof.
  apply run_invariant.
  - constructor.
  - intros db db' Hinv Hw.
    destruct Hw; unfold verified_have_documents in *; simpl; try assumption.
    + apply Forall_insert; [done|]. intros Hv. congruence.
    + eapply Forall_impl; [exact Hinv|]. intros d0 Hd0 Hv.
      destruct (Hd0 Hv). split; by apply has_document_insert.
    + eapply Forall_impl; [exact Hinv|]. intros d0 Hd0 Hv.
      destruct (Hd0 Hv). split; by apply has_document_update.
    + eapply Forall_impl; [exact Hinv|]. intros d0 Hd0 Hv.
      destruct (Hd0 Hv). split; by apply has_document_update.
    + apply Forall_update_where; [|done]. intros d0 _ Hid. simpl. intros ->.
      symmetry in H. apply hasAllRequiredApproved_iff in H
        as [(x & Hx & Htx & _) (y & Hy & Hty & _)].
      apply list_elem_of_filter in Hx as [Hdx Hx].
      apply list_elem_of_filter in Hy as [Hdy Hy].
      split; [exists x|exists y]; (split; [done|]); split; congruence.
    + apply Forall_update_where; [|done]. intros d0 Hd0 _. exact Hd0.
    + apply Forall_update_where; [|done]. intros d0 Hd0 _. exact Hd0.
Qed.

(** In every store a history of calls produces, each rating names an order
    that is stored and has an accepted driver: no call rates an order that
    was never accepted. *)
Theorem ratings_of_accepted_orders_kept (history : list (Z * call)) :
  ratings_of_accepted_orders (run history empty_db).
Proof.
  apply run_invariant.
  - constructor.
  - intros db db' Hinv Hw.
    destruct Hw; unfold ratings_of_accepted_orders in *; simpl;
      try assumption.
    + eapply Forall_impl; [exact Hinv|]. intros r0 (o & Ho & Hid & Hacc).
      exists o. split; [|done]. apply elem_of_app. by left.
    + apply Forall_insert; [done|]. by exists o.
    + eapply Forall_impl; [exact Hinv|]. intros r0 (o & Ho & Hid & Hacc).
      exists (if decide (orders.id o = orderId) then order_accept offer o else o).
      split.
      { exact (elem_of_update_where_2 (fun r => orders.id r = orderId)
                 (order_accept offer) (tbl_orders db) o Ho). }
      destruct (decide (orders.id o = orderId)); [|done].
      split; [done|]. by eexists.
Qed.

(** * From adjudication to offers *)

Lemma driver_with_handle_verification t driverId ok db d :
  driver_with_handle t db = Some d ->
  drivers.id d = driverId ->
  driver_with_handle t
    (set_tbl_drivers
       (update_where (fun x => drivers.id x = driverId)
          (driver_set_verification ok)) db)
  = Some (driver_set_verification ok d).
Proof.
  unfold driver_with_handle. simpl. intros Hd Hid.
  rewrite (filter_update_where _ _ (fun x => drivers.telegramId x = t)) by done.
  rewrite head_update_where, Hd. simpl.
  by destruct (decide (drivers.id d = driverId)).
Qed.

(** Right after the adjudication of one of a driver's documents,
    [makeOffer] refuses that driver for lack of verification exactly when
    the driver is short of an approved licence or an approved vehicle
    registration: the approval that completes the pair opens the offers,
    the rejection that breaks it closes them. *)
Theorem adjudication_gates_offers (db : DB) (now now' documentId : Z)
    (approve : bool) (reason : option string) (doc : driverDocuments.row)
    (telegramId : string) (d : drivers.row)
    (orderId price : Z) (message : option string) :
  document_with_id documentId db = Some doc ->
  driver_with_handle telegramId db = Some d ->
  drivers.id d = driverDocuments.driverId doc ->
  let db' := (processDocumentVerificationTool now documentId approve reason db).2 in
  (makeOfferTool now' telegramId orderId price message db').1
  = mkResult false msg_not_verified
  <-> ~ (has_approved (drivers.id d) "license" db'
         /\ has_approved (drivers.id d) "vehicle_registration" db').
Proof.
  intros Hdoc Hd Hid. simpl.
  destruct (processDocumentVerificationTool_found db now documentId approve
              reason doc Hdoc) as [Hdocs Hdrivers].
  simpl in Hdocs, Hdrivers.
  set (db' := (processDocumentVerificationTool now documentId approve reason db).2)
    in *.
  assert (Hlookup : driver_with_handle telegramId db'
                    = Some (driver_set_verification
                              (hasAllRequiredApproved
                                 (filter (fun x => driverDocuments.driverId x
                                                   = driverDocuments.driverId doc)
                                         (tbl_driverDocuments db'))) d)).
  { unfold driver_with_handle. rewrite Hdrivers, Hdocs.
    by apply (driver_with_handle_verification telegramId _ _ db d). }
  rewrite makeOfferTool_eq, Hlookup.
  rewrite <- Hid.
  rewrite <- (hasAllRequiredApproved_of_driver (drivers.id d) db').
  destruct (hasAllRequiredApproved
              (filter (fun x => driverDocuments.driverId x = drivers.id d)
                      (tbl_driverDocuments db'))); simpl.
  - split; [|intros Hn; by destruct Hn].
    destruct (filter _ (tbl_driverOffers db')); [|discriminate].
    destruct (decide (parameters_fit [orderId] price)); discriminate.
  - split; [by intros _ ?|done].
Qed.

Lemma adjudication_gates_offers_witness :
  (makeOfferTool 10 "d1" 2 700 None
     (processDocumentVerificationTool 9 1 false (Some "expired") scenario_db).2).1
  = mkResult false msg_not_verified.
Proof.
  apply (proj2 (adjudication_gates_offers scenario_db 9 10 1 false
                  (Some "expired") (example_document 1 1 license "approved" None)
                  "d1" (example_driver 1 "d1" true) 2 700 None
                  eq_refl eq_refl eq_refl)).
  intros [(x & Hx & Hd & Ht & Hs) _].
  vm_compute in Hx. apply list_elem_of_In in Hx. simpl in Hx.
  destruct Hx as [<-|[<-|[<-|[<-|[<-|[]]]]]]; discriminate.
Defined.

(** * An offer made is an offer listed *)

Lemma getOrderOffers_ids (orderId : Z) (db : DB) (id : Z) :
  id ∈ getOrderOffers.offerId
         <$> getOrderOffers.offers (getOrderOffersTool orderId db).1
  <-> exists o, o ∈ tbl_driverOffers db
                /\ driverOffers.orderId o = orderId
                /\ driverOffers.id o = id.
Proof.
  unfold getOrderOffersTool, execute, bind, get, ret. simpl.
  set (joined := left_join (tbl_driverOffers db) (fun o =>
                   filter (fun d => driverOffers.driverId o = drivers.id d)
                          (tbl_drivers db))).
  assert (Hids : getOrderOffers.offerId
                   <$> (format_offer
                          <$> filter (fun jr => driverOffers.orderId jr.1 = orderId)
                                     joined)
                 = driverOffers.id
                     <$> filter (fun o => driverOffers.orderId o = orderId)
                                (fst <$> joined)).
  { rewrite <- fmap_filter_order, <- !list_fmap_compose. done. }
  rewrite Hids, list_elem_of_fmap. split.
  - intros (o & -> & Ho). apply list_elem_of_filter in Ho as [Hord Ho].
    apply list_elem_of_fmap in Ho as (jr & -> & Hjr).
    apply left_join_fst_elem in Hjr. by exists jr.1.
  - intros (o & Ho & Hord & <-). exists o. split; [done|].
    apply list_elem_of_filter. split; [done|].
    destruct (left_join_cover
                (fun o => filter (fun d => driverOffers.driverId o = drivers.id d)
                            (tbl_drivers db))
                (tbl_driverOffers db) o Ho) as (jr & Hjr & <-).
    by apply list_elem_of_fmap_2.
Qed.

(** When [makeOffer] succeeds, the passenger's next [getOrderOffers] for
    that order contains the new offer, under the id the sequence gave it,
    next to the offers it contained before; a refused [makeOffer] leaves
    the listing as it was. *)
Theorem offer_made_is_listed (db : DB) (now : Z) (telegramId : string)
    (orderId offeredPrice : Z) (message : option string) :
  let out := (makeOfferTool now telegramId orderId offeredPrice message db).1 in
  let db' := (makeOfferTool now telegramId orderId offeredPrice message db).2 in
  (success out = true ->
     forall id,
       id ∈ getOrderOffers.offerId
              <$> getOrderOffers.offers (getOrderOffersTool orderId db').1
       <-> id = seq_driverOffers (sequences db)
           \/ id ∈ getOrderOffers.offerId
                     <$> getOrderOffers.offers (getOrderOffersTool orderId db).1)
  /\ (success out = false ->
      getOrderOffersTool orderId db' = getOrderOffersTool orderId db).
Proof.
  cbv zeta. rewrite makeOfferTool_eq.
  destruct (driver_with_handle telegramId db) as [d|]; [|by split].
  destruct (negb (drivers.isVerified d)); [by split|].
  destruct (filter _ (tbl_driverOffers db)); [|by split].
  destruct (decide (parameters_fit [orderId] offeredPrice)); [|by split].
  cbn [fst snd]. split; [|done]. intros _ id.
  rewrite !getOrderOffers_ids. simpl. split.
  - intros (o & Ho & Hord & Hid).
    apply elem_of_app in Ho as [Ho|Ho].
    + right. by exists o.
    + left. apply list_elem_of_singleton in Ho as ->. by rewrite <- Hid.
  - intros [->|(o & Ho & Hord & Hid)].
    + eexists. split; [apply elem_of_app; right; left|]. done.
    + exists o. split; [|done]. apply elem_of_app. by left.
Qed.

Lemma offer_made_is_listed_witness :
  3 ∈ getOrderOffers.offerId
        <$> getOrderOffers.offers
              (getOrderOffersTool 2 (makeOfferTool 7 "d1" 2 700 None scenario_db).2).1.
Proof.
  apply (proj1 (offer_made_is_listed scenario_db 7 "d1" 2 700 None) eq_refl 3).
  by left.
Defined.

(** * The choice of the agent *)

Lemma prefix_app (needle rest : string) : String.prefix needle (needle +:+ rest) = true.
Proof.
  induction needle as [|c needle IH]; simpl; [by destruct rest|].
  destruct (Ascii.ascii_dec c c); [exact IH|done].
Qed.

Lemma prefix_split (needle s : string) :
  String.prefix needle s = true -> exists rest, s = needle +:+ rest.
Proof.
  revert s. induction needle as [|c needle IH]; intros s Hp.
  - by exists s.
  - destruct s as [|c' s]; [done|]. simpl in Hp.
    destruct (Ascii.ascii_dec c c') as [->|]; [|done].
    destruct (IH s Hp) as (rest & ->). by exists rest.
Qed.

(** [includes] is the substring test. *)
Lemma includes_spec (needle s : string) :
  includes needle s = true <-> mentions needle s.
Proof.
  unfold mentions. split.
  - induction s as [|c s IH]; cbn [includes].
    + rewrite orb_false_r. intros Hp.
      destruct (prefix_split _ _ Hp) as (rest & Heq).
      by exists EmptyString, rest.
    + intros Hor. apply orb_true_iff in Hor as [Hp|Hin].
      * destruct (prefix_split _ _ Hp) as (rest & Heq).
        by exists EmptyString, rest.
      * destruct (IH Hin) as (before & after & ->).
        by exists (String c before), after.
  - intros (before & after & ->).
    induction before as [|c before IH].
    + change (includes needle (needle +:+ after) = true).
      destruct (needle +:+ after) eqn:Heq; cbn [includes];
        rewrite <- Heq, prefix_app; done.
    + change (includes needle (String c (before +:+ needle +:+ after)) = true).
      cbn [includes]. rewrite IH. by rewrite orb_true_r.
Qed.

(** [useAgentStep] settles the user type before it calls the agent.  A user
    registered only as a driver goes to the driver agent and a user
    registered only as a passenger to the passenger agent, whatever the
    message says.  A user registered as both goes to the driver agent
    exactly when the lowercased message mentions none of the passenger
    keywords and one of the driver keywords, so a message that mentions a
    taxi goes to the passenger agent even when it mentions driving.  An
    unregistered user goes to the driver agent exactly when the message
    mentions one of the four newcomer keywords.  The type settled on is
    always passenger or driver. *)
Theorem useAgentStep_routes (toLowerCase : string -> string)
    (message telegramId : string) (db : DB) :
  let userType := useAgentStep_userType toLowerCase message telegramId db in
  let said kw := mentions kw (toLowerCase message) in
  (userType = "passenger" \/ userType = "driver")
  /\ (passenger_with_handle telegramId db = None ->
      is_Some (driver_with_handle telegramId db) -> userType = "driver")
  /\ (is_Some (passenger_with_handle telegramId db) ->
      driver_with_handle telegramId db = None -> userType = "passenger")
  /\ (is_Some (passenger_with_handle telegramId db) ->
      is_Some (driver_with_handle telegramId db) ->
      (userType = "driver"
       <-> ~ (said "заказ" \/ said "такси" \/ said "ехать" \/ said "поездк")
           /\ (said "водит" \/ said "работ" \/ said "статус" \/ said "онлайн")))
  /\ (passenger_with_handle telegramId db = None ->
      driver_with_handle telegramId db = None ->
      (userType = "driver"
       <-> said "водит" \/ said "работат" \/ said "зарабат" \/ said "машин")).
Proof.
  cbv zeta.
  assert (Hsaid : forall kw, mentions kw (toLowerCase message)
                             <-> includes kw (toLowerCase message) = true)
    by (intros kw; symmetry; apply includes_spec).
  rewrite !Hsaid.
  unfold useAgentStep_userType, passenger_with_handle, driver_with_handle.
  destruct (filter _ (tbl_passengers db)) as [|p ps],
           (filter _ (tbl_drivers db)) as [|d ds]; cbn [head].
  - split; [destruct (_ || _); auto|].
    split; [by intros _ [? ?]|]. split; [by intros [? ?]|].
    split; [by intros [? ?]|]. intros _ _.
    destruct (includes "водит" _), (includes "работат" _),
      (includes "зарабат" _), (includes "машин" _); cbn [orb];
      split; try done; auto; intros [|[|[|]]]; done.
  - split; [auto|]. split; [done|]. split; [by intros [? ?]|].
    split; [by intros [? ?]|]. done.
  - split; [auto|]. split; [by intros _ [? ?]|]. split; [done|].
    split; [by intros _ [? ?]|]. done.
  - split; [destruct (_ || _); auto; destruct (_ || _); auto|].
    split; [done|]. split; [done|]. split; [|done]. intros _ _.
    destruct (includes "заказ" _), (includes "такси" _),
      (includes "ехать" _), (includes "поездк" _); cbn [orb];
      try (split; [done|intros [Hno _]; exfalso; apply Hno; auto]).
    destruct (includes "водит" _), (includes "работ" _),
      (includes "статус" _), (includes "онлайн" _); cbn [orb];
      split; try done;
      try (intros _; split; [intros [|[|[|]]]; done|auto]).
    intros [_ [|[|[|]]]]; done.
Qed.

Lemma useAgentStep_routes_witness :
  useAgentStep_userType (fun s => s) "нужно такси, я водитель" "p1" both_roles_db
  = "passenger"
  /\ useAgentStep_userType (fun s => s) "хочу работать" "d1" both_roles_db
     = "driver".
Proof.
  split.
  - destruct (proj1 (useAgentStep_routes (fun s => s)
                       "нужно такси, я водитель" "p1" both_roles_db))
      as [Hp|Hd]; [exact Hp|].
    apply (proj1 (proj2 (proj2 (proj2
             (useAgentStep_routes (fun s => s) "нужно такси, я водитель" "p1"
                both_roles_db))))) in Hd; [|by eexists|by eexists].
    exfalso. apply (proj1 Hd). right; left.
    by exists "нужно ", ", я водитель".
  - apply (proj1 (proj2 (useAgentStep_routes (fun s => s) "хочу работать" "d1"
                           both_roles_db))); [reflexivity|by eexists].
Defined.
